(** * BrightForge model manager: VRAM-aware model lifecycle

    A shallow embedding of [src/python/model_manager.py] (class
    [ModelManager]) and the properties of its slot table, generation lock,
    admission check, generation operations and two-stage pipeline; and of
    the endpoints of [src/python/inference_server.py] that call it.

    Modelling conventions.
    - The manager object is the record [ModelManager]; one caller runs at a
      time through it.  Other callers show only through the two lock bits and
      through the oracle [intrudes], which lets another caller take the
      generation lock right after this caller released it.
    - Everything outside the manager (torch/CUDA, diffusers, PIL, the file
      system, the clock) is an oracle of [Env], indexed by the number of
      external calls made so far ([tick]).  Quantifying over [Env] quantifies
      over every behaviour of the collaborators.
    - Python exceptions are the outcome [Raise], carrying [str(e)]; a thread
      parked on a lock is the outcome [Blocked], and the model does not
      follow it further.
    - Floats (gigabytes, seconds) are rationals: rounding error of float
      arithmetic is not modelled.
    - Logging is omitted.  Module imports inside functions are taken to
      resolve; the imports that sit inside a try block are part of the
      fallible external step that follows them.
    - [trace] is a ghost log, newest event first: a snapshot of the slot
      table after each write to it, lock events, calls and backend
      invocations. *)

From Stdlib Require DecimalString.
From Stdlib Require Import ZArith QArith Qround String List Bool Lia Lqa.
Import ListNotations.

Open Scope Z_scope.

(** ** Data model *)

Inductive ModelType := INSTANTMESH | SDXL.

Inductive ModelState :=
  UNLOADED | LOADING | READY | GENERATING | UNLOADING | ERROR.

Definition ModelState_eqb (a b : ModelState) : bool :=
  match a, b with
  | UNLOADED, UNLOADED | LOADING, LOADING | READY, READY
  | GENERATING, GENERATING | UNLOADING, UNLOADING | ERROR, ERROR => true
  | _, _ => false
  end.

(** The other model of the two. *)
Definition other (m : ModelType) : ModelType :=
  match m with INSTANTMESH => SDXL | SDXL => INSTANTMESH end.

(** An opaque pipeline object returned by [from_pretrained]. *)
Definition Handle := nat.

(** One entry of [self._models]:
    [{'state': ..., 'pipeline': ..., 'load_count': ...}]. *)
Record ModelInfo := mkInfo {
  state : ModelState;
  pipeline : option Handle;
  load_count : Z
}.

(** [self._models], a dict with exactly the two keys of [ModelType]. *)
Record Models := mkModels {
  instantmesh_info : ModelInfo;
  sdxl_info : ModelInfo
}.

Definition lookup (t : Models) (m : ModelType) : ModelInfo :=
  match m with
  | INSTANTMESH => instantmesh_info t
  | SDXL => sdxl_info t
  end.

Definition update (t : Models) (m : ModelType) (i : ModelInfo) : Models :=
  match m with
  | INSTANTMESH => mkModels i (sdxl_info t)
  | SDXL => mkModels (instantmesh_info t) i
  end.

(** The fields of a [ModelManager] instance. *)
Record ModelManager := mkManager {
  models : Models;                 (* self._models *)
  generation_lock : bool;          (* self._generation_lock, true = held *)
  model_lock : bool;               (* self._model_lock, true = held *)
  generation_count : Z;
  total_generation_time : Q;
  vram_buffer_gb : Q;
  restart_threshold : Z            (* self._restart_threshold *)
}.

Inductive OpName := GENERATE_MESH | GENERATE_IMAGE | GENERATE_FULL_PIPELINE.

Inductive Event :=
| EvModels (t : Models)            (* slot table right after a write *)
| EvAcquire (blocking got : bool)  (* _generation_lock.acquire(blocking) *)
| EvRelease                        (* _generation_lock.release() *)
| EvIntruder                       (* another caller took the free lock *)
| EvCall (op : OpName)             (* entry of a generation operation *)
| EvInvoke (m : ModelType)         (* the loaded pipeline object is called *)
| EvArtifact (path : string)       (* an output file is written *)
| EvBudget (ok : bool).            (* the answer of _check_vram_budget *)

Record World := mkWorld {
  mgr : ModelManager;
  tick : nat;
  trace : list Event
}.

(** ** Collaborators *)

(** What the torch queries of [get_vram_info] give. *)
Inductive CudaQuery :=
| QueryRaises (msg : string)
| NoCuda
| Cuda (total allocated reserved : Z) (name : string).

Record VramStats := mkStats {
  total_mb : Q; allocated_mb : Q; reserved_mb : Q; free_mb : Q;
  total_gb : Q; free_gb : Q; usage_pct : Q; device_name : string
}.

(** The dict returned by [get_vram_info]: key ['available'] and either the
    statistics or an optional ['error']. *)
Inductive VramInfo :=
| VramUnavailable (error : option string)
| VramAvailable (stats : VramStats).

(** The attributes of an InstantMesh result that [generate_mesh] probes. *)
Record MeshResult := mkMeshResult {
  meshes : option nat;       (* length of [result.meshes], when present *)
  has_mesh : bool;
  has_vertices : bool;
  has_faces : bool
}.

(** An SDXL result: the number of entries of [result.images]. *)
Record ImageResult := mkImageResult { images : nat }.

Record Env := mkEnv {
  required_vram_gb : ModelType -> Q;           (* CONFIG models.*.required_vram_gb *)
  cuda_query : nat -> CudaQuery;
  cuda_clear : nat -> option string;           (* Some msg: _clear_vram raises *)
  from_pretrained : ModelType -> nat -> string + Handle;
  call_instantmesh : nat -> string + MeshResult;
  call_sdxl : nat -> string + ImageResult;
  io : nat -> option string;                   (* PIL / file system call; Some msg: raises *)
  stat_size : nat -> string + Z;
  clock : nat -> Q;                            (* time.time() *)
  intrudes : nat -> bool
}.

(** ** Outcomes and the state monad *)

Inductive Outcome (A : Type) :=
| Ret (a : A)
| Raise (e : string)
| Blocked.
Arguments Ret {A} a.
Arguments Raise {A} e.
Arguments Blocked {A}.

Definition M (A : Type) := World -> Outcome A * World.

Definition ret {A} (a : A) : M A := fun w => (Ret a, w).

Definition raise {A} (e : string) : M A := fun w => (Raise e, w).

Definition bind {A B} (m : M A) (f : A -> M B) : M B :=
  fun w =>
    match m w with
    | (Ret a, w') => f a w'
    | (Raise e, w') => (Raise e, w')
    | (Blocked, w') => (Blocked, w')
    end.

Notation "x <- m ;; k" := (bind m (fun x => k))
  (at level 61, m at next level, right associativity).
Notation "m ;;; k" := (bind m (fun _ => k))
  (at level 61, right associativity).

(** [try: m  except Exception as e: h e]. *)
Definition try_except {A} (m : M A) (h : string -> M A) : M A :=
  fun w =>
    match m w with
    | (Raise e, w') => h e w'
    | r => r
    end.

(** [try: m  finally: f].  A parked thread does not reach [f]; an exception
    of [f] replaces the outcome of [m]. *)
Definition finally {A} (m : M A) (f : M unit) : M A :=
  fun w =>
    match m w with
    | (Blocked, w') => (Blocked, w')
    | (o, w') =>
        match f w' with
        | (Ret _, w'') => (o, w'')
        | (Raise e, w'') => (Raise e, w'')
        | (Blocked, w'') => (Blocked, w'')
        end
    end.

(** *** World updates *)

Definition with_mgr (f : ModelManager -> ModelManager) (w : World) : World :=
  mkWorld (f (mgr w)) (tick w) (trace w).

Definition log (e : Event) (w : World) : World :=
  mkWorld (mgr w) (tick w) (e :: trace w).

Definition bump (w : World) : World :=
  mkWorld (mgr w) (S (tick w)) (trace w).

Definition set_models (t : Models) (g : ModelManager) : ModelManager :=
  mkManager t (generation_lock g) (model_lock g) (generation_count g)
            (total_generation_time g) (vram_buffer_gb g) (restart_threshold g).

Definition set_generation_lock (b : bool) (g : ModelManager) : ModelManager :=
  mkManager (models g) b (model_lock g) (generation_count g)
            (total_generation_time g) (vram_buffer_gb g) (restart_threshold g).

Definition set_model_lock (b : bool) (g : ModelManager) : ModelManager :=
  mkManager (models g) (generation_lock g) b (generation_count g)
            (total_generation_time g) (vram_buffer_gb g) (restart_threshold g).

Definition set_stats (n : Z) (t : Q) (g : ModelManager) : ModelManager :=
  mkManager (models g) (generation_lock g) (model_lock g) n t
            (vram_buffer_gb g) (restart_threshold g).

(** A write to the slot table, followed by its snapshot in the log. *)
Definition write_models (t : Models) (w : World) : World :=
  log (EvModels t) (with_mgr (set_models t) w).

Definition emit (e : Event) : M unit := fun w => (Ret tt, log e w).

(** [info = self._models[m]] read. *)
Definition get_info (m : ModelType) : M ModelInfo :=
  fun w => (Ret (lookup (models (mgr w)) m), w).

(** [info['state'] = s]. *)
Definition set_state (m : ModelType) (s : ModelState) : M unit :=
  fun w =>
    let t := models (mgr w) in
    let i := lookup t m in
    (Ret tt, write_models (update t m (mkInfo s (pipeline i) (load_count i))) w).

(** [info['pipeline'] = p]. *)
Definition set_pipeline (m : ModelType) (p : option Handle) : M unit :=
  fun w =>
    let t := models (mgr w) in
    let i := lookup t m in
    (Ret tt, write_models (update t m (mkInfo (state i) p (load_count i))) w).

(** [info['load_count'] += 1]. *)
Definition incr_load_count (m : ModelType) : M unit :=
  fun w =>
    let t := models (mgr w) in
    let i := lookup t m in
    (Ret tt, write_models (update t m (mkInfo (state i) (pipeline i) (load_count i + 1))) w).

Section Manager.

Variable env : Env.

(** *** External calls *)

(** A call whose result is read off the oracle [f]. *)
Definition ext {A} (f : nat -> A) : M A :=
  fun w => (Ret (f (tick w)), bump w).

(** A call that returns nothing and may raise. *)
Definition ext_unit (f : nat -> option string) : M unit :=
  fun w =>
    match f (tick w) with
    | Some e => (Raise e, bump w)
    | None => (Ret tt, bump w)
    end.

(** A call that returns a value or raises. *)
Definition ext_result {A} (f : nat -> string + A) : M A :=
  fun w =>
    match f (tick w) with
    | inl e => (Raise e, bump w)
    | inr a => (Ret a, bump w)
    end.

Definition time_time : M Q := ext (clock env).

Definition io_call : M unit := ext_unit (io env).

(** *** The two locks *)

(** [self._generation_lock.acquire(blocking=blocking)]: on a held lock the
    non-blocking form returns False and the blocking form parks the caller.
    The model ends the caller's run there ([Blocked]): what the caller does
    once the lock is handed to it is not modelled, so a statement about a
    returned result speaks of runs in which the caller did not wait. *)
Definition acquire_generation (blocking : bool) : M bool :=
  fun w =>
    if generation_lock (mgr w) then
      if blocking then (Blocked, log (EvAcquire true false) w)
      else (Ret false, log (EvAcquire false false) w)
    else
      (Ret true,
       log (EvAcquire blocking true) (with_mgr (set_generation_lock true) w)).

(** [self._generation_lock.release()]: RuntimeError on a lock that is not
    held.  Once it is free another caller may take it. *)
Definition release_generation : M unit :=
  fun w =>
    if generation_lock (mgr w) then
      let w1 := log EvRelease (with_mgr (set_generation_lock false) w) in
      if intrudes env (tick w) then
        (Ret tt, bump (log EvIntruder (with_mgr (set_generation_lock true) w1)))
      else (Ret tt, bump w1)
    else (Raise "release unlocked lock", w).

(** [with self._model_lock: body]. *)
Definition with_model_lock {A} (body : M A) : M A :=
  fun w =>
    if model_lock (mgr w) then (Blocked, w)
    else
      finally body (fun w' => (Ret tt, with_mgr (set_model_lock false) w'))
              (with_mgr (set_model_lock true) w).

(** ** Resource probe and admission *)

Definition MiB : Q := inject_Z (1024 * 1024).
Definition GiB : Q := inject_Z (1024 ^ 3).

Definition vram_of_query (q : CudaQuery) : VramInfo :=
  match q with
  | QueryRaises msg => VramUnavailable (Some msg)
  | NoCuda => VramUnavailable None
  | Cuda total allocated reserved name =>
      let free := total - reserved in
      VramAvailable
        (mkStats (inject_Z total / MiB) (inject_Z allocated / MiB)
                 (inject_Z reserved / MiB) (inject_Z free / MiB)
                 (inject_Z total / GiB) (inject_Z free / GiB)
                 (if 0 <? total
                  then (inject_Z reserved / inject_Z total) * inject_Z 100
                  else 0%Q)
                 name)
  end.

Definition get_vram_info : M VramInfo :=
  ext (fun n => vram_of_query (cuda_query env n)).

Definition _clear_vram : M unit := ext_unit (cuda_clear env).

(** [x < y] on rationals, as a boolean. *)
Definition Qltb (x y : Q) : bool := negb (Qle_bool y x).

(** The decision of [_check_vram_budget] on a probe result. *)
Definition budget_ok (buffer_gb required_gb : Q) (vram : VramInfo) : bool :=
  match vram with
  | VramUnavailable _ => true
  | VramAvailable s =>
      let needed := (required_gb + buffer_gb)%Q in
      if Qltb (free_gb s) needed then false else true
  end.

Definition _check_vram_budget (required_gb : Q) : M bool :=
  vram <- get_vram_info ;;
  fun w =>
    let ok := budget_ok (vram_buffer_gb (mgr w)) required_gb vram in
    (Ret ok, log (EvBudget ok) w).

(** ** Status *)

Record ModelStatus := mkModelStatus {
  status_state : ModelState;
  status_load_count : Z
}.

Record Status := mkStatus {
  status_models : ModelType -> ModelStatus;
  status_generation_count : Z;
  avg_generation_time : Q;
  status_vram : VramInfo;
  needs_restart : bool
}.

Definition get_status : M Status :=
  fun w =>
    let g := mgr w in
    let states := fun m =>
      mkModelStatus (state (lookup (models g) m)) (load_count (lookup (models g) m)) in
    (vram <- get_vram_info ;;
     ret (mkStatus states (generation_count g)
                   (if 0 <? generation_count g
                    then (total_generation_time g / inject_Z (generation_count g))%Q
                    else 0%Q)
                   vram
                   (restart_threshold g <=? generation_count g))) w.

(** ** Unload *)

(** [del info['pipeline']] and the assignment of None after it are one
    write. *)
Definition _unload_model (m : ModelType) : M unit :=
  info <- get_info m ;;
  if ModelState_eqb (state info) UNLOADED then ret tt
  else
    set_state m UNLOADING ;;;
    try_except
      (info <- get_info m ;;
       (match pipeline info with
        | Some _ => set_pipeline m None
        | None => ret tt
        end) ;;;
       _clear_vram ;;;
       set_state m UNLOADED)
      (fun _ =>
         set_pipeline m None ;;;
         set_state m ERROR ;;;
         _clear_vram).

(** [for model_type in ModelType], in the order of the enum. *)
Definition _unload_all : M unit :=
  _unload_model INSTANTMESH ;;;
  _unload_model SDXL.

(** ** Load *)

(** The body shared by [load_instantmesh] and [load_sdxl].  The statements
    of the try block before the first write to [info] (from_pretrained, the
    scheduler, [.to('cuda')], attention slicing) are the one fallible step
    [from_pretrained env m]. *)
Definition load_model (m : ModelType) : M bool :=
  with_model_lock
    (info <- get_info m ;;
     if ModelState_eqb (state info) READY then ret true
     else
       _unload_all ;;;
       _clear_vram ;;;
       ok <- _check_vram_budget (required_vram_gb env m) ;;
       if negb ok then ret false
       else
         set_state m LOADING ;;;
         try_except
           (p <- ext_result (from_pretrained env m) ;;
            set_pipeline m (Some p) ;;;
            set_state m READY ;;;
            incr_load_count m ;;;
            _ <- get_vram_info ;;
            ret true)
           (fun _ =>
              set_state m ERROR ;;;
              set_pipeline m None ;;;
              _clear_vram ;;;
              ret false)).

Definition load_instantmesh : M bool := load_model INSTANTMESH.

Definition load_sdxl : M bool := load_model SDXL.

Definition shutdown : M unit := with_model_lock _unload_all.

(** ** Generation *)

(** [image_data]: a path or a PIL image object. *)
Inductive ImageData :=
| ImagePath (path : string)
| ImageObject (id : nat).

(** The result dict of [generate_mesh] and [generate_image]; a key that is
    absent from the dict is None. *)
Record GenResult := mkGenResult {
  success : bool;
  error : option string;
  output_path : option string;
  generation_time : option Q;
  width : option Z;
  height : option Z;
  vram_after : option VramInfo;
  file_size_bytes : option Z
}.

Definition failure (msg : string) : GenResult :=
  mkGenResult false (Some msg) None None None None None None.

(** Python [round(x)]: to the nearest integer, ties to the even one. *)
Definition round_half_even (q : Q) : Z :=
  let f := Qfloor q in
  match (q - inject_Z f ?= 1 # 2)%Q with
  | Lt => f
  | Gt => f + 1
  | Eq => if Z.even f then f else f + 1
  end.

(** [round(x, 2)]. *)
Definition round2 (q : Q) : Q :=
  (inject_Z (round_half_even (q * inject_Z 100)) / inject_Z 100)%Q.

(** [self.generation_count += 1; self.total_generation_time += elapsed]. *)
Definition add_generation (elapsed : Q) : M unit :=
  fun w =>
    (Ret tt,
     with_mgr (fun g => set_stats (generation_count g + 1)
                                  (total_generation_time g + elapsed)%Q g) w).

(** [pipeline = info['pipeline']; result = pipeline(...)]: calling None is
    a TypeError. *)
Definition invoke {A} (m : ModelType) (f : nat -> string + A) : M A :=
  info <- get_info m ;;
  match pipeline info with
  | None => raise "'NoneType' object is not callable"
  | Some _ => emit (EvInvoke m) ;;; ext_result f
  end.

(** [obj.export(path)] / [image.save(path, 'PNG')]. *)
Definition write_artifact (path : string) : M unit :=
  io_call ;;; emit (EvArtifact path).

(** The except handler shared by the two generation operations. *)
Definition generation_failed (m : ModelType) (e : string) : M GenResult :=
  info <- get_info m ;;
  set_state m (match pipeline info with Some _ => READY | None => ERROR end) ;;;
  ret (failure e).

Definition busy : string := "Another generation is in progress".

Definition generate_mesh (image_data : ImageData) (output_path : string)
  : M GenResult :=
  emit (EvCall GENERATE_MESH) ;;;
  got <- acquire_generation false ;;
  if negb got then ret (failure busy)
  else
    finally
      (try_except
         (info <- get_info INSTANTMESH ;;
          loaded <- (if negb (ModelState_eqb (state info) READY)
                     then load_instantmesh else ret true) ;;
          if negb loaded then ret (failure "Failed to load InstantMesh")
          else
            set_state INSTANTMESH GENERATING ;;;
            start <- time_time ;;
            io_call ;;;                     (* Image.open / convert('RGB') *)
            io_call ;;;                     (* image.resize *)
            result <- invoke INSTANTMESH (call_instantmesh env) ;;
            io_call ;;;                     (* output_path.parent.mkdir *)
            exported <-
              (if match meshes result with Some n => negb (Nat.eqb n 0) | None => false end
               then write_artifact output_path ;;; ret true
               else if has_mesh result
               then write_artifact output_path ;;; ret true
               else
                 io_call ;;;                (* import trimesh *)
                 if has_vertices result && has_faces result
                 then io_call ;;;           (* trimesh.Trimesh(...) *)
                      write_artifact output_path ;;; ret true
                 else ret false) ;;
            if negb exported
            then ret (failure "Model output format not recognized")
            else
              stop <- time_time ;;
              let elapsed := (stop - start)%Q in
              add_generation elapsed ;;;
              set_state INSTANTMESH READY ;;;
              _clear_vram ;;;
              vram <- get_vram_info ;;
              size <- ext_result (stat_size env) ;;
              ret (mkGenResult true None (Some output_path)
                               (Some (round2 elapsed)) None None
                               (Some vram) (Some size)))
         (generation_failed INSTANTMESH))
      release_generation.

Definition generate_image (prompt output_path : string) (width height steps : Z)
  : M GenResult :=
  emit (EvCall GENERATE_IMAGE) ;;;
  got <- acquire_generation false ;;
  if negb got then ret (failure busy)
  else
    finally
      (try_except
         (info <- get_info SDXL ;;
          loaded <- (if negb (ModelState_eqb (state info) READY)
                     then load_sdxl else ret true) ;;
          if negb loaded then ret (failure "Failed to load SDXL")
          else
            set_state SDXL GENERATING ;;;
            start <- time_time ;;
            result <- invoke SDXL (call_sdxl env) ;;
            (if Nat.eqb (images result) 0      (* result.images[0] *)
             then raise "list index out of range" else ret tt) ;;;
            io_call ;;;                     (* output_path.parent.mkdir *)
            write_artifact output_path ;;;
            stop <- time_time ;;
            let elapsed := (stop - start)%Q in
            add_generation elapsed ;;;
            set_state SDXL READY ;;;
            _clear_vram ;;;
            vram <- get_vram_info ;;
            size <- ext_result (stat_size env) ;;
            ret (mkGenResult true None (Some output_path)
                             (Some (round2 elapsed)) (Some width) (Some height)
                             (Some vram) (Some size)))
         (generation_failed SDXL))
      release_generation.

(** ** Two-stage pipeline *)

(** The result dict of [generate_full_pipeline]. *)
Record PipelineResult := mkPipelineResult {
  pipeline_success : bool;
  pipeline_error : option string;
  pipeline_stage : option string;
  stages_image : option GenResult;
  stages_mesh : option GenResult;
  total_time : option Q;
  image_path : option string;
  mesh_path : option string;
  pipeline_vram_after : option VramInfo
}.

(** [output_dir / name], as a string. *)
Definition path_join (dir name : string) : string :=
  (dir ++ "/" ++ name)%string.

(** [str(stage.get("error"))] inside the f-string. *)
Definition error_text (r : GenResult) : string :=
  match error r with Some e => e | None => "None"%string end.

Definition generate_full_pipeline (prompt output_dir : string) (steps : Z)
  : M PipelineResult :=
  emit (EvCall GENERATE_FULL_PIPELINE) ;;;
  got <- acquire_generation false ;;
  if negb got
  then ret (mkPipelineResult false (Some busy) (Some "blocked"%string)
                             None None None None None None)
  else
    finally
      (try_except
         (io_call ;;;                       (* output_dir.mkdir *)
          total_start <- time_time ;;
          let image_path := path_join output_dir "generated_image.png" in
          release_generation ;;;
          stage1 <- generate_image prompt image_path 1024 1024 steps ;;
          _ <- acquire_generation true ;;
          if negb (success stage1)
          then ret (mkPipelineResult false
                      (Some ("Image generation failed: " ++ error_text stage1)%string)
                      (Some "image"%string) (Some stage1) None None None None None)
          else
            let mesh_path := path_join output_dir "generated_mesh.glb" in
            release_generation ;;;
            stage2 <- generate_mesh (ImagePath image_path) mesh_path ;;
            _ <- acquire_generation true ;;
            if negb (success stage2)
            then ret (mkPipelineResult false
                        (Some ("Mesh generation failed: " ++ error_text stage2)%string)
                        (Some "mesh"%string) (Some stage1) (Some stage2)
                        None None None None)
            else
              total_stop <- time_time ;;
              vram <- get_vram_info ;;
              ret (mkPipelineResult true None None (Some stage1) (Some stage2)
                     (Some (round2 (total_stop - total_start)))
                     (Some image_path) (Some mesh_path) (Some vram)))
         (fun e => ret (mkPipelineResult false (Some e) (Some "unknown"%string)
                                         None None None None None None)))
      (try_except release_generation (fun _ => ret tt)).

(** ** Runs *)

(** The calls a client of the manager can make. *)
Inductive Op :=
| OpLoadInstantmesh
| OpLoadSdxl
| OpUnloadModel (m : ModelType)
| OpUnloadAll
| OpShutdown
| OpGenerateMesh (image_data : ImageData) (output_path : string)
| OpGenerateImage (prompt output_path : string) (width height steps : Z)
| OpGenerateFullPipeline (prompt output_dir : string) (steps : Z)
| OpGetStatus.

(** The world after an operation, whatever it returned or raised. *)
Definition run_op (op : Op) (w : World) : World :=
  match op with
  | OpLoadInstantmesh => snd (load_instantmesh w)
  | OpLoadSdxl => snd (load_sdxl w)
  | OpUnloadModel m => snd (_unload_model m w)
  | OpUnloadAll => snd (_unload_all w)
  | OpShutdown => snd (shutdown w)
  | OpGenerateMesh i o => snd (generate_mesh i o w)
  | OpGenerateImage p o wd h s => snd (generate_image p o wd h s w)
  | OpGenerateFullPipeline p d s => snd (generate_full_pipeline p d s w)
  | OpGetStatus => snd (get_status w)
  end.

Definition run_ops (ops : list Op) (w : World) : World :=
  fold_left (fun w op => run_op op w) ops w.

End Manager.

(** [ModelManager.__init__]: both slots unloaded, locks free, counters zero. *)
Definition unloaded_info : ModelInfo := mkInfo UNLOADED None 0.

Definition init_models : Models := mkModels unloaded_info unloaded_info.

Definition init_manager (buffer_gb : Q) (threshold : Z) : ModelManager :=
  mkManager init_models false false 0 0%Q buffer_gb threshold.

Definition init_world (buffer_gb : Q) (threshold : Z) : World :=
  mkWorld (init_manager buffer_gb threshold) 0 [EvModels init_models].

(** * The inference server

    A shallow embedding of the endpoint functions of
    [src/python/inference_server.py] that call the model manager, and of
    [cleanup_temp_files].

    Modelling conventions, besides those of the manager.
    - An endpoint is the body of its function, run after FastAPI has bound
      the form fields to the parameters; a [job_id] that was not sent is
      [None].
    - [raise HTTPException(code, detail)] is the value [inl] of the endpoint:
      the status code and detail that FastAPI answers with.  The clause
      [except HTTPException: raise] lets it through, so only other
      exceptions reach the handler [except Exception].  An exception that
      leaves the endpoint function is the outcome [Raise].
    - A [str] whose characters are counted or classified, the prompt, is a
      [text]: the list of its Unicode code points.  A [str] that is only
      compared with ASCII literals, concatenated and passed on (job id,
      content type, path, message) is a [string], the UTF-8 text of the
      [str].  The manager's model keeps a prompt as a [string] and never
      looks into it; the server hands it the UTF-8 text [utf8] of the prompt.
    - [truediv a b] is [str(a / b)] of pathlib, a parameter of the server:
      the endpoints do not look inside a path.  [posix_truediv] is what
      pathlib computes on a POSIX system.
    - The constructors [FileResponse(...)] and [JSONResponse(...)] are calls
      into the web framework that may raise, with the oracles
      [FileResponse_init] and [JSONResponse_init].  Header values are kept as
      numbers, not as their [str].
    - [uuid4] is the oracle of [str(uuid.uuid4())], indexed like the other
      external calls.
    - The directory TEMP_DIR is what [exists()] and [iterdir()] give for it;
      an entry carries what [is_file()], [stat()] and [unlink()] do on it. *)

(** A Python [str], as the list of its code points. *)
Definition text := list N.


(** The UTF-8 bytes of one code point. *)
Definition utf8_char (c : N) : list N :=
  (if c <? 0x80 then [c]
   else if c <? 0x800 then [0xC0 + c / 0x40; 0x80 + c mod 0x40]
   else if c <? 0x10000
   then [0xE0 + c / 0x1000; 0x80 + (c / 0x40) mod 0x40; 0x80 + c mod 0x40]
   else [0xF0 + c / 0x40000; 0x80 + (c / 0x1000) mod 0x40;
         0x80 + (c / 0x40) mod 0x40; 0x80 + c mod 0x40])%N.

(** The UTF-8 text of a [str]. *)
Definition utf8 (s : text) : string :=
  string_of_list_ascii (map Ascii.ascii_of_N (flat_map utf8_char s)).

(** [str.isspace] on one character: the code points that CPython takes for
    white space. *)
Definition isspace (c : N) : bool :=
  (((0x09 <=? c) && (c <=? 0x0D)) || ((0x1C <=? c) && (c <=? 0x20))
   || (c =? 0x85) || (c =? 0xA0) || (c =? 0x1680)
   || ((0x2000 <=? c) && (c <=? 0x200A)) || (c =? 0x2028) || (c =? 0x2029)
   || (c =? 0x202F) || (c =? 0x205F) || (c =? 0x3000))%N.

(** [s.lstrip()]. *)
Fixpoint lstrip (s : text) : text :=
  match s with
  | [] => []
  | c :: s' => if isspace c then lstrip s' else s
  end.

(** [s.rstrip()]. *)
Fixpoint rstrip (s : text) : text :=
  match s with
  | [] => []
  | c :: s' =>
      match rstrip s' with
      | [] => if isspace c then [] else [c]
      | r => c :: r
      end
  end.

(** [s.strip()]. *)
Definition strip (s : text) : text := rstrip (lstrip s).

(** [len(s)]. *)
Definition len (s : text) : Z := Z.of_nat (List.length s).

(** [not s] on a [str]. *)
Definition is_empty (s : string) : bool :=
  match s with EmptyString => true | _ => false end.



(** Python [round(x, 1)]. *)
Definition round1 (q : Q) : Q :=
  (inject_Z (round_half_even (q * inject_Z 10)) / inject_Z 10)%Q.

(** ** pathlib on a POSIX system *)

(** The character [/]. *)
Definition slash : Ascii.ascii := Ascii.ascii_of_nat 47.

(** [s.split('/')]. *)
Fixpoint split_slash (s : string) : list string :=
  match s with
  | EmptyString => [EmptyString]
  | String c s' =>
      if Ascii.eqb c slash then EmptyString :: split_slash s'
      else match split_slash s' with
           | [] => [String c EmptyString]
           | x :: xs => String c x :: xs
           end
  end.

(** The number of slashes a string starts with. *)
Fixpoint leading_slashes (s : string) : nat :=
  match s with
  | String c s' => if Ascii.eqb c slash then S (leading_slashes s') else O
  | EmptyString => O
  end.

(** The root of a path: none, [/], or [//] for exactly two leading
    slashes. *)
Definition root_of (s : string) : string :=
  match leading_slashes s with
  | O => EmptyString
  | 2%nat => "//"
  | _ => "/"
  end.

(** The components of a path: empty ones and [.] are dropped. *)
Definition parts_of (s : string) : list string :=
  filter (fun x => negb (is_empty x) && negb (String.eqb x "."))
         (split_slash s).

(** [str(PurePosixPath(a) / b)]. *)
Definition posix_truediv (a b : string) : string :=
  let root := if is_empty (root_of b) then root_of a else root_of b in
  let parts := if is_empty (root_of b) then parts_of a ++ parts_of b else parts_of b in
  let s := (root ++ String.concat "/" parts)%string in
  if is_empty s then "."%string else s.

(** The singleton [model_manager] that the server imports: its methods. *)
Module model_manager.
Abbreviation get_vram_info := get_vram_info (only parsing).
Abbreviation get_status := get_status (only parsing).
Abbreviation generate_image := generate_image (only parsing).
Abbreviation generate_mesh := generate_mesh (only parsing).
Abbreviation generate_full_pipeline := generate_full_pipeline (only parsing).
End model_manager.

Module inference_server.

Record HTTPException := mkHTTPException {
  status_code : Z;
  detail : string
}.

(** [FileResponse(path, media_type=..., filename=..., headers={...})] with
    the three headers X-Job-Id, X-Generation-Time and X-File-Size. *)
Record FileResponse := mkFileResponse {
  path : string;
  media_type : string;
  filename : string;
  x_job_id : string;
  x_generation_time : Q;
  x_file_size : Z
}.


(** The dict that [/health] returns. *)
Record Health := mkHealth {
  health_status : string;
  gpu_available : bool;
  gpu_name : string;
  vram_total_gb : Q;
  vram_free_gb : Q;
  health_models : ModelType -> ModelStatus;
  health_generation_count : Z
}.

(** What the endpoint uses of the uploaded file: [image.content_type] and
    the bytes that [await image.read()] gives. *)
Record UploadFile := mkUploadFile {
  content_type : option string;
  contents : list Byte.byte
}.

(** A PIL image as [PILImage.open] returns it: the object and its [size],
    (width, height). *)
Record PILImage := mkPILImage {
  image_id : nat;
  size : Z * Z
}.

(** An entry [f] of [TEMP_DIR.iterdir()], with what the calls on it do:
    each gives its answer or ([inl], [Some]) the exception it raises. *)
Record DirEntry := mkDirEntry {
  entry_name : string;
  is_file : string + bool;        (* f.is_file() *)
  st_mtime : string + Q;          (* f.stat().st_mtime *)
  unlink : option string          (* f.unlink() *)
}.

(** The directory TEMP_DIR: what [TEMP_DIR.exists()] answers and the entries
    that [TEMP_DIR.iterdir()] yields, or the exception that the call
    raises. *)
Record TempDir := mkTempDir {
  dir_exists : string + bool;
  iterdir : string + list DirEntry
}.

Section Server.

Variable env : Env.
Variable uuid4 : nat -> string.
Variable OUTPUT_DIR : string.
Variable truediv : string -> string -> string.       (* str(a / b) *)
Variable PILImage_open : nat -> string + PILImage.   (* PILImage.open(temp_image) *)
Variable temp_exists : nat -> bool.                  (* temp_image.exists() *)
Variable FileResponse_init : nat -> option string.   (* Some msg: FileResponse(...) raises *)
Variable JSONResponse_init : nat -> option string.   (* Some msg: JSONResponse(...) raises *)

(** [str(uuid.uuid4())[:8]]. *)
Definition generate_job_id : M string :=
  ext (fun n => substring 0 8 (uuid4 n)).

(** [if job_id is None: job_id = generate_job_id()]. *)
Definition job_id_or_new (job_id : option string) : M string :=
  match job_id with
  | None => generate_job_id
  | Some j => ret j
  end.

(** [result['key']]: a KeyError when the key is absent. *)
Definition getitem {A} (key : string) (v : option A) : M A :=
  match v with
  | Some a => ret a
  | None => raise ("'" ++ key ++ "'")%string
  end.

(** The two prompt checks that [/generate/image] and [/generate/full]
    share: the answer is the detail of the 400, if any. *)
Definition prompt_error (prompt : text) : option string :=
  if match prompt with [] => true | _ => false end || (len (strip prompt) <? 3)
  then Some "Prompt must be at least 3 characters"%string
  else if 2000 <? len prompt
  then Some "Prompt must be under 2000 characters"%string
  else None.

Definition health : M Health :=
  vram <- model_manager.get_vram_info env ;;
  status <- model_manager.get_status env ;;
  ret (mkHealth "healthy"
         (match vram with VramAvailable _ => true | VramUnavailable _ => false end)
         (match vram with VramAvailable s => device_name s | VramUnavailable _ => "N/A"%string end)
         (round1 (match vram with VramAvailable s => total_gb s | VramUnavailable _ => 0%Q end))
         (round1 (match vram with VramAvailable s => free_gb s | VramUnavailable _ => 0%Q end))
         (status_models status)
         (status_generation_count status)).

Definition status : M Status := model_manager.get_status env.

Definition generate_image (prompt : text) (width height steps : Z)
    (job_id : option string) : M (HTTPException + FileResponse) :=
  job_id <- job_id_or_new job_id ;;
  if (width <? 512) || (2048 <? width) || (height <? 512) || (2048 <? height)
  then ret (inl (mkHTTPException 400 "Dimensions must be between 512 and 2048"))
  else if (steps <? 10) || (100 <? steps)
  then ret (inl (mkHTTPException 400 "Steps must be between 10 and 100"))
  else
    match prompt_error prompt with
    | Some msg => ret (inl (mkHTTPException 400 msg))
    | None =>
        let output_path := truediv OUTPUT_DIR (job_id ++ ".png") in
        try_except
          (result <- model_manager.generate_image env (utf8 (strip prompt)) output_path
                       width height steps ;;
           if negb (success result)
           then ret (inl (mkHTTPException 500
                            ("Generation failed: " ++ error_text result)%string))
           else
             t <- getitem "generation_time" (generation_time result) ;;
             n <- getitem "file_size_bytes" (file_size_bytes result) ;;
             ext_unit FileResponse_init ;;;
             ret (inr (mkFileResponse output_path "image/png" (job_id ++ ".png")
                                      job_id t n)))
          (fun e => ret (inl (mkHTTPException 500 ("Internal error: " ++ e)%string)))
    end.

(** [str(x)] of an optional string: ['None'] when it is absent. *)
Definition str_or_None (x : option string) : string :=
  match x with Some s => s | None => "None"%string end.


(** [str(n)] of an int. *)
Definition str (n : Z) : string := DecimalString.NilZero.string_of_int (Z.to_int n).

(** [str(size)] of a pair of ints. *)
Definition str_size (size : Z * Z) : string :=
  ("(" ++ str (fst size) ++ ", " ++ str (snd size) ++ ")")%string.

(** [image.content_type and image.content_type not in ('image/png',
    'image/jpeg', 'image/webp')]. *)
Definition unsupported_type (content_type : option string) : bool :=
  match content_type with
  | None => false
  | Some ct =>
      negb (is_empty ct)
      && negb (existsb (String.eqb ct) ["image/png"; "image/jpeg"; "image/webp"]%string)
  end.

Definition generate_mesh (image : UploadFile) (job_id : option string)
  : M (HTTPException + FileResponse) :=
  job_id <- job_id_or_new job_id ;;
  if unsupported_type (content_type image)
  then ret (inl (mkHTTPException 400
                   ("Unsupported image type: " ++ str_or_None (content_type image)
                    ++ ". Use PNG, JPG, or WebP.")%string))
  else
    io_call env ;;;                           (* contents = await image.read() *)
    if 20 * 1024 * 1024 <? Z.of_nat (List.length (contents image))
    then ret (inl (mkHTTPException 400 "Image too large. Maximum 20 MB."))
    else
      io_call env ;;;                         (* temp_image.write_bytes(contents) *)
      let output_path := truediv OUTPUT_DIR (job_id ++ ".glb") in
      finally
        (try_except
           (img <- ext_result PILImage_open ;;
            if 4096 <? Z.max (fst (size img)) (snd (size img))
            then ret (inl (mkHTTPException 400
                             ("Image too large: " ++ str_size (size img)
                              ++ ". Maximum 4096x4096.")%string))
            else
              result <- model_manager.generate_mesh env (ImageObject (image_id img))
                          output_path ;;
              if negb (success result)
              then ret (inl (mkHTTPException 500
                               ("Generation failed: " ++ error_text result)%string))
              else
                t <- getitem "generation_time" (generation_time result) ;;
                n <- getitem "file_size_bytes" (file_size_bytes result) ;;
                ext_unit FileResponse_init ;;;
                ret (inr (mkFileResponse output_path "model/gltf-binary"
                                         (job_id ++ ".glb") job_id t n)))
           (fun e => ret (inl (mkHTTPException 500 ("Internal error: " ++ e)%string))))
        (present <- ext temp_exists ;;
         if present then io_call env else ret tt).


(** The loop of [cleanup_temp_files] over the entries that [iterdir()]
    yields, with the local variable [count]: the exception that ended the
    loop, if any, the entries left in the directory, and the final
    [count]. *)
Fixpoint cleanup_loop (cutoff : Q) (entries : list DirEntry) (count : Z)
  : option string * list DirEntry * Z :=
  match entries with
  | [] => (None, [], count)
  | f :: rest =>
      match is_file f with
      | inl e => (Some e, entries, count)                 (* f.is_file() raises *)
      | inr true =>
          match st_mtime f with
          | inl e => (Some e, entries, count)             (* f.stat() raises *)
          | inr mtime =>
              if Qltb mtime cutoff
              then
                match unlink f with
                | Some e => (Some e, entries, count)      (* f.unlink() raises *)
                | None => cleanup_loop cutoff rest (count + 1)
                end
              else
                let '(exc, kept, n) := cleanup_loop cutoff rest count in
                (exc, f :: kept, n)
          end
      | inr false =>
          let '(exc, kept, n) := cleanup_loop cutoff rest count in
          (exc, f :: kept, n)
      end
  end.

(** [cleanup_temp_files(max_age_hours)] run on the directory [temp_dir]:
    it returns [None] or raises, and leaves the directory as the second
    component says. *)
Definition cleanup_temp_files (max_age_hours : Q) (temp_dir : TempDir) (w : World)
  : (Outcome unit * World) * TempDir :=
  match dir_exists temp_dir with
  | inl e => ((Raise e, w), temp_dir)
  | inr false => ((Ret tt, w), temp_dir)
  | inr true =>
      match time_time env w with
      | (Ret now, w1) =>
          let cutoff := (now - max_age_hours * inject_Z 3600)%Q in
          match iterdir temp_dir with
          | inl e => ((Raise e, w1), temp_dir)
          | inr entries =>
              let '(exc, kept, count) := cleanup_loop cutoff entries 0 in
              ((match exc with Some e => Raise e | None => Ret tt end, w1),
               mkTempDir (inr true) (inr kept))
          end
      | (Raise e, w1) => ((Raise e, w1), temp_dir)
      | (Blocked, w1) => ((Blocked, w1), temp_dir)
      end
  end.

End Server.

End inference_server.

(** * Properties

    The predicates the statements below are made of, and the concrete
    machines and worlds they are tried on. *)

(** [wp m Q w]: running [m] from [w] ends in an outcome and a world that
    satisfy [Q]. *)
Definition wp {A} (m : M A) (Q : Outcome A -> World -> Prop) (w : World) : Prop :=
  Q (fst (m w)) (snd (m w)).

(** The states in which a model occupies the GPU. *)
Definition is_resident (s : ModelState) : bool :=
  match s with READY | GENERATING => true | _ => false end.

(** Invariant I1 on a table: not both slots are resident. *)
Definition single_residency (t : Models) : bool :=
  negb (is_resident (state (instantmesh_info t)) && is_resident (state (sdxl_info t))).

(** The coupling that holds at every write: a resident slot has a handle,
    an UNLOADED or ERROR slot has none; LOADING and UNLOADING allow both. *)
Definition handle_fits (i : ModelInfo) : bool :=
  match state i, pipeline i with
  | READY, None | GENERATING, None | UNLOADED, Some _ | ERROR, Some _ => false
  | _, _ => true
  end.

(** A slot between operations: READY or GENERATING with a handle, or
    UNLOADED or ERROR without one. *)
Definition settled_info (i : ModelInfo) : bool :=
  match state i, pipeline i with
  | READY, Some _ | GENERATING, Some _ | UNLOADED, None | ERROR, None => true
  | _, _ => false
  end.

Definition settled (t : Models) : bool :=
  settled_info (instantmesh_info t) && settled_info (sdxl_info t).

(** A slot that holds nothing: UNLOADED or ERROR, handle None. *)
Definition evicted (i : ModelInfo) : bool :=
  match state i, pipeline i with
  | UNLOADED, None | ERROR, None => true
  | _, _ => false
  end.

(** What every logged snapshot of the table satisfies. *)
Definition snapshot_ok (t : Models) : bool :=
  single_residency t && handle_fits (instantmesh_info t) && handle_fits (sdxl_info t).

Definition event_ok (e : Event) : bool :=
  match e with EvModels t => snapshot_ok t | _ => true end.

(** The log [tr] extends [tr0] by entries that all satisfy [P]. *)
Definition since (tr0 : list Event) (P : Event -> Prop) (tr : list Event) : Prop :=
  exists new, tr = new ++ tr0 /\ Forall P new.

(** Everything of the manager but the slot table is the same. *)
Definition same_frame (w w' : World) : Prop :=
  generation_lock (mgr w') = generation_lock (mgr w) /\
  model_lock (mgr w') = model_lock (mgr w) /\
  generation_count (mgr w') = generation_count (mgr w) /\
  total_generation_time (mgr w') = total_generation_time (mgr w) /\
  vram_buffer_gb (mgr w') = vram_buffer_gb (mgr w) /\
  restart_threshold (mgr w') = restart_threshold (mgr w).

(** A slot on its way out: untouched, being unloaded, or evicted. *)
Definition evicting_info (i0 i : ModelInfo) : Prop :=
  i = i0 \/
  (load_count i = load_count i0 /\
   ((state i = UNLOADING /\ (pipeline i = pipeline i0 \/ pipeline i = None)) \/
    evicted i = true)).

Definition evicting (t0 t : Models) : Prop :=
  forall x, evicting_info (lookup t0 x) (lookup t x).

(** What an unload from table [t0] may log. *)
Definition evict_event (t0 : Models) (e : Event) : Prop :=
  exists t, e = EvModels t /\ evicting t0 t.

(** A slot after eviction work has stopped: untouched or evicted. *)
Definition settling_info (i0 i : ModelInfo) : Prop :=
  i = i0 \/ (load_count i = load_count i0 /\ evicted i = true).

Definition settling (t0 t : Models) : Prop :=
  forall x, settling_info (lookup t0 x) (lookup t x).

(** A table between operations. *)
Definition table_ok (t : Models) : Prop :=
  settled t = true /\ single_residency t = true.

Definition trace_ok (w : World) : Prop :=
  Forall (fun e => event_ok e = true) (trace w).

(** A world as the operations leave it: every logged snapshot is fine, the
    table is settled with at most one resident slot, and no load is in
    progress.  The initial world is one and every operation keeps it
    ([init_good], [run_ops_good]). *)
Definition Good (w : World) : Prop :=
  trace_ok w /\ table_ok (models (mgr w)) /\ model_lock (mgr w) = false.

Definition loading_info (i : ModelInfo) : bool :=
  match state i, pipeline i with
  | LOADING, _ | READY, Some _ | ERROR, None => true
  | _, _ => false
  end.

(** A table in the loading phase of [m]: the other slot is evicted. *)
Definition loading (m : ModelType) (t : Models) : Prop :=
  evicted (lookup t (other m)) = true /\ loading_info (lookup t m) = true.

(** What a load of [m] from table [t0] may log. *)
Definition load_event (m : ModelType) (t0 : Models) (e : Event) : Prop :=
  (exists ok, e = EvBudget ok) \/
  (exists t, e = EvModels t /\ (evicting t0 t \/ loading m t)).

(** No other caller takes the generation lock. *)
Definition quiet (env : Env) : Prop := forall n, intrudes env n = false.

(** What a generation operation guarantees, from world [w] to world [w']. *)
Definition gen_post (env : Env) (m : ModelType) (w : World)
    (o : Outcome GenResult) (w' : World) : Prop :=
  Good w' /\
  (generation_lock (mgr w) = false ->
   state (lookup (models (mgr w')) m) = GENERATING ->
   m = INSTANTMESH /\ o = Ret (failure "Model output format not recognized")) /\
  (exists r, o = Ret r /\
     (success r = true ->
      generation_count (mgr w') = generation_count (mgr w) + 1)) /\
  (generation_count (mgr w') = generation_count (mgr w) \/
   generation_count (mgr w') = generation_count (mgr w) + 1) /\
  restart_threshold (mgr w') = restart_threshold (mgr w) /\
  vram_buffer_gb (mgr w') = vram_buffer_gb (mgr w) /\
  (generation_lock (mgr w) = false -> quiet env -> generation_lock (mgr w') = false).

(** One for a stage result that reports success. *)
Definition stage_ok (r : option GenResult) : Z :=
  match r with
  | Some r => if success r then 1 else 0
  | None => 0
  end.

(** The successful stages that a pipeline outcome reports. *)
Definition reported (o : Outcome PipelineResult) : Z :=
  match o with
  | Ret res => stage_ok (stages_image res) + stage_ok (stages_mesh res)
  | _ => 0
  end.

(** What the pipeline guarantees, from world [w] to world [w']. *)
Definition pipeline_post (w : World) (o : Outcome PipelineResult) (w' : World) : Prop :=
  Good w' /\
  (forall e, o <> Raise e) /\
  generation_count (mgr w) + reported o <= generation_count (mgr w') /\
  restart_threshold (mgr w') = restart_threshold (mgr w) /\
  vram_buffer_gb (mgr w') = vram_buffer_gb (mgr w).

(** Events that only the lifecycle operations log. *)
Definition table_event (e : Event) : Prop :=
  match e with EvModels _ | EvBudget _ => True | _ => False end.

(** Events that [generate_image] may log when it writes to [path]. *)
Definition image_event (path : string) (e : Event) : Prop :=
  match e with
  | EvModels _ | EvBudget _ | EvRelease | EvIntruder
  | EvAcquire false _ | EvCall GENERATE_IMAGE | EvInvoke SDXL => True
  | EvArtifact p => p = path
  | _ => False
  end.

(** Events that [generate_mesh] may log when it writes to [path]. *)
Definition mesh_event (path : string) (e : Event) : Prop :=
  match e with
  | EvModels _ | EvBudget _ | EvRelease | EvIntruder
  | EvAcquire false _ | EvCall GENERATE_MESH | EvInvoke INSTANTMESH => True
  | EvArtifact p => p = path
  | _ => False
  end.

(** The call returned a value. *)
Definition ok_result {A} (r : string + A) : bool :=
  match r with inr _ => true | inl _ => false end.

(** [generate_mesh] can export this result. *)
Definition recognized (r : MeshResult) : bool :=
  match meshes r with Some n => negb (Nat.eqb n 0) | None => false end
  || has_mesh r || (has_vertices r && has_faces r).

(** No collaborator fails, the backends give usable results, and the probe
    admits both models under the buffer [buffer_gb]. *)
Definition backends_succeed (env : Env) (buffer_gb : Q) : Prop :=
  (forall n, cuda_clear env n = None) /\
  (forall n, io env n = None) /\
  (forall m n, ok_result (from_pretrained env m n) = true) /\
  (forall n, match call_sdxl env n with
             | inr r => negb (Nat.eqb (images r) 0)
             | inl _ => false
             end = true) /\
  (forall n, match call_instantmesh env n with
             | inr r => recognized r
             | inl _ => false
             end = true) /\
  (forall n, ok_result (stat_size env n) = true) /\
  (forall m n, budget_ok buffer_gb (required_vram_gb env m)
                         (vram_of_query (cuda_query env n)) = true).

(** Successive clock readings are more than 5 ms apart. *)
Definition clock_advances (env : Env) : Prop :=
  forall a b, (a < b)%nat -> (clock env a + (1 # 200) < clock env b)%Q.

(** What a generation on slot [m] writing [path] gives on the happy path. *)
Definition gen_happy (buffer_gb : Q) (m : ModelType) (path : string) (w : World)
    (o : Outcome GenResult) (w' : World) : Prop :=
  exists r, o = Ret r /\ success r = true /\ output_path r = Some path /\
    (exists t, generation_time r = Some t /\ (0 < t)%Q) /\
    state (lookup (models (mgr w')) m) = READY /\
    (state (lookup (models (mgr w)) m) <> READY ->
     state (lookup (models (mgr w')) (other m)) = UNLOADED) /\
    generation_lock (mgr w') = false /\
    vram_buffer_gb (mgr w') = buffer_gb.

(** What the pipeline gives on the happy path. *)
Definition pipeline_happy_post (dir : string) (o : Outcome PipelineResult) (w' : World) : Prop :=
  exists res r1 r2,
    o = Ret res /\ pipeline_success res = true /\
    image_path res = Some (path_join dir "generated_image.png") /\
    mesh_path res = Some (path_join dir "generated_mesh.glb") /\
    stages_image res = Some r1 /\ stages_mesh res = Some r2 /\
    success r1 = true /\ success r2 = true /\
    (exists t, generation_time r1 = Some t /\ (0 < t)%Q) /\
    (exists t, generation_time r2 = Some t /\ (0 < t)%Q) /\
    state (lookup (models (mgr w')) INSTANTMESH) = READY /\
    state (lookup (models (mgr w')) SDXL) = UNLOADED /\
    generation_lock (mgr w') = false.



(** The steps of [generate_full_pipeline] before it calls stage 1: the entry
    acquisition, [output_dir.mkdir], the clock reading and the release of
    the lock. *)
Definition before_stage_a (env : Env) : M unit :=
  emit (EvCall GENERATE_FULL_PIPELINE) ;;;
  acquire_generation false ;;;
  io_call env ;;;
  time_time env ;;;
  release_generation env.

(** The run of stage 1 inside [generate_full_pipeline] started from [w]:
    the call of [generate_image] at line 497 of the source. *)
Definition stage_a (env : Env) (prompt dir : string) (steps : Z) (w : World)
  : Outcome GenResult * World :=
  generate_image env prompt (path_join dir "generated_image.png") 1024 1024 steps
                 (snd (before_stage_a env w)).

(** The steps between the return of stage 1 and the call of stage 2: the
    reacquisition and the second release. *)
Definition before_stage_b (env : Env) : M unit :=
  acquire_generation true ;;; release_generation env.

(** The run of stage 2 inside [generate_full_pipeline] started from [w]:
    the call of [generate_mesh] at line 512 of the source. *)
Definition stage_b (env : Env) (prompt dir : string) (steps : Z) (w : World)
  : Outcome GenResult * World :=
  generate_mesh env (ImagePath (path_join dir "generated_image.png"))
                (path_join dir "generated_mesh.glb")
                (snd (before_stage_b env (snd (stage_a env prompt dir steps w)))).

(** The result of a pipeline whose stage 1 returned the failure [r1]. *)
Definition image_stage_failed (r1 : GenResult) : PipelineResult :=
  mkPipelineResult false
    (Some ("Image generation failed: " ++ error_text r1)%string)
    (Some "image"%string) (Some r1) None None None None None.


(** The world after [release()] of the held generation lock of [w0], when
    another caller does ([intruded]) or does not take the lock at once. *)
Definition released (intruded : bool) (w0 : World) : World :=
  let w1 := log EvRelease (with_mgr (set_generation_lock false) w0) in
  if intruded then bump (log EvIntruder (with_mgr (set_generation_lock true) w1))
  else bump w1.

(** The world after a successful [acquire()] from [w0]. *)
Definition acquired (blocking : bool) (w0 : World) : World :=
  log (EvAcquire blocking true) (with_mgr (set_generation_lock true) w0).

(** The successful generations an operation reports when run from [w]. *)
Definition op_generations (env : Env) (op : Op) (w : World) : Z :=
  match op with
  | OpGenerateMesh i o =>
      match fst (generate_mesh env i o w) with
      | Ret r => if success r then 1 else 0
      | _ => 0
      end
  | OpGenerateImage p o wd h s =>
      match fst (generate_image env p o wd h s w) with
      | Ret r => if success r then 1 else 0
      | _ => 0
      end
  | OpGenerateFullPipeline p d s => reported (fst (generate_full_pipeline env p d s w))
  | _ => 0
  end.

Fixpoint successful_generations (env : Env) (ops : list Op) (w : World) : Z :=
  match ops with
  | [] => 0
  | op :: ops' =>
      op_generations env op w + successful_generations env ops' (run_op env op w)
  end.



(** A machine where everything works: 16 GiB of free VRAM, 6 and 8 GB
    models, a clock that gains a second per external call, no other caller. *)
Definition happy_env : Env :=
  mkEnv (fun m => match m with INSTANTMESH => 6%Q | SDXL => 8%Q end)
        (fun _ => Cuda (16 * 1024 ^ 3) 0 0 "gpu")
        (fun _ => None)
        (fun _ n => inr n)
        (fun _ => inr (mkMeshResult (Some 1%nat) false false false))
        (fun _ => inr (mkImageResult 1))
        (fun _ => None)
        (fun _ => inr 1000)
        (fun n => inject_Z (Z.of_nat n))
        (fun _ => false).

(** [happy_env], except that another caller takes the generation lock at
    external call [n]. *)
Definition contended_env (n : nat) : Env :=
  mkEnv (required_vram_gb happy_env) (cuda_query happy_env) (cuda_clear happy_env)
        (from_pretrained happy_env) (call_instantmesh happy_env)
        (call_sdxl happy_env) (io happy_env) (stat_size happy_env)
        (clock happy_env) (Nat.eqb n).

(** [happy_env], except that only 4 GiB of VRAM are free. *)
Definition low_vram_env : Env :=
  mkEnv (required_vram_gb happy_env) (fun _ => Cuda (4 * 1024 ^ 3) 0 0 "gpu")
        (cuda_clear happy_env)
        (from_pretrained happy_env) (call_instantmesh happy_env)
        (call_sdxl happy_env) (io happy_env) (stat_size happy_env)
        (clock happy_env) (intrudes happy_env).

(** [happy_env], except that InstantMesh returns an object with none of the
    attributes [generate_mesh] knows. *)
Definition odd_output_env : Env :=
  mkEnv (required_vram_gb happy_env) (cuda_query happy_env) (cuda_clear happy_env)
        (from_pretrained happy_env)
        (fun _ => inr (mkMeshResult None false false false))
        (call_sdxl happy_env) (io happy_env) (stat_size happy_env)
        (clock happy_env) (intrudes happy_env).

(** A fresh manager with a 2 GB buffer and a restart threshold of 20. *)
Definition fresh_world : World := init_world 2 20.

(** [fresh_world] while another caller holds the generation lock. *)
Definition busy_world : World :=
  with_mgr (set_generation_lock true) fresh_world.

Definition busy_pipeline_result : PipelineResult :=
  mkPipelineResult false (Some busy) (Some "blocked"%string)
                   None None None None None None.

(** The log entries that a run from [w] to [w'] added. *)
Definition added (w w' : World) : list Event :=
  firstn (length (trace w') - length (trace w)) (trace w').

(** One image generation: it leaves SDXL READY, the state from which the
    witness of C1 loads InstantMesh. *)
Definition image_then_mesh_load : list Op :=
  [OpGenerateImage "a chair" "image.png" 1024 1024 25].

(** A world in which SDXL has been loaded. *)
Definition sdxl_ready_world : World := run_ops happy_env [OpLoadSdxl] fresh_world.

(** Three image generations. *)
Definition three_images : list Op :=
  repeat (OpGenerateImage "a chair" "image.png" 1024 1024 25) 3.

(** The status dict of a [get_status] call, when it returned one. *)
Definition status_of (r : Outcome Status * World) : option Status :=
  match fst r with Ret s => Some s | _ => None end.

(** The result dict of a successful generation that wrote [path]: the keys
    output_path, generation_time, vram_after and file_size_bytes are there,
    width and height are [wd] and [ht], and there is no error key. *)
Definition success_result (path : string) (wd ht : option Z) (r : GenResult) : Prop :=
  success r = true /\ error r = None /\ output_path r = Some path /\
  (exists t, generation_time r = Some t) /\
  width r = wd /\ height r = ht /\
  (exists v, vram_after r = Some v) /\
  (exists n, file_size_bytes r = Some n).

(** What [generate_mesh] and [generate_image] hand back: a success dict or a
    failure dict that holds only an error message. *)
Definition result_shape (path : string) (wd ht : option Z)
    (o : Outcome GenResult) : Prop :=
  match o with
  | Ret r => success_result path wd ht r \/ exists e, r = failure e
  | _ => True
  end.

(** Log entries other than the write of an output file. *)
Definition no_artifact (e : Event) : Prop :=
  match e with EvArtifact _ => False | _ => True end.

(** What a generation writing [path] does to the statistics: either it
    wrote no output file and both counters are as before, or it wrote the
    file once, generation_count is one more and total_generation_time grew
    by the difference of two clock readings, the later one taken after at
    least one more external call. *)
Definition stats_post (env : Env) (path : string) (w : World)
    (o : Outcome GenResult) (w' : World) : Prop :=
  (since (trace w) no_artifact (trace w') /\
   generation_count (mgr w') = generation_count (mgr w) /\
   total_generation_time (mgr w') = total_generation_time (mgr w) /\
   forall r, o = Ret r -> success r = false)
  \/
  (exists a b tr,
     total_generation_time (mgr w')
     = (total_generation_time (mgr w) + (clock env b - clock env a))%Q /\
     (a < b)%nat /\
     since (EvArtifact path :: tr) no_artifact (trace w') /\
     since (trace w) no_artifact tr /\
     generation_count (mgr w') = generation_count (mgr w) + 1).

(** Log entries of a caller that is never refused: no failed acquisition of
    the generation lock and no other caller taking it. *)
Definition granted (e : Event) : Prop :=
  match e with
  | EvAcquire _ false | EvIntruder => False
  | _ => True
  end.

(** What a generation on the READY slot [m] of table [t0] may log: the lock
    and call events, and snapshots in which [m] is still resident with the
    same pipeline object and load_count and the other slot is as in [t0];
    no admission check. *)
Definition warm_event (m : ModelType) (t0 : Models) (e : Event) : Prop :=
  match e with
  | EvModels t =>
      lookup t (other m) = lookup t0 (other m) /\
      pipeline (lookup t m) = pipeline (lookup t0 m) /\
      load_count (lookup t m) = load_count (lookup t0 m) /\
      is_resident (state (lookup t m)) = true
  | EvBudget _ => False
  | _ => True
  end.

(** The load_count of every slot is at least what it was. *)
Definition counts_grow (w w' : World) : Prop :=
  forall x, load_count (lookup (models (mgr w)) x)
            <= load_count (lookup (models (mgr w')) x).

(** The clock never goes backwards. *)
Definition clock_monotone (env : Env) : Prop :=
  forall a b, (a <= b)%nat -> (clock env a <= clock env b)%Q.

(** [cuda_clear] of [env] never raises. *)
Definition clear_succeeds (env : Env) : Prop :=
  forall n, cuda_clear env n = None.

(** Both statistics are at least what they were. *)
Definition stats_grow (w w' : World) : Prop :=
  generation_count (mgr w) <= generation_count (mgr w') /\
  (total_generation_time (mgr w) <= total_generation_time (mgr w'))%Q.

(** A world that one caller alone has left: as the operations leave it, the
    generation lock free, and no acquisition of it refused so far. *)
Definition Calm (w : World) : Prop :=
  Good w /\ generation_lock (mgr w) = false /\ Forall granted (trace w).

(** [happy_env], except that no pipeline object can be built:
    [from_pretrained] raises. *)
Definition no_weights_env : Env :=
  mkEnv (required_vram_gb happy_env) (cuda_query happy_env) (cuda_clear happy_env)
        (fun _ _ => inl "weights not found"%string)
        (call_instantmesh happy_env)
        (call_sdxl happy_env) (io happy_env) (stat_size happy_env)
        (clock happy_env) (intrudes happy_env).

(** A world whose SDXL slot is in ERROR: a load failed there. *)
Definition sdxl_error_world : World := run_ops no_weights_env [OpLoadSdxl] fresh_world.

(** The results [generate_full_pipeline] can give when it is run from [w]
    with output directory [dir]: refused at entry, the output directory could
    not be made, stage 1 failed, stage 2 failed, or both stages succeeded.
    No exception escapes.  After a success generation_count has grown by the
    two generations of the run, and by no more when no other caller took the
    lock between the stages. *)
Definition pipeline_outcome (env : Env) (dir : string) (w : World)
    (o : Outcome PipelineResult) (w' : World) : Prop :=
  match o with
  | Ret res =>
      (res = busy_pipeline_result /\ generation_lock (mgr w) = true /\
       mgr w' = mgr w)
      \/
      (exists e,
         res = mkPipelineResult false (Some e) (Some "unknown"%string)
                                None None None None None None /\
         io env (tick w) = Some e /\
         generation_lock (mgr w) = false /\
         models (mgr w') = models (mgr w) /\
         generation_count (mgr w') = generation_count (mgr w))
      \/
      (exists r1,
         res = mkPipelineResult false
                 (Some ("Image generation failed: " ++ error_text r1)%string)
                 (Some "image"%string) (Some r1) None None None None None /\
         success r1 = false)
      \/
      (exists r1 r2,
         res = mkPipelineResult false
                 (Some ("Mesh generation failed: " ++ error_text r2)%string)
                 (Some "mesh"%string) (Some r1) (Some r2) None None None None /\
         success r1 = true /\ success r2 = false /\
         generation_count (mgr w) + 1 <= generation_count (mgr w'))
      \/
      (exists r1 r2 t v,
         res = mkPipelineResult true None None (Some r1) (Some r2) (Some t)
                 (Some (path_join dir "generated_image.png"))
                 (Some (path_join dir "generated_mesh.glb")) (Some v) /\
         success r1 = true /\ success r2 = true /\
         generation_count (mgr w) + 2 <= generation_count (mgr w') /\
         (quiet env -> generation_count (mgr w') = generation_count (mgr w) + 2))
  | Raise _ => False
  | Blocked => True
  end.

(** The slot table at the moment the pipeline object of [m] is called: the
    slot of [m] is GENERATING and holds a pipeline object, and the other slot
    holds nothing. *)
Definition invoke_table (m : ModelType) (t : Models) : Prop :=
  state (lookup t m) = GENERATING /\
  pipeline (lookup t m) <> None /\
  evicted (lookup t (other m)) = true.

(** Every call of a pipeline object in the log (newest entry first) comes
    right after a write that left the slot table as [invoke_table] says. *)
Fixpoint invoke_ok (tr : list Event) : Prop :=
  match tr with
  | [] => True
  | EvInvoke m :: rest =>
      match rest with
      | EvModels t :: _ => invoke_table m t
      | _ => False
      end /\ invoke_ok rest
  | _ :: rest => invoke_ok rest
  end.

(** Log entries other than a denied admission. *)
Definition not_denied (e : Event) : Prop := e <> EvBudget false.

(** How a load of the slot [m] ends when the cache clear never fails: READY
    after an admitted load; UNLOADED when admission was denied, the denial
    being the last entry of the log; ERROR when admission passed and building
    the pipeline object raised.  In each case the other slot is UNLOADED. *)
Definition load_modes (env : Env) (m : ModelType) (w : World)
    (o : Outcome bool) (w' : World) : Prop :=
  state (lookup (models (mgr w')) (other m)) = UNLOADED /\
  ((o = Ret true /\ state (lookup (models (mgr w')) m) = READY /\
    since (trace w) not_denied (trace w'))
   \/
   (o = Ret false /\ state (lookup (models (mgr w')) m) = UNLOADED /\
    exists tr, trace w' = EvBudget false :: tr /\ since (trace w) not_denied tr)
   \/
   (o = Ret false /\ state (lookup (models (mgr w')) m) = ERROR /\
    since (trace w) not_denied (trace w') /\
    exists n e, from_pretrained env m n = inl e)).

(** The job id an endpoint works with: the one that was sent or, if none
    was, the one drawn by [generate_job_id] at the first external call. *)
Definition the_job_id (uuid4 : nat -> string) (job_id : option string) (w : World)
  : string :=
  match job_id with
  | None => substring 0 8 (uuid4 (tick w))
  | Some j => j
  end.

(** The world in which the body of an endpoint goes on once it has its job
    id. *)
Definition after_job_id (job_id : option string) (w : World) : World :=
  match job_id with
  | None => bump w
  | Some _ => w
  end.

(** What [/generate/mesh] has checked once it calls the manager: the
    content type is absent, empty or one of the three image types, the upload
    has at most 20 MiB, and the image that [PILImage.open] gave at external
    call [n] is at most 4096 pixels wide and high. *)
Definition mesh_upload_checked (PILImage_open : nat -> string + inference_server.PILImage)
    (image : inference_server.UploadFile) (n : nat) : Prop :=
  inference_server.unsupported_type (inference_server.content_type image) = false /\
  Z.of_nat (List.length (inference_server.contents image)) <= 20 * 1024 * 1024 /\
  exists img,
    PILImage_open n = inr img /\
    Z.max (fst (inference_server.size img)) (snd (inference_server.size img)) <= 4096.

(** The manager wrote the output file [out] and counted the generation
    between [w] and [w']. *)
Definition written (out : string) (w w' : World) : Prop :=
  generation_count (mgr w') = generation_count (mgr w) + 1 /\
  exists new, trace w' = new ++ trace w /\ In (EvArtifact out) new.

(** How the manager part of an endpoint ends (the call of the manager, the
    check of its result and the construction of the [FileResponse]) when it
    writes [out] for the job [job] with media type [media] and file name
    [name], run from [w]: with the file, the output written and counted;
    with a 500 'Generation failed'; or with the exception of the
    [FileResponse] constructor, the output written and counted. *)
Definition served (FileResponse_init : nat -> option string)
    (out media name job : string) (w : World)
    (o : Outcome (inference_server.HTTPException + inference_server.FileResponse))
    (w' : World) : Prop :=
  Good w' /\
  match o with
  | Ret (inr file) =>
      (exists t n, file = inference_server.mkFileResponse out media name job t n) /\
      written out w w'
  | Ret (inl exc) =>
      exists e, exc = inference_server.mkHTTPException 500 ("Generation failed: " ++ e)
  | Raise e =>
      (exists n, FileResponse_init n = Some e) /\ written out w w'
  | Blocked => False
  end.

(** The manager and its log are as they were. *)
Definition untouched (w w' : World) : Prop :=
  mgr w' = mgr w /\ trace w' = trace w.

(** What [/generate/mesh] guarantees, from [w] (where the job id is there
    and the next external call is number [tick w]) to the outcome [o] and the
    world [w']. *)
Definition mesh_endpoint_post (PILImage_open : nat -> string + inference_server.PILImage)
    (FileResponse_init : nat -> option string)
    (image : inference_server.UploadFile) (out job : string) (w : World)
    (o : Outcome (inference_server.HTTPException + inference_server.FileResponse))
    (w' : World) : Prop :=
  (untouched w w' \/ mesh_upload_checked PILImage_open image (S (S (tick w)))) /\
  match o with
  | Ret (inr file) =>
      mesh_upload_checked PILImage_open image (S (S (tick w))) /\
      (exists t n,
         file = inference_server.mkFileResponse out "model/gltf-binary"
                  (job ++ ".glb") job t n) /\
      written out w w'
  | Ret (inl exc) =>
      (inference_server.status_code exc = 400 /\ untouched w w')
      \/
      (exists e, exc = inference_server.mkHTTPException 500 ("Generation failed: " ++ e))
      \/
      (exists e,
         exc = inference_server.mkHTTPException 500 ("Internal error: " ++ e) /\
         PILImage_open (S (S (tick w))) = inl e /\ untouched w w')
      \/
      (exists e n,
         exc = inference_server.mkHTTPException 500 ("Internal error: " ++ e) /\
         FileResponse_init n = Some e /\ written out w w')
  | Raise _ => True
  | Blocked => True
  end.

(** An entry that [cleanup_temp_files] removes for the cutoff [cutoff]: a
    file that [stat()] shows older than the cutoff. *)
Definition stale (cutoff : Q) (f : inference_server.DirEntry) : bool :=
  match inference_server.is_file f, inference_server.st_mtime f with
  | inr true, inr mtime => Qltb mtime cutoff
  | _, _ => false
  end.

(** The calls that the loop of [cleanup_temp_files] makes on the entry [f]
    raise nothing: [is_file()], [stat()] on a file, and [unlink()] on a file
    that is older than the cutoff. *)
Definition passes (cutoff : Q) (f : inference_server.DirEntry) : Prop :=
  exists b,
    inference_server.is_file f = inr b /\
    (b = true ->
     exists mtime,
       inference_server.st_mtime f = inr mtime /\
       (Qltb mtime cutoff = true -> inference_server.unlink f = None)).

(** The entry [f] stops the loop with the exception [e]: [is_file()] raises
    [e], or it is a file and [stat()] raises [e], or it is a file older than
    the cutoff and [unlink()] raises [e]. *)
Definition stops (cutoff : Q) (f : inference_server.DirEntry) (e : string) : Prop :=
  inference_server.is_file f = inl e \/
  (inference_server.is_file f = inr true /\
   (inference_server.st_mtime f = inl e \/
    (stale cutoff f = true /\ inference_server.unlink f = Some e))).

(** A job id oracle, a PIL that opens every upload as a 512 x 512 image, a
    small PNG upload, a prompt, and response constructors that do not
    raise. *)
Definition sample_uuid4 : nat -> string := fun _ => "0123456789abcdef"%string.

Definition sample_open : nat -> string + inference_server.PILImage :=
  fun n => inr (inference_server.mkPILImage n (512, 512)).

Definition sample_upload : inference_server.UploadFile :=
  inference_server.mkUploadFile (Some "image/png"%string) [].


Definition no_error : nat -> option string := fun _ => None.

(** * Reasoning about programs of [M] *)

Lemma wp_bind {A B} (m : M A) (f : A -> M B) Q w :
  wp m (fun o w' => match o with
                    | Ret a => wp (f a) Q w'
                    | Raise e => Q (Raise e) w'
                    | Blocked => Q Blocked w'
                    end) w ->
  wp (bind m f) Q w.
Proof. unfold wp, bind. destruct (m w) as [[a|e|] w']; auto. Qed.

Lemma wp_try {A} (m : M A) h Q w :
  wp m (fun o w' => match o with
                    | Raise e => wp (h e) Q w'
                    | _ => Q o w'
                    end) w ->
  wp (try_except m h) Q w.
Proof. unfold wp, try_except. destruct (m w) as [[a|e|] w']; auto. Qed.

Lemma wp_finally {A} (m : M A) f Q w :
  wp m (fun o w' => match o with
                    | Blocked => Q Blocked w'
                    | _ => wp f (fun o' w'' => match o' with
                                               | Ret _ => Q o w''
                                               | Raise e => Q (Raise e) w''
                                               | Blocked => Q Blocked w''
                                               end) w'
                    end) w ->
  wp (finally m f) Q w.
Proof.
  unfold wp, finally. destruct (m w) as [[a|e|] w']; cbn; auto;
  destruct (f w') as [[[]|e'|] w'']; auto.
Qed.

Lemma wp_mono {A} (m : M A) (Q1 Q2 : Outcome A -> World -> Prop) w :
  wp m Q1 w -> (forall o w', Q1 o w' -> Q2 o w') -> wp m Q2 w.
Proof. unfold wp; auto. Qed.

Lemma wp_ret {A} (a : A) (Q : Outcome A -> World -> Prop) w : Q (Ret a) w -> wp (ret a) Q w.
Proof. auto. Qed.

Lemma wp_raise {A} e (Q : Outcome A -> World -> Prop) w :
  Q (Raise e) w -> wp (raise e) Q w.
Proof. auto. Qed.

Lemma wp_get_info m Q w :
  Q (Ret (lookup (models (mgr w)) m)) w -> wp (get_info m) Q w.
Proof. auto. Qed.

Lemma wp_emit e Q w : Q (Ret tt) (log e w) -> wp (emit e) Q w.
Proof. auto. Qed.

Lemma wp_set_state m s Q w :
  Q (Ret tt)
    (write_models
       (update (models (mgr w)) m
               (mkInfo s (pipeline (lookup (models (mgr w)) m))
                       (load_count (lookup (models (mgr w)) m)))) w) ->
  wp (set_state m s) Q w.
Proof. auto. Qed.

Lemma wp_set_pipeline m p Q w :
  Q (Ret tt)
    (write_models
       (update (models (mgr w)) m
               (mkInfo (state (lookup (models (mgr w)) m)) p
                       (load_count (lookup (models (mgr w)) m)))) w) ->
  wp (set_pipeline m p) Q w.
Proof. auto. Qed.

Lemma wp_incr_load_count m Q w :
  Q (Ret tt)
    (write_models
       (update (models (mgr w)) m
               (mkInfo (state (lookup (models (mgr w)) m))
                       (pipeline (lookup (models (mgr w)) m))
                       (load_count (lookup (models (mgr w)) m) + 1))) w) ->
  wp (incr_load_count m) Q w.
Proof. auto. Qed.

Lemma wp_add_generation (elapsed : Q) (P : Outcome unit -> World -> Prop) w :
  P (Ret tt)
    (with_mgr (set_stats (generation_count (mgr w) + 1)
                         (total_generation_time (mgr w) + elapsed)%Q) w) ->
  wp (add_generation elapsed) P w.
Proof. auto. Qed.

Lemma wp_ext {A} (f : nat -> A) Q w :
  Q (Ret (f (tick w))) (bump w) -> wp (ext f) Q w.
Proof. auto. Qed.

Lemma wp_ext_unit f Q w :
  (forall e, f (tick w) = Some e -> Q (Raise e) (bump w)) ->
  (f (tick w) = None -> Q (Ret tt) (bump w)) ->
  wp (ext_unit f) Q w.
Proof. unfold wp, ext_unit. destruct (f (tick w)); cbn; auto. Qed.

Lemma wp_ext_result {A} (f : nat -> string + A) Q w :
  (forall e, f (tick w) = inl e -> Q (Raise e) (bump w)) ->
  (forall a, f (tick w) = inr a -> Q (Ret a) (bump w)) ->
  wp (ext_result f) Q w.
Proof. unfold wp, ext_result. destruct (f (tick w)); cbn; auto. Qed.

Lemma wp_acquire_generation (blocking : bool) (Q : Outcome bool -> World -> Prop) w :
  (generation_lock (mgr w) = true ->
   if blocking then Q Blocked (log (EvAcquire true false) w)
   else Q (Ret false) (log (EvAcquire false false) w)) ->
  (generation_lock (mgr w) = false ->
   Q (Ret true) (log (EvAcquire blocking true)
                     (with_mgr (set_generation_lock true) w))) ->
  wp (acquire_generation blocking) Q w.
Proof.
  unfold wp, acquire_generation. intros H1 H2.
  destruct (generation_lock (mgr w)); [specialize (H1 eq_refl); destruct blocking|]; auto.
Qed.

Lemma wp_with_model_lock {A} (body : M A) Q w :
  (model_lock (mgr w) = true -> Q Blocked w) ->
  (model_lock (mgr w) = false ->
   wp body (fun o w' => match o with
                        | Blocked => Q Blocked w'
                        | _ => Q o (with_mgr (set_model_lock false) w')
                        end) (with_mgr (set_model_lock true) w)) ->
  wp (with_model_lock body) Q w.
Proof.
  unfold wp, with_model_lock, finally. intros H1 H2.
  destruct (model_lock (mgr w)); cbn; auto.
  specialize (H2 eq_refl).
  destruct (body (with_mgr (set_model_lock true) w)) as [[a|e|] w']; cbn in *; auto.
Qed.

(** *** Logs *)

Lemma since_refl P tr : since tr P tr.
Proof. exists []; split; auto. Qed.

Lemma since_cons tr0 (P : Event -> Prop) e tr :
  P e -> since tr0 P tr -> since tr0 P (e :: tr).
Proof. intros He (new & -> & Hn). exists (e :: new); split; auto. Qed.

Lemma since_trans tr0 P tr1 tr2 :
  since tr0 P tr1 -> since tr1 P tr2 -> since tr0 P tr2.
Proof.
  intros (n1 & -> & H1) (n2 & -> & H2). exists (n2 ++ n1); split.
  - now rewrite app_assoc.
  - apply Forall_app; auto.
Qed.

Lemma since_weaken tr0 (P P' : Event -> Prop) tr :
  (forall e, P e -> P' e) -> since tr0 P tr -> since tr0 P' tr.
Proof. intros H (new & -> & Hn). exists new; split; auto. eapply Forall_impl; eauto. Qed.

Lemma since_Forall tr0 (P : Event -> Prop) tr :
  since tr0 P tr -> Forall P tr0 -> Forall P tr.
Proof. intros (new & -> & Hn) H0. apply Forall_app; auto. Qed.

Lemma since_new tr0 (P : Event -> Prop) new :
  since tr0 P (new ++ tr0) -> Forall P new.
Proof. intros (n & Hn & Hf). apply app_inv_tail in Hn. now subst. Qed.

(** *** Slot tables *)

Lemma lookup_update_same t m i : lookup (update t m i) m = i.
Proof. destruct m; reflexivity. Qed.

Lemma lookup_update_other t m i : lookup (update t m i) (other m) = lookup t (other m).
Proof. destruct m; reflexivity. Qed.

Lemma update_update t m i j : update (update t m i) m j = update t m j.
Proof. destruct m; reflexivity. Qed.

Lemma other_other m : other (other m) = m.
Proof. destruct m; reflexivity. Qed.

Lemma lookup_update_cases t m i x :
  (x = m /\ lookup (update t m i) x = i) \/
  (x = other m /\ lookup (update t m i) x = lookup t x).
Proof. destruct m, x; cbn; auto. Qed.

Lemma snapshot_ok_iff t :
  snapshot_ok t = true <->
  forall m, handle_fits (lookup t m) = true /\
            (is_resident (state (lookup t m)) = true ->
             is_resident (state (lookup t (other m))) = false).
Proof.
  unfold snapshot_ok, single_residency. split.
  - intros H m. apply andb_prop in H as [H H2]. apply andb_prop in H as [H H1].
    destruct m; cbn; split; auto;
      destruct (is_resident (state (instantmesh_info t))),
               (is_resident (state (sdxl_info t))); auto; discriminate.
  - intros H. destruct (H INSTANTMESH) as [H1 H3], (H SDXL) as [H2 _].
    cbn in *. rewrite H1, H2.
    destruct (is_resident (state (instantmesh_info t))); cbn; auto.
    rewrite H3; auto.
Qed.

Lemma table_ok_iff t :
  table_ok t <->
  forall m, settled_info (lookup t m) = true /\
            (is_resident (state (lookup t m)) = true ->
             is_resident (state (lookup t (other m))) = false).
Proof.
  unfold table_ok, settled, single_residency. split.
  - intros [H1 H2] m. apply andb_prop in H1 as [Ha Hb].
    destruct m; cbn; split; auto;
      destruct (is_resident (state (instantmesh_info t))),
               (is_resident (state (sdxl_info t))); auto; discriminate.
  - intros H. destruct (H INSTANTMESH) as [H1 H3], (H SDXL) as [H2 _].
    cbn in *. rewrite H1, H2. split; auto.
    destruct (is_resident (state (instantmesh_info t))); cbn; auto.
    rewrite H3; auto.
Qed.

Lemma settled_info_fits i : settled_info i = true -> handle_fits i = true.
Proof. unfold settled_info, handle_fits. destruct (state i), (pipeline i); auto. Qed.

Lemma table_ok_fits t x : table_ok t -> handle_fits (lookup t x) = true.
Proof. intros H. apply settled_info_fits, table_ok_iff, H. Qed.

Lemma table_ok_snapshot t : table_ok t -> snapshot_ok t = true.
Proof.
  rewrite table_ok_iff, snapshot_ok_iff. intros H m. destruct (H m).
  auto using settled_info_fits.
Qed.

Lemma evicted_inv i : evicted i = true ->
  pipeline i = None /\ is_resident (state i) = false /\
  settled_info i = true /\ state i <> READY /\ state i <> LOADING.
Proof. unfold evicted, settled_info. destruct (state i), (pipeline i); cbn; intuition congruence. Qed.

Lemma settling_evicting_info i0 i : settling_info i0 i -> evicting_info i0 i.
Proof. unfold settling_info, evicting_info. tauto. Qed.

Lemma settling_evicting t0 t : settling t0 t -> evicting t0 t.
Proof. intros H x. apply settling_evicting_info, H. Qed.

Lemma evicting_info_resident i0 i :
  evicting_info i0 i -> is_resident (state i) = true -> i = i0.
Proof.
  intros [->|(_ & [(Hs & _)|He])] Hr; auto.
  - rewrite Hs in Hr; discriminate.
  - apply evicted_inv in He. destruct He as (_ & He & _). congruence.
Qed.

Lemma evicting_info_fits i0 i :
  handle_fits i0 = true -> evicting_info i0 i -> handle_fits i = true.
Proof.
  intros H0 [->|(_ & [(Hs & _)|He])]; auto.
  - unfold handle_fits. rewrite Hs. destruct (pipeline i); auto.
  - apply settled_info_fits, evicted_inv, He.
Qed.

Lemma settling_info_settled i0 i :
  settled_info i0 = true -> settling_info i0 i -> settled_info i = true.
Proof. intros H0 [->|(_ & He)]; auto. apply evicted_inv, He. Qed.

Lemma evicting_refl t : evicting t t.
Proof. intros x; left; reflexivity. Qed.

Lemma settling_refl t : settling t t.
Proof. intros x; left; reflexivity. Qed.

Lemma evicting_update t0 t m i :
  evicting t0 t -> evicting_info (lookup t0 m) i -> evicting t0 (update t m i).
Proof. intros H Hi x. destruct m, x; cbn in *; auto; apply (H INSTANTMESH) || apply (H SDXL). Qed.

Lemma settling_update t0 t m i :
  settling t0 t -> settling_info (lookup t0 m) i -> settling t0 (update t m i).
Proof. intros H Hi x. destruct m, x; cbn in *; auto; apply (H INSTANTMESH) || apply (H SDXL). Qed.

Lemma evicting_info_trans i0 i1 i2 :
  evicting_info i0 i1 -> evicting_info i1 i2 -> evicting_info i0 i2.
Proof.
  unfold evicting_info. intros [->|(Hc1 & H1)] [->|(Hc2 & H2)]; auto.
  right. split; [congruence|].
  destruct H2 as [(Hs & Hp)|He]; auto. left; split; auto.
  destruct Hp as [Hp|Hp]; auto. rewrite Hp.
  destruct H1 as [(_ & H1)|H1]; auto.
  right. apply evicted_inv in H1. tauto.
Qed.

Lemma evicting_trans t0 t1 t2 : evicting t0 t1 -> evicting t1 t2 -> evicting t0 t2.
Proof. intros H1 H2 x. eapply evicting_info_trans; eauto. Qed.

Lemma settling_info_trans i0 i1 i2 :
  settling_info i0 i1 -> settling_info i1 i2 -> settling_info i0 i2.
Proof.
  unfold settling_info. intros [->|(Hc1 & H1)] [->|(Hc2 & H2)]; auto.
  right. split; [congruence|auto].
Qed.

Lemma settling_trans t0 t1 t2 : settling t0 t1 -> settling t1 t2 -> settling t0 t2.
Proof. intros H1 H2 x. eapply settling_info_trans; eauto. Qed.

Lemma evicting_load_count t0 t x :
  evicting t0 t -> load_count (lookup t x) = load_count (lookup t0 x).
Proof. intros H. destruct (H x) as [->|[? _]]; auto. Qed.

Lemma evict_event_trans t0 t1 e : evicting t0 t1 -> evict_event t1 e -> evict_event t0 e.
Proof. intros H (t & -> & Ht). exists t; split; auto. eapply evicting_trans; eauto. Qed.

Lemma evict_event_update t0 m i :
  evicting_info (lookup t0 m) i -> evict_event t0 (EvModels (update t0 m i)).
Proof.
  intros H. eexists; split; [reflexivity|].
  apply evicting_update; auto using evicting_refl.
Qed.

Lemma snapshot_ok_evicting t0 t :
  snapshot_ok t0 = true -> evicting t0 t -> snapshot_ok t = true.
Proof.
  rewrite !snapshot_ok_iff. intros H0 He m. split.
  - eapply evicting_info_fits; [apply H0|apply He].
  - intros Hr. pose proof (evicting_info_resident _ _ (He m) Hr) as E.
    destruct (is_resident (state (lookup t (other m)))) eqn:Ho; auto.
    pose proof (evicting_info_resident _ _ (He (other m)) Ho) as E'.
    rewrite E in Hr. rewrite E' in Ho. destruct (H0 m) as [_ H]. rewrite H in Ho; auto.
Qed.

Lemma table_ok_settling t0 t : table_ok t0 -> settling t0 t -> table_ok t.
Proof.
  rewrite !table_ok_iff. intros H0 He m. split.
  - eapply settling_info_settled; [apply H0|apply He].
  - intros Hr.
    pose proof (evicting_info_resident _ _ (settling_evicting_info _ _ (He m)) Hr) as E.
    destruct (is_resident (state (lookup t (other m)))) eqn:Ho; auto.
    pose proof (evicting_info_resident _ _ (settling_evicting_info _ _ (He (other m))) Ho) as E'.
    rewrite E in Hr. rewrite E' in Ho. destruct (H0 m) as [_ H]. rewrite H in Ho; auto.
Qed.

Lemma loading_snapshot m t : loading m t -> snapshot_ok t = true.
Proof.
  intros [Ho Hm]. apply evicted_inv in Ho. destruct Ho as (Hp & Hr & Hs & _).
  apply settled_info_fits in Hs.
  assert (Hf : handle_fits (lookup t m) = true).
  { unfold loading_info in Hm. unfold handle_fits.
    destruct (state (lookup t m)), (pipeline (lookup t m)); auto. }
  apply snapshot_ok_iff. intros x.
  destruct m, x; cbn in *; split; auto; intros Hx; congruence.
Qed.

Lemma loading_table_ok m t :
  loading m t -> state (lookup t m) = READY -> table_ok t.
Proof.
  intros [Ho Hm] Hs. apply evicted_inv in Ho. destruct Ho as (Hp & Hr & Hso & _).
  assert (Hf : settled_info (lookup t m) = true).
  { unfold loading_info in Hm. unfold settled_info. rewrite Hs in *.
    destruct (pipeline (lookup t m)); auto. }
  apply table_ok_iff. intros x.
  destruct m, x; cbn in *; split; auto; intros Hx; congruence.
Qed.

(** Writing a resident state to the slot that holds the handle. *)
Lemma table_ok_set_resident t m s h c :
  table_ok t -> pipeline (lookup t m) = Some h -> is_resident s = true ->
  table_ok (update t m (mkInfo s (Some h) c)).
Proof.
  rewrite !table_ok_iff. intros H Hp Hs.
  assert (Hm : is_resident (state (lookup t m)) = true).
  { destruct (H m) as [Hm _]. unfold settled_info in Hm. rewrite Hp in Hm.
    destruct (state (lookup t m)); auto; discriminate. }
  assert (Ho : is_resident (state (lookup t (other m))) = false) by (apply H; auto).
  intros x. destruct (lookup_update_cases t m (mkInfo s (Some h) c) x) as [[-> E]|[-> E]].
  - rewrite lookup_update_other, lookup_update_same. cbn. split; auto.
  - rewrite E, other_other, lookup_update_same. split; [apply H|]. intros Hx; congruence.
Qed.

Lemma table_ok_set_error t m c :
  table_ok t -> table_ok (update t m (mkInfo ERROR None c)).
Proof.
  rewrite !table_ok_iff. intros H x.
  destruct (lookup_update_cases t m (mkInfo ERROR None c) x) as [[-> E]|[-> E]].
  - rewrite lookup_update_other, lookup_update_same. cbn. split; auto. discriminate.
  - rewrite E, other_other, lookup_update_same. cbn. split; [apply H|auto].
Qed.

Lemma table_ok_ready_handle t m :
  table_ok t -> is_resident (state (lookup t m)) = true ->
  exists h, pipeline (lookup t m) = Some h.
Proof.
  intros H Hr. apply table_ok_iff with (m := m) in H. destruct H as [H _].
  unfold settled_info in H.
  destruct (state (lookup t m)), (pipeline (lookup t m)); try discriminate; eauto.
Qed.

Lemma same_frame_refl w : same_frame w w.
Proof. unfold same_frame; tauto. Qed.

Lemma same_frame_trans w1 w2 w3 : same_frame w1 w2 -> same_frame w2 w3 -> same_frame w1 w3.
Proof. unfold same_frame; intuition congruence. Qed.

(** *** Rules for the calls into the environment *)

Lemma wp_clear_vram env Q w :
  (forall e, cuda_clear env (tick w) = Some e -> Q (Raise e) (bump w)) ->
  (cuda_clear env (tick w) = None -> Q (Ret tt) (bump w)) ->
  wp (_clear_vram env) Q w.
Proof. apply wp_ext_unit. Qed.

Lemma wp_io_call env Q w :
  (forall e, io env (tick w) = Some e -> Q (Raise e) (bump w)) ->
  (io env (tick w) = None -> Q (Ret tt) (bump w)) ->
  wp (io_call env) Q w.
Proof. apply wp_ext_unit. Qed.

Lemma wp_time_time env (P : Outcome Q -> World -> Prop) w :
  P (Ret (clock env (tick w))) (bump w) -> wp (time_time env) P w.
Proof. auto. Qed.

Lemma wp_get_vram_info env Q w :
  Q (Ret (vram_of_query (cuda_query env (tick w)))) (bump w) ->
  wp (get_vram_info env) Q w.
Proof. auto. Qed.

Lemma wp_check_vram_budget env req Q w :
  (forall ok,
     ok = budget_ok (vram_buffer_gb (mgr w)) req (vram_of_query (cuda_query env (tick w))) ->
     Q (Ret ok) (log (EvBudget ok) (bump w))) ->
  wp (_check_vram_budget env req) Q w.
Proof. intros H. apply H. reflexivity. Qed.

Lemma wp_release_generation env Q w :
  (generation_lock (mgr w) = false -> Q (Raise "release unlocked lock"%string) w) ->
  (generation_lock (mgr w) = true -> intrudes env (tick w) = true ->
   Q (Ret tt) (bump (log EvIntruder
                      (with_mgr (set_generation_lock true)
                         (log EvRelease (with_mgr (set_generation_lock false) w)))))) ->
  (generation_lock (mgr w) = true -> intrudes env (tick w) = false ->
   Q (Ret tt) (bump (log EvRelease (with_mgr (set_generation_lock false) w)))) ->
  wp (release_generation env) Q w.
Proof.
  unfold wp, release_generation. intros H1 H2 H3.
  destruct (generation_lock (mgr w)); auto.
  destruct (intrudes env (tick w)); auto.
Qed.

Lemma wp_invoke {A} m (f : nat -> string + A) Q w :
  (pipeline (lookup (models (mgr w)) m) = None ->
   Q (Raise "'NoneType' object is not callable"%string) w) ->
  (forall h e, pipeline (lookup (models (mgr w)) m) = Some h ->
               f (tick w) = inl e -> Q (Raise e) (bump (log (EvInvoke m) w))) ->
  (forall h a, pipeline (lookup (models (mgr w)) m) = Some h ->
               f (tick w) = inr a -> Q (Ret a) (bump (log (EvInvoke m) w))) ->
  wp (invoke m f) Q w.
Proof.
  unfold wp, invoke, bind, get_info, emit, ext_result, raise. intros H1 H2 H3. cbn.
  destruct (pipeline (lookup (models (mgr w)) m)) eqn:E; cbn; auto.
  destruct (f (tick w)) eqn:F; cbn; eauto.
Qed.

Lemma wp_write_artifact env path Q w :
  (forall e, io env (tick w) = Some e -> Q (Raise e) (bump w)) ->
  (io env (tick w) = None -> Q (Ret tt) (log (EvArtifact path) (bump w))) ->
  wp (write_artifact env path) Q w.
Proof.
  unfold wp, write_artifact, bind, io_call, ext_unit, emit. intros H1 H2.
  destruct (io env (tick w)); cbn; auto.
Qed.

(** *** Stepping through a program *)

Ltac wsimpl :=
  cbn [mgr models tick trace write_models with_mgr log bump set_models
       set_generation_lock set_model_lock set_stats generation_lock model_lock
       generation_count total_generation_time vram_buffer_gb restart_threshold
       state pipeline load_count fst snd negb];
  rewrite ?update_update, ?lookup_update_same, ?lookup_update_other;
  cbn [state pipeline load_count].

Ltac wsimpl_in_all :=
  cbn [mgr models tick trace write_models with_mgr log bump set_models
       set_generation_lock set_model_lock set_stats generation_lock model_lock
       generation_count total_generation_time vram_buffer_gb restart_threshold
       state pipeline load_count fst snd negb] in *;
  rewrite ?update_update, ?lookup_update_same, ?lookup_update_other in *;
  cbn [state pipeline load_count] in *.

Ltac wp_step :=
  wsimpl;
  lazymatch goal with
  | |- wp (bind _ _) _ _ => apply wp_bind
  | |- wp (try_except _ _) _ _ => apply wp_try
  | |- wp (finally _ _) _ _ => apply wp_finally
  | |- wp (ret _) _ _ => apply wp_ret
  | |- wp (raise _) _ _ => apply wp_raise
  | |- wp (get_info _) _ _ => apply wp_get_info
  | |- wp (emit _) _ _ => apply wp_emit
  | |- wp (set_state _ _) _ _ => apply wp_set_state
  | |- wp (set_pipeline _ _) _ _ => apply wp_set_pipeline
  | |- wp (incr_load_count _) _ _ => apply wp_incr_load_count
  | |- wp (add_generation _) _ _ => apply wp_add_generation
  | |- wp (_clear_vram _) _ _ => apply wp_clear_vram; [intros ? ?|intros ?]
  | |- wp (io_call _) _ _ => apply wp_io_call; [intros ? ?|intros ?]
  | |- wp (time_time _) _ _ => apply wp_time_time
  | |- wp (get_vram_info _) _ _ => apply wp_get_vram_info
  | |- wp (_check_vram_budget _ _) _ _ => apply wp_check_vram_budget; intros ? ?
  | |- wp (ext_result _) _ _ => apply wp_ext_result; intros ? ?
  | |- wp (invoke _ _) _ _ => apply wp_invoke; [intros ?|intros ? ? ? ?|intros ? ? ? ?]
  | |- wp (write_artifact _ _) _ _ => apply wp_write_artifact; [intros ? ?|intros ?]
  | |- wp (acquire_generation _) _ _ =>
      apply wp_acquire_generation; [intros ?|intros ?]
  | |- wp (release_generation _) _ _ =>
      apply wp_release_generation; [intros ?|intros ? ?|intros ? ?]
  | |- wp (if ?c then _ else _) _ _ => destruct c eqn:?
  | |- wp (match ?x with _ => _ end) _ _ => destruct x eqn:?
  end; cbv beta iota.

Ltac conj := repeat match goal with |- _ /\ _ => split end.

Ltac bool_hyps :=
  repeat match goal with
         | H : negb ?b = true |- _ => destruct b; [discriminate H|clear H]
         | H : negb ?b = false |- _ => destruct b; [clear H|discriminate H]
         end.

(** * Unload and load *)

Section Specs.
Variable env : Env.

Ltac evict_tac :=
  first [ apply evicting_refl | apply settling_refl
        | apply evict_event_update
        | apply settling_update; [apply settling_refl|]
        | apply evicting_update; [apply evicting_refl|] ];
  try (right; cbn;
       repeat match goal with H : pipeline _ = _ |- _ => rewrite H end; tauto).

Lemma unload_model_spec x w :
  wp (_unload_model env x)
     (fun o w' =>
        since (trace w) (evict_event (models (mgr w))) (trace w') /\
        o <> Blocked /\
        same_frame w w' /\
        (handle_fits (lookup (models (mgr w)) x) = true ->
         settling (models (mgr w)) (models (mgr w'))) /\
        evicting (models (mgr w)) (models (mgr w')) /\
        lookup (models (mgr w')) (other x) = lookup (models (mgr w)) (other x) /\
        (handle_fits (lookup (models (mgr w)) x) = true ->
         evicted (lookup (models (mgr w')) x) = true) /\
        (state (lookup (models (mgr w)) x) = UNLOADED ->
         lookup (models (mgr w')) x = lookup (models (mgr w)) x)) w.
Proof.
  unfold _unload_model.
  repeat wp_step.
  all: unfold same_frame; wsimpl.
  all: conj; try discriminate; try tauto.
  all: try solve [ intros Hu;
                   match goal with
                   | H : ModelState_eqb _ _ = false |- _ =>
                       rewrite Hu in H; discriminate H
                   end ].
  all: repeat first [ apply since_refl | apply since_cons ].
  all: repeat match goal with H : pipeline _ = _ |- _ => rewrite H end.
  all: try solve [evict_tac].
  all: try solve [ unfold handle_fits, evicted;
    destruct (state (lookup (models (mgr w)) x)), (pipeline (lookup (models (mgr w)) x));
    cbn in *; congruence ].
  all: intros _; evict_tac.
Qed.

Lemma unload_all_spec w :
  wp (_unload_all env)
     (fun o w' =>
        since (trace w) (evict_event (models (mgr w))) (trace w') /\
        o <> Blocked /\
        same_frame w w' /\
        evicting (models (mgr w)) (models (mgr w')) /\
        ((forall x, handle_fits (lookup (models (mgr w)) x) = true) ->
         settling (models (mgr w)) (models (mgr w')) /\
         (o = Ret tt -> forall x, evicted (lookup (models (mgr w')) x) = true)) /\
        (forall x, state (lookup (models (mgr w)) x) = UNLOADED ->
                   lookup (models (mgr w')) x = lookup (models (mgr w)) x)) w.
Proof.
  unfold _unload_all. wp_step.
  eapply wp_mono; [apply unload_model_spec|].
  intros o w1 (Hs1 & Hb1 & Hf1 & Hg1 & He1 & Ho1 & Hv1 & Hu1).
  destruct o as [[]|e|]; cbv beta iota;
    [|conj; auto; try congruence;
      [intros H; split; [auto|discriminate]
      |intros []; cbn in *; auto; intros _; exact Ho1]|congruence].
  eapply wp_mono; [apply unload_model_spec|].
  intros o w2 (Hs2 & Hb2 & Hf2 & Hg2 & He2 & Ho2 & Hv2 & Hu2). cbn in Ho1, Ho2.
  conj; auto.
  5:{ intros []; cbn in *; intros Hx.
      - rewrite Ho2. auto.
      - rewrite <- Ho1. apply Hu2. now rewrite Ho1. }
  - eapply since_trans; [eassumption|]. eapply since_weaken; [|eassumption].
    intros e. apply evict_event_trans; auto.
  - eauto using same_frame_trans.
  - eauto using evicting_trans.
  - intros Hfit.
    assert (Hfit2 : handle_fits (lookup (models (mgr w1)) SDXL) = true).
    { cbn. rewrite Ho1. apply (Hfit SDXL). }
    split.
    + eapply settling_trans; [apply Hg1, Hfit|apply Hg2, Hfit2].
    + intros _ []; cbn in *.
      * rewrite Ho2. apply Hv1, (Hfit INSTANTMESH).
      * apply Hv2, Hfit2.
Qed.

Lemma load_model_ready m w :
  model_lock (mgr w) = false ->
  state (lookup (models (mgr w)) m) = READY ->
  load_model env m w = (Ret true, w).
Proof.
  destruct w as [[t gl ml gc gt vb rt] tk tr]. cbn. intros -> H.
  unfold load_model, with_model_lock, finally, bind, get_info. cbn.
  rewrite H. reflexivity.
Qed.

Lemma same_frame_unlock w w' :
  model_lock (mgr w) = false ->
  same_frame (with_mgr (set_model_lock true) w) w' ->
  same_frame w (with_mgr (set_model_lock false) w').
Proof. unfold same_frame; cbn. intuition congruence. Qed.

Lemma load_event_evict m t0 e : evict_event t0 e -> load_event m t0 e.
Proof. intros (t & -> & H). right. exists t. auto. Qed.

Lemma load_event_loading m t0 t : loading m t -> load_event m t0 (EvModels t).
Proof. intros H. right. exists t. auto. Qed.

Lemma loading_update m t i :
  evicted (lookup t (other m)) = true -> loading_info i = true ->
  loading m (update t m i).
Proof. intros H Hi. split; rewrite ?lookup_update_other, ?lookup_update_same; auto. Qed.

Lemma settling_update_evicted t0 t m i :
  settling t0 t -> load_count i = load_count (lookup t m) -> evicted i = true ->
  settling t0 (update t m i).
Proof.
  intros H Hc Hi. apply settling_update; auto. right. split; auto.
  rewrite Hc. apply evicting_load_count, settling_evicting; auto.
Qed.

Ltac load_since :=
  repeat (apply since_cons;
          [ first [ discriminate
                  | left; eexists; reflexivity
                  | left; reflexivity
                  | apply load_event_loading, loading_update; [solve [auto]|reflexivity] ]
          | ]);
  first [ assumption | apply since_refl
        | match goal with
          | H : since _ _ _ |- _ =>
              eapply since_weaken; [|exact H]; cbv beta; solve [auto]
          end ].

Lemma load_model_spec m w :
  model_lock (mgr w) = false ->
  (forall x, handle_fits (lookup (models (mgr w)) x) = true) ->
  state (lookup (models (mgr w)) m) <> READY ->
  wp (load_model env m)
     (fun o w' =>
        o <> Blocked /\ same_frame w w' /\
        since (trace w) (load_event m (models (mgr w))) (trace w') /\
        (o = Ret true ->
         loading m (models (mgr w')) /\
         state (lookup (models (mgr w')) m) = READY /\
         load_count (lookup (models (mgr w')) m) = load_count (lookup (models (mgr w)) m) + 1 /\
         load_count (lookup (models (mgr w')) (other m)) = load_count (lookup (models (mgr w)) (other m))) /\
        (o <> Ret true -> settling (models (mgr w)) (models (mgr w'))) /\
        (o = Ret false -> forall x, evicted (lookup (models (mgr w')) x) = true) /\
        (since (trace w) (fun e => e <> EvBudget false) (trace w') \/
         (o = Ret false /\
          since (trace w) (fun e => e = EvBudget false \/ evict_event (models (mgr w)) e) (trace w') /\
          (forall x, state (lookup (models (mgr w)) x) = UNLOADED ->
                     lookup (models (mgr w')) x = lookup (models (mgr w)) x)))) w.
Proof.
  intros Hml Hfit Hnr. unfold load_model.
  apply wp_with_model_lock; [congruence|intros _].
  wp_step. wp_step. wp_step.
  { exfalso. destruct (state (lookup (models (mgr w)) m)); cbn in *; congruence. }
  wp_step.
  eapply wp_mono; [apply unload_all_spec|].
  intros o w1 (Hs1 & Hb1 & Hf1 & He1 & Hv1 & Hu1). wsimpl_in_all.
  destruct (Hv1 Hfit) as [Hg1 Hev]. clear Hv1.
  apply same_frame_unlock in Hf1; auto.
  assert (Hs1' : since (trace w) (load_event m (models (mgr w))) (trace w1))
    by (eapply since_weaken; [apply load_event_evict|exact Hs1]).
  assert (Hs1'' : since (trace w) (fun e => e <> EvBudget false) (trace w1)).
  { eapply since_weaken; [|exact Hs1]. intros e (t & -> & _). discriminate. }
  destruct o as [[]|e|]; cbv beta iota; [| |congruence].
  2:{ conj; auto; try discriminate. }
  specialize (Hev eq_refl).
  destruct (evicted_inv _ (Hev m)) as (Hp & _).
  pose proof (evicting_load_count _ _ m He1) as Hcm.
  pose proof (evicting_load_count _ _ (other m) He1) as Hco.
  repeat wp_step.
  all: wsimpl; rewrite ?Hp.
  all: bool_hyps.
  all: conj; try (intros; discriminate); try congruence; try assumption.
  all: try (intros _); conj; try congruence.
  all: try solve [ load_since ].
  all: try solve [ left; load_since
                 | right; split; [reflexivity|split; [load_since|exact Hu1]] ].
  all: try solve [ apply settling_update_evicted; auto ].
  all: try solve [ intros x; destruct m, x; cbn; auto; apply (Hev INSTANTMESH) || apply (Hev SDXL) ].
  all: try solve [ apply loading_update; auto ].
Qed.

End Specs.

(** * The invariant of the slot table *)

Section Inv.
Variable env : Env.

Lemma evict_event_ok t0 e :
  snapshot_ok t0 = true -> evict_event t0 e -> event_ok e = true.
Proof. intros H0 (t & -> & H). cbn. eapply snapshot_ok_evicting; eauto. Qed.

Lemma load_event_ok m t0 e :
  snapshot_ok t0 = true -> load_event m t0 e -> event_ok e = true.
Proof.
  intros H0 [(ok & ->)|(t & -> & [H|H])]; cbn; auto.
  - eapply snapshot_ok_evicting; eauto.
  - eapply loading_snapshot; eauto.
Qed.

Lemma trace_ok_since w w' (P : Event -> Prop) :
  trace_ok w -> since (trace w) P (trace w') ->
  (forall e, P e -> event_ok e = true) -> trace_ok w'.
Proof.
  intros H0 Hs HP. unfold trace_ok. eapply since_Forall; [|exact H0].
  eapply since_weaken; [|exact Hs]. auto.
Qed.

Lemma settled_idle_evicted i :
  settled_info i = true -> is_resident (state i) = false -> evicted i = true.
Proof. unfold settled_info, evicted. destruct (state i), (pipeline i); cbn; congruence. Qed.

Lemma table_ok_other_evicted t m :
  table_ok t -> is_resident (state (lookup t m)) = true ->
  evicted (lookup t (other m)) = true.
Proof.
  intros H Hr. pose proof (proj1 (table_ok_iff t) H) as H'.
  apply settled_idle_evicted; [apply H'|apply H'; auto].
Qed.

Lemma state_eqb_true s s' : ModelState_eqb s s' = true -> s = s'.
Proof. destruct s, s'; cbn; congruence. Qed.

Lemma state_eqb_false s s' : ModelState_eqb s s' = false -> s <> s'.
Proof. destruct s, s'; cbn; congruence. Qed.

Lemma unload_model_good x w :
  Good w ->
  wp (_unload_model env x) (fun o w' => o <> Blocked /\ same_frame w w' /\ Good w') w.
Proof.
  intros (Ht & Hk & Hl).
  eapply wp_mono; [apply unload_model_spec|].
  intros o w' (Hs & Hb & Hf & Hg & He & _).
  unfold Good. conj; auto.
  - eapply trace_ok_since; eauto. intros e. apply evict_event_ok, table_ok_snapshot, Hk.
  - eapply table_ok_settling; eauto. apply Hg, table_ok_fits, Hk.
  - destruct Hf as (_ & -> & _); auto.
Qed.

Lemma unload_all_good w :
  trace_ok w -> table_ok (models (mgr w)) ->
  wp (_unload_all env)
     (fun o w' => o <> Blocked /\ same_frame w w' /\
                  trace_ok w' /\ table_ok (models (mgr w'))) w.
Proof.
  intros Ht Hk.
  eapply wp_mono; [apply unload_all_spec|].
  intros o w' (Hs & Hb & Hf & He & Hg).
  conj; auto.
  - eapply trace_ok_since; eauto. intros e. apply evict_event_ok, table_ok_snapshot, Hk.
  - eapply table_ok_settling; eauto. apply Hg. intros x. apply table_ok_fits, Hk.
Qed.

Lemma shutdown_good w :
  Good w ->
  wp (shutdown env) (fun o w' => o <> Blocked /\ same_frame w w' /\ Good w') w.
Proof.
  intros (Ht & Hk & Hl). unfold shutdown.
  apply wp_with_model_lock; [congruence|intros _].
  eapply wp_mono; [apply unload_all_good; auto|].
  intros o w' (Hb & Hf & Ht' & Hk').
  apply same_frame_unlock in Hf; auto.
  assert (Good (with_mgr (set_model_lock false) w')) by (unfold Good; auto).
  destruct o; auto; congruence.
Qed.

Lemma load_model_good m w :
  Good w ->
  wp (load_model env m)
     (fun o w' =>
        o <> Blocked /\ same_frame w w' /\ Good w' /\
        (o = Ret true ->
         state (lookup (models (mgr w')) m) = READY /\
         evicted (lookup (models (mgr w')) (other m)) = true) /\
        (o = Ret false -> evicted (lookup (models (mgr w')) m) = true)) w.
Proof.
  intros (Ht & Hk & Hl).
  destruct (ModelState_eqb (state (lookup (models (mgr w)) m)) READY) eqn:E.
  - apply state_eqb_true in E.
    unfold wp. rewrite load_model_ready; auto. cbn.
    unfold Good. conj; auto using same_frame_refl; try discriminate.
    intros _. split; auto. apply table_ok_other_evicted; auto. now rewrite E.
  - apply state_eqb_false in E.
    eapply wp_mono; [apply load_model_spec; auto; intros x; apply table_ok_fits, Hk|].
    intros o w' (Hb & Hf & Hs & Ht' & Hg & Hfalse & _).
    unfold Good. conj; auto.
    + eapply trace_ok_since; eauto. intros e. apply load_event_ok, table_ok_snapshot, Hk.
    + destruct o as [[]| |]; try (eapply table_ok_settling; [exact Hk|apply Hg; discriminate]).
      destruct (Ht' eq_refl) as (? & ? & _). eapply loading_table_ok; eauto.
    + destruct Hf as (_ & -> & _); auto.
    + intros ->. destruct (Ht' eq_refl) as ([? ?] & ? & _). auto.
Qed.

End Inv.

(** * Generation operations *)

Ltac use_handles :=
  repeat match goal with
         | H : pipeline _ = _ |- _ => rewrite H
         end;
  cbv beta iota.

Ltac table_tac :=
  wsimpl; use_handles;
  first [ assumption
        | apply table_ok_set_resident; [assumption|eassumption|reflexivity]
        | apply table_ok_set_error; assumption ].

Ltac trace_tac :=
  unfold trace_ok; wsimpl; use_handles;
  repeat (apply Forall_cons;
          [ cbn [event_ok]; first [ reflexivity | apply table_ok_snapshot; table_tac ] | ]);
  assumption.

Ltac good_tac :=
  unfold Good; conj; [ trace_tac | table_tac | wsimpl; congruence ].

Ltac frame_hyps :=
  unfold same_frame in *; wsimpl_in_all;
  repeat match goal with H : _ /\ _ |- _ => destruct H end.

Ltac handle_clash :=
  match goal with
  | H1 : ?x = Some _, H2 : ?x = None |- _ => rewrite H1 in H2; discriminate H2
  end.

Ltac gen_post_tac :=
  unfold gen_post; conj;
  [ good_tac
  | wsimpl; intros ? ?;
    first [ discriminate | congruence | split; reflexivity
          | match goal with
            | He : evicted ?i = true, Hs : state ?i = GENERATING |- _ =>
                apply evicted_inv in He; rewrite Hs in He;
                destruct He as (_ & He & _); discriminate He
            end ]
  | eexists; split;
    [ reflexivity
    | cbn [success failure]; intros; first [ discriminate | wsimpl; congruence ] ]
  | wsimpl; first [ left; congruence | right; congruence ]
  | wsimpl; congruence
  | wsimpl; congruence
  | wsimpl; intros ? Hq;
    first [ reflexivity | congruence
          | match goal with
            | H : intrudes _ _ = true |- _ => rewrite Hq in H; discriminate H
            end ] ].

Ltac ready_handle :=
  match goal with
  | Heq : negb (ModelState_eqb (state (lookup ?t ?m)) READY) = false,
    Hk : table_ok ?t |- _ =>
      let h := fresh "h" in
      let Hh := fresh "Hh" in
      destruct (table_ok_ready_handle t m Hk) as [h Hh];
      [ apply negb_false_iff, state_eqb_true in Heq; rewrite Heq; reflexivity | ]
  end.

Ltac split_handle :=
  match goal with
  | |- context [match pipeline ?i with _ => _ end] => destruct (pipeline i) eqn:?
  end.

Ltac gen_leaf :=
  try ready_handle;
  first [ handle_clash
        | congruence
        | frame_hyps; first [ congruence | use_handles; try split_handle; gen_post_tac ] ].

Section Gen.
Variable env : Env.

Lemma generate_image_spec prompt path wd ht steps w :
  Good w ->
  wp (generate_image env prompt path wd ht steps) (gen_post env SDXL w) w.
Proof.
  intros (Ht & Hk & Hl).
  unfold generate_image, generation_failed, load_sdxl.
  repeat wp_step.
  all: wsimpl_in_all.
  all: try solve [gen_leaf].
  eapply wp_mono; [apply load_model_good; good_tac|].
  intros o w1 (Hb & Hf & (Ht1 & Hk1 & Hl1) & Hr & Hrf).
  destruct o as [[]|e|]; cbv beta iota; [| | |congruence].
  - destruct (Hr eq_refl) as [Hr1 Hr2].
    destruct (table_ok_ready_handle _ SDXL Hk1) as [h Hh]; [now rewrite Hr1|].
    repeat wp_step.
    all: wsimpl_in_all.
    all: solve [gen_leaf].
  - specialize (Hrf eq_refl).
    repeat wp_step.
    all: wsimpl_in_all.
    all: solve [gen_leaf].
  - repeat wp_step.
    all: wsimpl_in_all.
    all: solve [gen_leaf].
Qed.

Lemma generate_mesh_spec image_data path w :
  Good w ->
  wp (generate_mesh env image_data path) (gen_post env INSTANTMESH w) w.
Proof.
  intros (Ht & Hk & Hl).
  unfold generate_mesh, generation_failed, load_instantmesh.
  repeat wp_step.
  all: wsimpl_in_all.
  all: try solve [gen_leaf].
  eapply wp_mono; [apply load_model_good; good_tac|].
  intros o w1 (Hb & Hf & (Ht1 & Hk1 & Hl1) & Hr & Hrf).
  destruct o as [[]|e|]; cbv beta iota; [| | |congruence].
  - destruct (Hr eq_refl) as [Hr1 Hr2].
    destruct (table_ok_ready_handle _ INSTANTMESH Hk1) as [h Hh]; [now rewrite Hr1|].
    repeat wp_step.
    all: wsimpl_in_all.
    all: solve [gen_leaf].
  - specialize (Hrf eq_refl).
    repeat wp_step.
    all: wsimpl_in_all.
    all: solve [gen_leaf].
  - repeat wp_step.
    all: wsimpl_in_all.
    all: solve [gen_leaf].
Qed.
End Gen.

(** * The pipeline *)

Ltac success_hyps :=
  repeat match goal with
         | H : negb (success _) = true |- _ => apply negb_true_iff in H
         | H : negb (success _) = false |- _ => apply negb_false_iff in H
         end;
  repeat match goal with
         | H : success ?r = true -> _, H' : success ?r = true |- _ =>
             specialize (H H')
         end.

Ltac pipe_post_tac :=
  unfold pipeline_post; conj;
  [ good_tac
  | intros ?; discriminate
  | wsimpl; cbn [reported stage_ok stages_image stages_mesh];
    repeat match goal with H : success _ = _ |- _ => rewrite H end; lia
  | wsimpl; congruence
  | wsimpl; congruence ].

Ltac pipe_leaf :=
  success_hyps;
  first [ congruence
        | frame_hyps; first [ congruence | pipe_post_tac ] ].

Ltac after_gen lemma :=
  eapply wp_mono; [apply lemma; good_tac|];
  intros ? ? ((? & ? & ?) & _ & (? & -> & ?) & ? & ? & ? & ?);
  cbv beta iota.

Section Pipe.
Variable env : Env.

Lemma generate_full_pipeline_spec prompt dir steps w :
  Good w ->
  wp (generate_full_pipeline env prompt dir steps) (pipeline_post w) w.
Proof.
  intros (Ht & Hk & Hl).
  unfold generate_full_pipeline.
  repeat wp_step.
  all: wsimpl_in_all.
  all: try solve [pipe_leaf].
  all: after_gen generate_image_spec; repeat wp_step; wsimpl_in_all.
  all: try solve [pipe_leaf].
  all: after_gen generate_mesh_spec; repeat wp_step; wsimpl_in_all.
  all: solve [pipe_leaf].
Qed.
End Pipe.

(** * What the operations log *)

Ltac log_conses :=
  repeat (apply since_cons; [ first [ exact I | reflexivity ] | ]).

Ltac log_tac :=
  wsimpl; log_conses;
  first [ apply since_refl
        | match goal with
          | H : since ?tr0 _ ?tr |- since ?tr00 _ ?tr =>
              apply (since_trans tr00 _ tr0);
              [ log_conses; apply since_refl
              | eapply since_weaken; [|exact H]; cbv beta;
                let e := fresh "e" in
                intros e; destruct e; cbn; try tauto;
                try (intros (? & ? & ?); discriminate) ]
          end ].

Section Logs.
Variable env : Env.

Lemma evict_event_table t0 e : evict_event t0 e -> table_event e.
Proof. intros (t & -> & _). exact I. Qed.

Lemma load_model_log m w :
  wp (load_model env m) (fun _ w' => since (trace w) table_event (trace w')) w.
Proof.
  unfold load_model.
  apply wp_with_model_lock; [intros _; apply since_refl|intros _].
  wp_step. wp_step. wp_step.
  { wp_step. log_tac. }
  wp_step.
  eapply wp_mono; [apply unload_all_spec|].
  intros o w1 (Hs1 & _). wsimpl_in_all.
  apply (since_weaken _ _ table_event) in Hs1; [|apply evict_event_table].
  destruct o as [[]|e|]; cbv beta iota; try assumption.
  repeat wp_step.
  all: log_tac.
Qed.

Lemma generate_image_log prompt path wd ht steps w :
  wp (generate_image env prompt path wd ht steps)
     (fun _ w' => since (trace w) (image_event path) (trace w')) w.
Proof.
  unfold generate_image, generation_failed, load_sdxl.
  repeat wp_step.
  all: try solve [log_tac].
  eapply wp_mono; [apply load_model_log|].
  intros o w1 Hs. wsimpl_in_all.
  destruct o as [[]|e|]; cbv beta iota.
  all: repeat wp_step.
  all: solve [log_tac].
Qed.

Lemma generate_mesh_log image_data path w :
  wp (generate_mesh env image_data path)
     (fun _ w' => since (trace w) (mesh_event path) (trace w')) w.
Proof.
  unfold generate_mesh, generation_failed, load_instantmesh.
  repeat wp_step.
  all: try solve [log_tac].
  eapply wp_mono; [apply load_model_log|].
  intros o w1 Hs. wsimpl_in_all.
  destruct o as [[]|e|]; cbv beta iota.
  all: repeat wp_step.
  all: solve [log_tac].
Qed.

End Logs.

(** * The happy path *)

Lemma round_half_even_pos (x : Q) : (1 # 2 < x)%Q -> 1 <= round_half_even x.
Proof.
  intros Hx. unfold round_half_even.
  assert (H0 : 0 <= Qfloor x).
  { change 0 with (Qfloor 0). apply Qfloor_resp_le. lra. }
  destruct (Z.eq_dec (Qfloor x) 0) as [E|E].
  - rewrite E. 
    assert (Hc : (x - inject_Z 0 ?= 1 # 2)%Q = Gt).
    { apply Qgt_alt. unfold inject_Z. lra. }
    rewrite Hc. lia.
  - destruct (x - inject_Z (Qfloor x) ?= 1 # 2)%Q; try lia.
    destruct (Z.even (Qfloor x)); lia.
Qed.

Lemma round2_pos (q : Q) : (1 # 200 < q)%Q -> (0 < round2 q)%Q.
Proof.
  intros Hq. unfold round2.
  assert (H : 1 <= round_half_even (q * inject_Z 100)).
  { apply round_half_even_pos. unfold inject_Z. lra. }
  assert (H' : (1 <= inject_Z (round_half_even (q * inject_Z 100)))%Q).
  { change 1%Q with (inject_Z 1). rewrite <- Zle_Qle. exact H. }
  apply Qlt_shift_div_l; [reflexivity|]. lra.
Qed.

Ltac happy_clash :=
  match goal with
  | H : cuda_clear ?env ?n = Some _, Hh : forall n, cuda_clear ?env n = None |- _ =>
      rewrite Hh in H; discriminate H
  | H : io ?env ?n = Some _, Hh : forall n, io ?env n = None |- _ =>
      rewrite Hh in H; discriminate H
  | H : from_pretrained ?env ?m ?n = inl _,
    Hh : forall m n, ok_result (from_pretrained ?env m n) = true |- _ =>
      specialize (Hh m n); rewrite H in Hh; discriminate Hh
  | H : stat_size ?env ?n = inl _,
    Hh : forall n, ok_result (stat_size ?env n) = true |- _ =>
      specialize (Hh n); rewrite H in Hh; discriminate Hh
  | H : call_sdxl ?env ?n = _,
    Hh : forall n, match call_sdxl ?env n with _ => _ end = true |- _ =>
      specialize (Hh n); rewrite H in Hh;
      repeat match goal with E : Nat.eqb _ _ = _ |- _ => rewrite E in Hh end;
      discriminate Hh
  | H : call_instantmesh ?env ?n = _,
    Hh : forall n, match call_instantmesh ?env n with _ => _ end = true |- _ =>
      specialize (Hh n); rewrite H in Hh; unfold recognized in Hh;
      repeat match goal with E : _ = false |- _ => rewrite E in Hh end;
      discriminate Hh
  | H : intrudes ?env ?n = true, Hh : quiet ?env |- _ =>
      rewrite Hh in H; discriminate H
  end.

Section Happy.
Variable env : Env.
Variable buffer_gb : Q.
Hypothesis Hback : backends_succeed env buffer_gb.

Lemma unload_model_happy x w :
  wp (_unload_model env x)
     (fun o w' =>
        o = Ret tt /\ same_frame w w' /\
        lookup (models (mgr w')) (other x) = lookup (models (mgr w)) (other x) /\
        state (lookup (models (mgr w')) x) = UNLOADED) w.
Proof.
  destruct Hback as (Hc & _).
  unfold _unload_model.
  repeat wp_step.
  all: try happy_clash.
  all: unfold same_frame; wsimpl; conj; try reflexivity.
  apply state_eqb_true; assumption.
Qed.

Lemma unload_all_happy w :
  wp (_unload_all env)
     (fun o w' =>
        o = Ret tt /\ same_frame w w' /\
        forall x, state (lookup (models (mgr w')) x) = UNLOADED) w.
Proof.
  unfold _unload_all. wp_step.
  eapply wp_mono; [apply unload_model_happy|].
  intros o w1 (-> & Hf1 & Ho1 & Hs1). cbv beta iota.
  eapply wp_mono; [apply unload_model_happy|].
  intros o w2 (-> & Hf2 & Ho2 & Hs2). cbn in Ho1, Ho2.
  conj; eauto using same_frame_trans.
  intros []; cbn; auto. rewrite Ho2. exact Hs1.
Qed.

Lemma load_model_happy m w :
  model_lock (mgr w) = false ->
  vram_buffer_gb (mgr w) = buffer_gb ->
  wp (load_model env m)
     (fun o w' =>
        o = Ret true /\ same_frame w w' /\
        state (lookup (models (mgr w')) m) = READY /\
        (state (lookup (models (mgr w)) m) <> READY ->
         state (lookup (models (mgr w')) (other m)) = UNLOADED)) w.
Proof.
  intros Hl Hbuf.
  destruct (ModelState_eqb (state (lookup (models (mgr w)) m)) READY) eqn:E.
  - apply state_eqb_true in E.
    unfold wp. rewrite load_model_ready; auto. cbn.
    conj; auto using same_frame_refl. congruence.
  - destruct Hback as (Hc & Hio & Hfp & Hsd & Him & Hst & Hbu).
    unfold load_model.
    apply wp_with_model_lock; [congruence|intros _].
    wp_step. wp_step. wsimpl. rewrite E. cbv iota. wp_step.
    eapply wp_mono; [apply unload_all_happy|].
    intros o w1 (-> & Hf1 & Hs1). cbv beta iota.
    apply same_frame_unlock in Hf1; auto.
    repeat wp_step.
    all: try happy_clash.
    all: frame_hyps.
    all: try match goal with
             | H0 : ?ok = budget_ok ?b _ _, Hn : negb ?ok = true |- _ =>
                 exfalso; replace b with buffer_gb in H0 by congruence;
                 rewrite Hbu in H0; subst ok; discriminate Hn
             end.
    all: conj; try reflexivity; try congruence.
    all: intros _; apply Hs1.
Qed.

Lemma wp_conj {A} (m : M A) (Q1 Q2 : Outcome A -> World -> Prop) w :
  wp m Q1 w -> wp m Q2 w -> wp m (fun o w' => Q1 o w' /\ Q2 o w') w.
Proof. unfold wp; auto. Qed.

Hypothesis Hquiet : quiet env.
Hypothesis Hclock : clock_advances env.

Ltac elapsed_tac :=
  match goal with
  | |- (0 < round2 (clock ?e ?b - clock ?e ?a))%Q =>
      apply round2_pos;
      let H := fresh in
      assert (H : (a < b)%nat) by lia;
      apply Hclock in H; lra
  end.

Ltac gen_happy_tac :=
  unfold gen_happy; eexists; conj;
  [ reflexivity | reflexivity | reflexivity
  | eexists; split; [reflexivity|elapsed_tac]
  | wsimpl; reflexivity
  | wsimpl;
    first [ assumption
          | intros Hne; exfalso; apply Hne, state_eqb_true, negb_false_iff; assumption
          | intros; congruence | auto ]
  | wsimpl; reflexivity
  | wsimpl; congruence ].

Ltac gen_happy_leaf :=
  try ready_handle;
  first [ happy_clash | handle_clash | congruence
        | frame_hyps; first [ congruence | gen_happy_tac ] ].

Ltac exists_pipeline :=
  unfold pipeline_happy_post; do 3 eexists; conj;
  try reflexivity; try assumption; wsimpl; auto.

Ltac happy_load m :=
  lazymatch goal with
  | |- wp (load_model _ _) _ _ =>
      eapply wp_mono;
      [ apply wp_conj;
        [ apply load_model_good; good_tac
        | apply load_model_happy; wsimpl; congruence ] | ];
      let o := fresh "o" in
      let w1 := fresh "w" in
      let Hk1 := fresh "Hk" in
      let Hr1 := fresh "Hr" in
      intros o w1 ((? & ? & (? & Hk1 & ?) & ?) & (-> & _ & Hr1 & ?));
      cbv beta iota;
      let h := fresh "h" in
      let Hh := fresh "Hh" in
      destruct (table_ok_ready_handle _ m Hk1) as [h Hh]; [now rewrite Hr1|];
      repeat wp_step; wsimpl_in_all
  end.

Lemma generate_image_happy prompt path wd ht steps w :
  Good w -> generation_lock (mgr w) = false ->
  vram_buffer_gb (mgr w) = buffer_gb ->
  wp (generate_image env prompt path wd ht steps) (gen_happy buffer_gb SDXL path w) w.
Proof.
  intros (Ht & Hk & Hl) Hg Hbuf.
  destruct Hback as (Hc & Hio & Hfp & Hsd & Him & Hst & Hbu).
  unfold generate_image, generation_failed, load_sdxl.
  repeat wp_step.
  all: wsimpl_in_all.
  all: try solve [gen_happy_leaf].
  happy_load SDXL.
  all: solve [gen_happy_leaf].
Qed.

Lemma generate_mesh_happy image_data path w :
  Good w -> generation_lock (mgr w) = false ->
  vram_buffer_gb (mgr w) = buffer_gb ->
  wp (generate_mesh env image_data path) (gen_happy buffer_gb INSTANTMESH path w) w.
Proof.
  intros (Ht & Hk & Hl) Hg Hbuf.
  destruct Hback as (Hc & Hio & Hfp & Hsd & Him & Hst & Hbu).
  unfold generate_mesh, generation_failed, load_instantmesh.
  repeat wp_step.
  all: wsimpl_in_all.
  all: try solve [gen_happy_leaf].
  happy_load INSTANTMESH.
  all: solve [gen_happy_leaf].
Qed.

Lemma table_ok_other_not_ready t m :
  table_ok t -> state (lookup t m) = READY -> state (lookup t (other m)) <> READY.
Proof.
  intros H Hr Ho. apply table_ok_iff with (m := m) in H. destruct H as [_ H].
  rewrite Hr, Ho in H. specialize (H eq_refl). discriminate.
Qed.

Lemma generate_full_pipeline_happy prompt dir steps w :
  Good w -> generation_lock (mgr w) = false ->
  vram_buffer_gb (mgr w) = buffer_gb ->
  wp (generate_full_pipeline env prompt dir steps) (pipeline_happy_post dir) w.
Proof.
  intros (Ht & Hk & Hl) Hg Hbuf.
  pose proof Hback as (Hc & Hio & Hfp & Hsd & Him & Hst & Hbu).
  unfold generate_full_pipeline.
  repeat wp_step.
  all: wsimpl_in_all.
  all: try solve [happy_clash | congruence].
  eapply wp_mono;
    [ apply wp_conj;
      [ apply generate_image_spec; good_tac
      | apply generate_image_happy; [good_tac|reflexivity|exact Hbuf] ] | ].
  intros o w1 (((Ht1 & Hk1 & Hl1) & _) & (r1 & -> & Hs1 & _ & Htime1 & Hst1 & _ & Hg1 & Hb1)).
  cbv beta iota. rewrite Hs1. cbn [negb].
  repeat wp_step.
  all: wsimpl_in_all.
  all: try solve [happy_clash | congruence].
  eapply wp_mono;
    [ apply wp_conj;
      [ apply generate_mesh_spec; good_tac
      | apply generate_mesh_happy; [good_tac|reflexivity|exact Hb1] ] | ].
  intros o w2 (((Ht2 & Hk2 & Hl2) & _) & (r2 & -> & Hs2 & _ & Htime2 & Hst2 & Hoth & Hg2 & Hb2)).
  wsimpl_in_all.
  cbv beta iota. rewrite Hs2. cbn [negb].
  repeat wp_step.
  all: wsimpl_in_all.
  all: try solve [happy_clash | congruence].
  exists_pipeline.
  apply Hoth. apply (table_ok_other_not_ready _ SDXL); assumption.
Qed.

End Happy.

(** * Stage A fails *)



Lemma wp_any {A} (m : M A) w : wp m (fun _ _ => True) w.
Proof. exact I. Qed.



Ltac quiet_lock :=
  repeat match goal with
         | H : ?a = ?a -> quiet _ -> _, Hq : quiet _ |- _ =>
             specialize (H eq_refl Hq)
         end.

Section StageA.
Variable env : Env.


Lemma generate_full_pipeline_returns prompt dir steps w :
  Good w -> quiet env ->
  wp (generate_full_pipeline env prompt dir steps)
     (fun o _ => exists res, o = Ret res) w.
Proof.
  intros (Ht & Hk & Hl) Hq.
  unfold generate_full_pipeline.
  repeat wp_step.
  all: wsimpl_in_all.
  all: try solve [eexists; reflexivity | happy_clash | congruence].
  all: after_gen generate_image_spec; repeat wp_step; wsimpl_in_all.
  all: quiet_lock.
  all: try solve [eexists; reflexivity | happy_clash | congruence].
  all: after_gen generate_mesh_spec; repeat wp_step; wsimpl_in_all.
  all: quiet_lock.
  all: solve [eexists; reflexivity | happy_clash | congruence].
Qed.

End StageA.

(** * The stages of the pipeline *)

Lemma Good_released i w0 : Good w0 -> Good (released i w0).
Proof.
  unfold Good, trace_ok, released. intros (Ht & Hk & Hl).
  destruct i; cbn; repeat split; try apply Hk; auto.
Qed.

Lemma Good_acquired b w0 : Good w0 -> Good (acquired b w0).
Proof.
  unfold Good, trace_ok, acquired. intros (Ht & Hk & Hl).
  cbn; repeat split; try apply Hk; auto.
Qed.

Lemma Good_bump w0 : Good w0 -> Good (bump w0).
Proof. unfold Good, trace_ok. cbn. auto. Qed.

Lemma Good_log_call op w0 : Good w0 -> Good (log (EvCall op) w0).
Proof.
  unfold Good, trace_ok. intros (Ht & Hk & Hl). cbn; repeat split; try apply Hk; auto.
Qed.

Lemma before_stage_b_eq env wa :
  generation_lock (mgr wa) = false ->
  before_stage_b env wa
  = (Ret tt, released (intrudes env (tick wa)) (acquired true wa)).
Proof.
  intros Hl.
  unfold before_stage_b, bind, acquire_generation, release_generation, released, acquired.
  rewrite Hl. cbn. destruct (intrudes env (tick wa)); reflexivity.
Qed.

Section Stages.
Variable env : Env.
Variables (prompt dir : string) (steps : Z) (w : World).
Hypothesis Hfree : generation_lock (mgr w) = false.
Hypothesis Hmkdir : io env (tick w) = None.

Lemma before_stage_a_eq :
  before_stage_a env w
  = (Ret tt,
     released (intrudes env (S (S (tick w))))
       (bump (bump (acquired false (log (EvCall GENERATE_FULL_PIPELINE) w))))).
Proof.
  unfold before_stage_a, bind, emit, acquire_generation, io_call, ext_unit,
    time_time, ext, release_generation, released, acquired.
  cbn. rewrite Hfree. cbn. rewrite Hmkdir. cbn.
  destruct (intrudes env (S (S (tick w)))); reflexivity.
Qed.

Lemma before_stage_a_good : Good w -> Good (snd (before_stage_a env w)).
Proof.
  intros HG. rewrite before_stage_a_eq. cbn [snd].
  apply Good_released, Good_bump, Good_bump, Good_acquired, Good_log_call, HG.
Qed.

Ltac run_to_stage_a :=
  unfold stage_a; rewrite before_stage_a_eq; cbn [snd];
  unfold generate_full_pipeline;
  unfold bind, finally, try_except, emit, acquire_generation, io_call, ext_unit,
    time_time, ext, release_generation, released, acquired in *;
  cbn -[generate_image generate_mesh] in *;
  rewrite Hfree; cbn -[generate_image generate_mesh];
  rewrite Hmkdir; cbn -[generate_image generate_mesh].

(** The lock is held by another caller when stage 1 has returned: the
    pipeline parks at its first reacquisition. *)
Lemma pipeline_parks_after_stage_a r1 :
  fst (stage_a env prompt dir steps w) = Ret r1 ->
  generation_lock (mgr (snd (stage_a env prompt dir steps w))) = true ->
  generate_full_pipeline env prompt dir steps w
  = (Blocked, log (EvAcquire true false) (snd (stage_a env prompt dir steps w))).
Proof.
  run_to_stage_a. intros Ha Hl.
  destruct (intrudes env (S (S (tick w)))); cbn -[generate_image generate_mesh] in *.
  all: destruct (generate_image _ _ _ _ _ _ _) as [o wa]; cbn in Ha, Hl; subst o.
  all: cbn; rewrite Hl; reflexivity.
Qed.

(** Stage 1 returned a failure and the lock is free: the pipeline takes the
    lock, returns the failure of the image stage and releases the lock. *)
Lemma pipeline_fails_after_stage_a r1 :
  fst (stage_a env prompt dir steps w) = Ret r1 ->
  generation_lock (mgr (snd (stage_a env prompt dir steps w))) = false ->
  success r1 = false ->
  generate_full_pipeline env prompt dir steps w
  = (Ret (image_stage_failed r1),
     released (intrudes env (tick (snd (stage_a env prompt dir steps w))))
              (acquired true (snd (stage_a env prompt dir steps w)))).
Proof.
  run_to_stage_a. intros Ha Hl Hs.
  destruct (intrudes env (S (S (tick w)))); cbn -[generate_image generate_mesh] in *.
  all: destruct (generate_image _ _ _ _ _ _ _) as [o wa]; cbn in Ha, Hl; subst o.
  all: cbn; rewrite Hl, Hs; cbn.
  all: destruct (intrudes env (tick wa)); reflexivity.
Qed.

Ltac run_to_stage_b Ha Hl :=
  unfold stage_b; rewrite (before_stage_b_eq env _ Hl); cbn [snd];
  revert Ha Hl; run_to_stage_a.

(** Stage 1 succeeded, stage 2 has returned and the lock is held by another
    caller: the pipeline parks at its second reacquisition. *)
Lemma pipeline_parks_after_stage_b r1 r2 :
  fst (stage_a env prompt dir steps w) = Ret r1 ->
  generation_lock (mgr (snd (stage_a env prompt dir steps w))) = false ->
  success r1 = true ->
  fst (stage_b env prompt dir steps w) = Ret r2 ->
  generation_lock (mgr (snd (stage_b env prompt dir steps w))) = true ->
  generate_full_pipeline env prompt dir steps w
  = (Blocked, log (EvAcquire true false) (snd (stage_b env prompt dir steps w))).
Proof.
  intros Ha Hl Hs. run_to_stage_b Ha Hl.
  destruct (intrudes env (S (S (tick w)))); cbn -[generate_image generate_mesh] in *.
  all: destruct (generate_image _ _ _ _ _ _ _) as [o wa]; cbn [fst snd]; intros -> Hl.
  all: cbn -[generate_mesh]; rewrite Hl, Hs; cbn -[generate_mesh].
  all: destruct (intrudes env (tick wa)); cbn -[generate_mesh].
  all: destruct (generate_mesh _ _ _ _) as [o wb]; cbn [fst snd]; intros -> Hlb.
  all: cbn; rewrite Hlb; reflexivity.
Qed.

(** Stage 1 succeeded, stage 2 has returned and the lock is free: the
    pipeline returns a result. *)
Lemma pipeline_returns_after_stage_b r1 r2 :
  fst (stage_a env prompt dir steps w) = Ret r1 ->
  generation_lock (mgr (snd (stage_a env prompt dir steps w))) = false ->
  success r1 = true ->
  fst (stage_b env prompt dir steps w) = Ret r2 ->
  generation_lock (mgr (snd (stage_b env prompt dir steps w))) = false ->
  exists res, fst (generate_full_pipeline env prompt dir steps w) = Ret res.
Proof.
  intros Ha Hl Hs. run_to_stage_b Ha Hl.
  destruct (intrudes env (S (S (tick w)))); cbn -[generate_image generate_mesh] in *.
  all: destruct (generate_image _ _ _ _ _ _ _) as [o wa]; cbn [fst snd]; intros -> Hl.
  all: cbn -[generate_mesh]; rewrite Hl, Hs; cbn -[generate_mesh].
  all: destruct (intrudes env (tick wa)); cbn -[generate_mesh].
  all: destruct (generate_mesh _ _ _ _) as [o wb]; cbn [fst snd]; intros -> Hlb.
  all: cbn; rewrite Hlb; cbn.
  all: destruct (success r2); cbn.
  all: repeat match goal with
              | |- context [intrudes env ?n] => destruct (intrudes env n); cbn
              end.
  all: eexists; reflexivity.
Qed.

Lemma stage_a_returns :
  Good w ->
  exists r1, fst (stage_a env prompt dir steps w) = Ret r1 /\
             Good (snd (stage_a env prompt dir steps w)).
Proof.
  intros HG. unfold stage_a.
  pose proof (generate_image_spec env prompt (path_join dir "generated_image.png")
                1024 1024 steps _ (before_stage_a_good HG)) as H.
  unfold wp in H.
  destruct (generate_image _ _ _ _ _ _ _) as [o wa]. cbn [fst snd] in *.
  destruct H as (HG' & _ & (r & -> & _) & _). eauto.
Qed.

Lemma stage_b_returns :
  Good (snd (stage_a env prompt dir steps w)) ->
  generation_lock (mgr (snd (stage_a env prompt dir steps w))) = false ->
  exists r2, fst (stage_b env prompt dir steps w) = Ret r2.
Proof.
  intros HG Hl. unfold stage_b. rewrite (before_stage_b_eq env _ Hl). cbn [snd].
  pose proof (generate_mesh_spec env (ImagePath (path_join dir "generated_image.png"))
                (path_join dir "generated_mesh.glb") _
                (Good_released (intrudes env (tick (snd (stage_a env prompt dir steps w))))
                               _ (Good_acquired true _ HG))) as H.
  unfold wp in H.
  destruct (generate_mesh _ _ _ _) as [o wb]. cbn [fst snd] in *.
  destruct H as (_ & _ & (r & -> & _) & _). eauto.
Qed.


End Stages.

(** * Runs *)

Section Runs.
Variable env : Env.

Lemma init_good buffer_gb threshold : Good (init_world buffer_gb threshold).
Proof.
  unfold Good, trace_ok, table_ok. cbn. repeat split; auto.
Qed.

Lemma run_op_good op w :
  Good w ->
  Good (run_op env op w) /\
  generation_count (mgr w) + op_generations env op w
    <= generation_count (mgr (run_op env op w)) /\
  restart_threshold (mgr (run_op env op w)) = restart_threshold (mgr w).
Proof.
  intros HG.
  destruct op as [ | | m | | | image_data path | prompt path wd ht steps
                 | prompt dir steps | ]; cbn [run_op op_generations].
  - pose proof (load_model_good env INSTANTMESH w HG) as (_ & Hf & HG' & _).
    unfold load_instantmesh. destruct Hf as (_ & _ & Hc & _ & _ & Hr). split; [auto|lia].
  - pose proof (load_model_good env SDXL w HG) as (_ & Hf & HG' & _).
    unfold load_sdxl. destruct Hf as (_ & _ & Hc & _ & _ & Hr). split; [auto|lia].
  - pose proof (unload_model_good env m w HG) as (_ & Hf & HG').
    destruct Hf as (_ & _ & Hc & _ & _ & Hr). split; [auto|lia].
  - destruct HG as (Ht & Hk & Hl).
    pose proof (unload_all_good env w Ht Hk) as (_ & Hf & Ht' & Hk').
    destruct Hf as (_ & Hl' & Hc & _ & _ & Hr).
    split; [unfold Good; intuition congruence|lia].
  - pose proof (shutdown_good env w HG) as (_ & Hf & HG').
    destruct Hf as (_ & _ & Hc & _ & _ & Hr). split; [auto|lia].
  - pose proof (generate_mesh_spec env image_data path w HG)
      as (HG' & _ & (r & Hr & Hs) & Hc & Ht & _).
    split; auto. split; auto. rewrite Hr. destruct (success r); [rewrite Hs by auto|]; lia.
  - pose proof (generate_image_spec env prompt path wd ht steps w HG)
      as (HG' & _ & (r & Hr & Hs) & Hc & Ht & _).
    split; auto. split; auto. rewrite Hr. destruct (success r); [rewrite Hs by auto|]; lia.
  - pose proof (generate_full_pipeline_spec env prompt dir steps w HG)
      as (HG' & _ & Hc & Ht & _).
    auto.
  - unfold get_status, bind, get_vram_info, ext, ret. cbn.
    destruct HG as (Ht & Hk & Hl). unfold Good. split; [auto|lia].
Qed.

Lemma run_ops_good ops : forall w,
  Good w ->
  Good (run_ops env ops w) /\
  generation_count (mgr w) + successful_generations env ops w
    <= generation_count (mgr (run_ops env ops w)) /\
  restart_threshold (mgr (run_ops env ops w)) = restart_threshold (mgr w).
Proof.
  induction ops as [|op ops IH]; intros w HG; cbn.
  - split; [auto|lia].
  - destruct (run_op_good op w HG) as (HG1 & Hc1 & Hr1).
    destruct (IH _ HG1) as (HG2 & Hc2 & Hr2).
    fold (run_ops env ops (run_op env op w)).
    split; [auto|]. split; [lia|congruence].
Qed.

End Runs.

(** * The claims *)

(** ** C1: single residency *)

Lemma load_model_evicts env m w new o w' :
  Good w ->
  load_model env m w = (o, w') -> trace w' = new ++ trace w ->
  (forall t, In (EvModels t) new -> state (lookup t m) = READY ->
             evicted (lookup t (other m)) = true) /\
  (o = Ret true ->
   state (lookup (models (mgr w')) m) = READY /\
   evicted (lookup (models (mgr w')) (other m)) = true).
Proof.
  intros HG Hrun Htr. pose proof HG as (Ht & Hk & Hl).
  pose proof (load_model_good env m w HG) as Hgood.
  unfold wp in Hgood. rewrite Hrun in Hgood. cbn in Hgood.
  split; [|apply Hgood].
  destruct (ModelState_eqb (state (lookup (models (mgr w)) m)) READY) eqn:E.
  - apply state_eqb_true in E. rewrite load_model_ready in Hrun by auto.
    injection Hrun as <- <-.
    assert (new = []) as -> by (apply (app_inv_tail (trace w)); auto).
    intros t [].
  - apply state_eqb_false in E.
    pose proof (load_model_spec env m w Hl (fun x => table_ok_fits _ x Hk) E) as Hs.
    unfold wp in Hs. rewrite Hrun in Hs. cbn in Hs.
    destruct Hs as (_ & _ & Hs & _). rewrite Htr in Hs. apply since_new in Hs.
    rewrite Forall_forall in Hs.
    intros t Hin Hr. destruct (Hs _ Hin) as [(ok & Hok)|(t' & Heq & [He|Hload])].
    + discriminate.
    + injection Heq as <-. exfalso. apply E.
      rewrite <- (evicting_info_resident _ _ (He m)); auto. now rewrite Hr.
    + injection Heq as <-. apply Hload.
Qed.

(** C1. Single residency (I1).  Take any environment and any sequence of
    load, unload, evict, shutdown, generate and status operations from the
    initial all-unloaded table.  Every snapshot of the slot table taken
    after a write, and the table left at the end, has at most one slot in
    READY or GENERATING.  A load run from there logs no snapshot in which
    the loaded slot is READY while the other slot is anything but evicted
    (UNLOADED or ERROR, handle None); when it returns True the loaded slot is
    READY and the other one evicted. *)
Theorem single_residency_I1 (env : Env) (buffer_gb : Q) (threshold : Z) (ops : list Op) :
  let w := run_ops env ops (init_world buffer_gb threshold) in
  (forall t, In (EvModels t) (trace w) -> single_residency t = true) /\
  single_residency (models (mgr w)) = true /\
  (forall m new o w',
     load_model env m w = (o, w') -> trace w' = new ++ trace w ->
     (forall t, In (EvModels t) new -> state (lookup t m) = READY ->
                evicted (lookup t (other m)) = true) /\
     (o = Ret true ->
      state (lookup (models (mgr w')) m) = READY /\
      evicted (lookup (models (mgr w')) (other m)) = true)).
Proof.
  intros w.
  destruct (run_ops_good env ops _ (init_good buffer_gb threshold)) as (HG & _).
  fold w in HG. pose proof HG as (Ht & Hk & Hl).
  split; [|split].
  - intros t Hin. unfold trace_ok in Ht. rewrite Forall_forall in Ht.
    specialize (Ht _ Hin). cbn in Ht. unfold snapshot_ok in Ht.
    apply andb_prop in Ht as [Ht _]. apply andb_prop in Ht as [Ht _]. exact Ht.
  - apply Hk.
  - intros m new o w' Hrun Htr. eapply load_model_evicts; eauto.
Qed.

Lemma single_residency_I1_witness :
  let w := run_ops happy_env image_then_mesh_load fresh_world in
  let r := load_model happy_env INSTANTMESH w in
  state (lookup (models (mgr w)) SDXL) = READY /\
  state (lookup (models (mgr (snd r))) INSTANTMESH) = READY /\
  evicted (lookup (models (mgr (snd r))) (other INSTANTMESH)) = true.
Proof.
  split; [reflexivity|].
  refine (proj2 (proj2 (proj2 (single_residency_I1 happy_env 2 20 image_then_mesh_load))
                   INSTANTMESH
                   (added (run_ops happy_env image_then_mesh_load fresh_world)
                          (snd (load_model happy_env INSTANTMESH
                                  (run_ops happy_env image_then_mesh_load fresh_world))))
                   (Ret true) _ _ _) _);
    vm_compute; reflexivity.
Defined.

(** ** C4: handle/state coupling *)




(** ** C3: Busy to Ready on compute return *)

(** C3.  [generate_mesh] on a fresh manager, with an InstantMesh result that
    has none of the attributes meshes, mesh, vertices and faces: the compute
    call returned, the operation returns the failure 'Model output format not
    recognized', and the InstantMesh slot is left in GENERATING. *)
Theorem generate_mesh_leaves_generating :
  let r := generate_mesh odd_output_env (ImagePath "in.png") "out.glb" fresh_world in
  fst r = Ret (failure "Model output format not recognized") /\
  state (lookup (models (mgr (snd r))) INSTANTMESH) = GENERATING /\
  pipeline (lookup (models (mgr (snd r))) INSTANTMESH) <> None /\
  generation_lock (mgr (snd r)) = false.
Proof. vm_compute. repeat split. discriminate. Qed.

(** ** C6: the busy outcome preserves the state *)

(** C6.  While the generation lock is held, each of [generate_mesh],
    [generate_image] and [generate_full_pipeline] returns its 'Another
    generation is in progress' failure without any external call ([tick]
    unchanged) and leaves the manager as it was: every slot's state, handle
    and load_count, both locks, generation_count and total_generation_time. *)
Theorem busy_outcome_preserves_state (env : Env) (w : World) :
  generation_lock (mgr w) = true ->
  (forall image_data path,
     let r := generate_mesh env image_data path w in
     fst r = Ret (failure busy) /\ mgr (snd r) = mgr w /\ tick (snd r) = tick w) /\
  (forall prompt path wd ht steps,
     let r := generate_image env prompt path wd ht steps w in
     fst r = Ret (failure busy) /\ mgr (snd r) = mgr w /\ tick (snd r) = tick w) /\
  (forall prompt dir steps,
     let r := generate_full_pipeline env prompt dir steps w in
     fst r = Ret busy_pipeline_result /\ mgr (snd r) = mgr w /\ tick (snd r) = tick w).
Proof.
  intros H. repeat split;
    unfold generate_mesh, generate_image, generate_full_pipeline,
           bind, emit, acquire_generation; cbn; rewrite H; reflexivity.
Qed.

Lemma busy_outcome_preserves_state_witness :
  fst (generate_mesh happy_env (ImagePath "in.png") "out.glb" busy_world)
  = Ret (failure busy).
Proof.
  exact (proj1 (proj1 (busy_outcome_preserves_state happy_env busy_world eq_refl)
                      (ImagePath "in.png") "out.glb"%string)).
Defined.

(** ** C10: loading a ready slot *)

(** C10.  When the slot of a model is READY (and no other load holds the
    model lock), [load_instantmesh] resp. [load_sdxl] returns True and leaves
    the whole world as it was: nothing is evicted, no state, handle or
    load_count changes, no external call is made; so loading twice in a row
    is loading once. *)
Theorem load_ready_is_noop (env : Env) (w : World) :
  model_lock (mgr w) = false ->
  (state (lookup (models (mgr w)) INSTANTMESH) = READY ->
   load_instantmesh env w = (Ret true, w) /\
   (load_instantmesh env ;;; load_instantmesh env) w = load_instantmesh env w) /\
  (state (lookup (models (mgr w)) SDXL) = READY ->
   load_sdxl env w = (Ret true, w) /\
   (load_sdxl env ;;; load_sdxl env) w = load_sdxl env w).
Proof.
  intros Hl. unfold load_instantmesh, load_sdxl.
  split; intros Hr; pose proof (load_model_ready env _ w Hl Hr) as E;
    (split; [exact E|]); unfold bind; rewrite E; exact E.
Qed.

Lemma load_ready_is_noop_witness :
  load_sdxl happy_env sdxl_ready_world = (Ret true, sdxl_ready_world).
Proof.
  exact (proj1 (proj2 (load_ready_is_noop happy_env sdxl_ready_world eq_refl) eq_refl)).
Defined.

(** ** C7: admission control *)

Lemma Qltb_lt x y : Qltb x y = true <-> (x < y)%Q.
Proof.
  unfold Qltb. rewrite negb_true_iff. split.
  - intros H. apply Qnot_le_lt. intros Hle. apply Qle_bool_iff in Hle. congruence.
  - intros H. destruct (Qle_bool y x) eqn:E; auto.
    apply Qle_bool_iff in E. exfalso. eapply Qlt_not_le; eauto.
Qed.

Lemma budget_ok_false buffer required v :
  budget_ok buffer required v = false <->
  exists s, v = VramAvailable s /\ (free_gb s < required + buffer)%Q.
Proof.
  unfold budget_ok. destruct v as [e|s].
  - split; [discriminate|]. intros (s & H & _). discriminate.
  - destruct (Qltb (free_gb s) (required + buffer)) eqn:E.
    + split; auto. intros _. exists s. split; auto. now apply Qltb_lt.
    + split; [discriminate|]. intros (s' & H & Hlt). injection H as <-.
      apply Qltb_lt in Hlt. congruence.
Qed.

Lemma settled_not_loading i : settled_info i = true -> state i <> LOADING.
Proof. unfold settled_info. destruct (state i), (pipeline i); congruence. Qed.

Lemma evicting_not_loading i0 i :
  state i0 <> LOADING -> evicting_info i0 i -> state i <> LOADING.
Proof.
  intros H0 [->|(_ & [(Hs & _)|He])]; auto.
  - congruence.
  - apply evicted_inv in He. tauto.
Qed.

(** C7.  [_check_vram_budget] answers True when the probe reports the
    device unavailable (no CUDA, or the query raised); otherwise it answers
    False exactly when free < required + buffer, free being total - reserved
    bytes in GiB.  Whenever a load logs a denied admission, it returns False,
    no snapshot of the call has the target slot in LOADING, the target slot
    ends evicted (UNLOADED or ERROR, no handle), and a slot that was UNLOADED
    before the call is unchanged after it. *)
Theorem admission_control (env : Env) :
  (forall required w,
     exists ok,
       _check_vram_budget env required w = (Ret ok, log (EvBudget ok) (bump w)) /\
       match cuda_query env (tick w) with
       | Cuda total _ reserved _ =>
           ok = false <->
           (inject_Z (total - reserved) / GiB < required + vram_buffer_gb (mgr w))%Q
       | _ => ok = true
       end) /\
  (forall m w new o w',
     model_lock (mgr w) = false -> table_ok (models (mgr w)) ->
     load_model env m w = (o, w') -> trace w' = new ++ trace w ->
     In (EvBudget false) new ->
     o = Ret false /\
     (forall t, In (EvModels t) new -> state (lookup t m) <> LOADING) /\
     evicted (lookup (models (mgr w')) m) = true /\
     (forall x, state (lookup (models (mgr w)) x) = UNLOADED ->
                lookup (models (mgr w')) x = lookup (models (mgr w)) x)).
Proof.
  split.
  - intros required w. eexists. split; [reflexivity|]. cbn.
    destruct (cuda_query env (tick w)) as [msg| |total allocated reserved name]; cbn; auto.
    destruct (Qltb (inject_Z (total - reserved) / GiB)
                   (required + vram_buffer_gb (mgr w))) eqn:E.
    + apply Qltb_lt in E. tauto.
    + split; [discriminate|]. intros H. apply Qltb_lt in H. congruence.
  - intros m w new o w' Hl Hk Hrun Htr Hin.
    destruct (ModelState_eqb (state (lookup (models (mgr w)) m)) READY) eqn:E.
    + apply state_eqb_true in E. rewrite load_model_ready in Hrun by auto.
      injection Hrun as <- <-.
      assert (new = []) as -> by (apply (app_inv_tail (trace w)); auto).
      destruct Hin.
    + apply state_eqb_false in E.
      pose proof (load_model_spec env m w Hl (fun x => table_ok_fits _ x Hk) E) as Hs.
      unfold wp in Hs. rewrite Hrun in Hs. cbn in Hs.
      destruct Hs as (_ & _ & _ & _ & _ & Hev & [Hno|(-> & Hs & Hkeep)]).
      * rewrite Htr in Hno. apply since_new in Hno. rewrite Forall_forall in Hno.
        exfalso. apply (Hno _ Hin). reflexivity.
      * split; [reflexivity|]. split; [|split; [apply Hev; reflexivity|exact Hkeep]].
        rewrite Htr in Hs. apply since_new in Hs. rewrite Forall_forall in Hs.
        intros t Ht. destruct (Hs _ Ht) as [Hb|(t' & Heq & He)]; [discriminate|].
        injection Heq as <-.
        eapply evicting_not_loading; [|apply He].
        apply settled_not_loading. apply table_ok_iff, Hk.
Qed.

Lemma admission_control_witness :
  let r := load_model low_vram_env INSTANTMESH fresh_world in
  fst r = Ret false /\
  evicted (lookup (models (mgr (snd r))) INSTANTMESH) = true.
Proof.
  refine ((fun H => conj (proj1 H) (proj1 (proj2 (proj2 H))))
            (proj2 (admission_control low_vram_env) INSTANTMESH fresh_world
                   (added fresh_world (snd (load_model low_vram_env INSTANTMESH fresh_world)))
                   (fst (load_model low_vram_env INSTANTMESH fresh_world))
                   (snd (load_model low_vram_env INSTANTMESH fresh_world))
                   eq_refl _ _ _ _)).
  - split; reflexivity.
  - vm_compute; reflexivity.
  - vm_compute; reflexivity.
  - vm_compute. auto.
Defined.

(** ** C9: the restart signal *)

(** C9.  [get_status] reports needs_restart true exactly when
    generation_count >= _restart_threshold, and changes nothing in the
    manager.  In every world reached from the initial one a generate_mesh or
    generate_image that returns success has raised generation_count by one,
    and once the operations run so far reported at least [threshold]
    successful generations, needs_restart is true. *)
Theorem restart_signal (env : Env) :
  (forall w,
     exists s,
       get_status env w = (Ret s, bump w) /\
       status_generation_count s = generation_count (mgr w) /\
       (needs_restart s = true <->
        restart_threshold (mgr w) <= generation_count (mgr w))) /\
  (forall buffer_gb threshold ops,
     let w := run_ops env ops (init_world buffer_gb threshold) in
     (forall image_data path r w',
        generate_mesh env image_data path w = (Ret r, w') -> success r = true ->
        generation_count (mgr w') = generation_count (mgr w) + 1) /\
     (forall prompt path wd ht steps r w',
        generate_image env prompt path wd ht steps w = (Ret r, w') -> success r = true ->
        generation_count (mgr w') = generation_count (mgr w) + 1) /\
     (threshold <= successful_generations env ops (init_world buffer_gb threshold) ->
      forall s w', get_status env w = (Ret s, w') -> needs_restart s = true)).
Proof.
  assert (Hstatus : forall w,
     exists s,
       get_status env w = (Ret s, bump w) /\
       status_generation_count s = generation_count (mgr w) /\
       (needs_restart s = true <->
        restart_threshold (mgr w) <= generation_count (mgr w))).
  { intros w. eexists. split; [reflexivity|]. cbn. split; auto. apply Z.leb_le. }
  split; [exact Hstatus|].
  intros buffer_gb threshold ops w.
  destruct (run_ops_good env ops _ (init_good buffer_gb threshold)) as (HG & Hc & Hr).
  fold w in HG, Hc, Hr. cbn in Hc, Hr.
  split; [|split].
  - intros image_data path r w' Hrun Hs.
    pose proof (generate_mesh_spec env image_data path w HG) as Hp.
    unfold wp in Hp. rewrite Hrun in Hp. cbn in Hp.
    destruct Hp as (_ & _ & (r' & Hr' & Hinc) & _). injection Hr' as <-. auto.
  - intros prompt path wd ht steps r w' Hrun Hs.
    pose proof (generate_image_spec env prompt path wd ht steps w HG) as Hp.
    unfold wp in Hp. rewrite Hrun in Hp. cbn in Hp.
    destruct Hp as (_ & _ & (r' & Hr' & Hinc) & _). injection Hr' as <-. auto.
  - intros Hth s w' Hrun.
    destruct (Hstatus w) as (s' & Hs' & _ & Hiff). rewrite Hs' in Hrun.
    injection Hrun as <- <-. apply Hiff. lia.
Qed.

Lemma restart_signal_witness :
  option_map needs_restart
    (status_of (get_status happy_env (run_ops happy_env three_images (init_world 2 3))))
  = Some true.
Proof.
  destruct (proj1 (restart_signal happy_env)
                  (run_ops happy_env three_images (init_world 2 3))) as (s & Hs & _).
  unfold status_of. rewrite Hs. cbn. f_equal.
  refine (proj2 (proj2 (proj2 (restart_signal happy_env) 2%Q 3 three_images)) _ s _ Hs).
  vm_compute. discriminate.
Defined.

(** ** C5: the happy path of the pipeline *)

Lemma happy_env_backends : backends_succeed happy_env 2.
Proof.
  unfold backends_succeed. repeat split; intros; try reflexivity.
  destruct m; vm_compute; reflexivity.
Qed.

Lemma happy_env_quiet : quiet happy_env.
Proof. intros n. reflexivity. Qed.

Lemma happy_env_clock : clock_advances happy_env.
Proof.
  intros a b H. cbn.
  assert (H' : Z.of_nat a + 1 <= Z.of_nat b) by lia.
  rewrite Zle_Qle, inject_Z_plus in H'.
  change (inject_Z 1) with 1%Q in H'. lra.
Qed.

(** C5, counterexample.  On a machine where everything works the pipeline
    run from a fresh manager succeeds and leaves InstantMesh READY and SDXL
    UNLOADED, not READY: loading InstantMesh for stage 2 evicted SDXL. *)
Lemma pipeline_happy_path_counterexample :
  let r := generate_full_pipeline happy_env "a chair" "out" 25 fresh_world in
  backends_succeed happy_env (vram_buffer_gb (mgr fresh_world)) /\
  (exists res, fst r = Ret res /\ pipeline_success res = true) /\
  state (lookup (models (mgr (snd r))) INSTANTMESH) = READY /\
  state (lookup (models (mgr (snd r))) SDXL) = UNLOADED.
Proof.
  split; [exact happy_env_backends|].
  split; [eexists; split; vm_compute; reflexivity|].
  split; vm_compute; reflexivity.
Qed.

(** C5, amended.  From a world as the operations leave it, with the
    generation lock free, when no collaborator fails and admission passes,
    no other caller takes the lock during the run and successive clock
    readings are more than 5 ms apart: [generate_full_pipeline] returns
    success with the image path and the mesh path, each stage reports
    success with a generation_time greater than zero, and at the end the
    InstantMesh slot is READY and the SDXL slot UNLOADED (neither is
    GENERATING), with the generation lock free. *)
Theorem pipeline_happy_path (env : Env) (prompt dir : string) (steps : Z) (w : World) :
  Good w -> generation_lock (mgr w) = false ->
  backends_succeed env (vram_buffer_gb (mgr w)) -> quiet env -> clock_advances env ->
  exists res r1 r2 w',
    generate_full_pipeline env prompt dir steps w = (Ret res, w') /\
    pipeline_success res = true /\
    image_path res = Some (path_join dir "generated_image.png") /\
    mesh_path res = Some (path_join dir "generated_mesh.glb") /\
    stages_image res = Some r1 /\ stages_mesh res = Some r2 /\
    success r1 = true /\ success r2 = true /\
    (exists t, generation_time r1 = Some t /\ (0 < t)%Q) /\
    (exists t, generation_time r2 = Some t /\ (0 < t)%Q) /\
    state (lookup (models (mgr w')) INSTANTMESH) = READY /\
    state (lookup (models (mgr w')) SDXL) = UNLOADED /\
    generation_lock (mgr w') = false.
Proof.
  intros HG Hlock Hback Hquiet Hclock.
  pose proof (generate_full_pipeline_happy env _ Hback Hquiet Hclock
                prompt dir steps w HG Hlock eq_refl) as H.
  unfold wp, pipeline_happy_post in H.
  destruct (generate_full_pipeline env prompt dir steps w) as [o w'] eqn:E. cbn in H.
  destruct H as (res & r1 & r2 & -> & H).
  exists res, r1, r2, w'. tauto.
Qed.

Lemma pipeline_happy_path_witness :
  exists res w',
    generate_full_pipeline happy_env "a chair" "out" 25 fresh_world = (Ret res, w') /\
    pipeline_success res = true /\
    state (lookup (models (mgr w')) SDXL) = UNLOADED.
Proof.
  destruct (pipeline_happy_path happy_env "a chair" "out" 25 fresh_world
              (init_good 2 20) eq_refl happy_env_backends happy_env_quiet
              happy_env_clock)
    as (res & r1 & r2 & w' & H).
  exists res, w'. tauto.
Defined.

(** ** C8: stage A fails *)



(** ** C2: how the generation lock is acquired *)

Lemma generate_mesh_busy env image_data path w :
  generation_lock (mgr w) = true ->
  generate_mesh env image_data path w
  = (Ret (failure busy), log (EvAcquire false false) (log (EvCall GENERATE_MESH) w)).
Proof.
  intros H. unfold generate_mesh, bind, emit, acquire_generation. cbn.
  rewrite H. reflexivity.
Qed.

Lemma generate_image_busy env prompt path wd ht steps w :
  generation_lock (mgr w) = true ->
  generate_image env prompt path wd ht steps w
  = (Ret (failure busy), log (EvAcquire false false) (log (EvCall GENERATE_IMAGE) w)).
Proof.
  intros H. unfold generate_image, bind, emit, acquire_generation. cbn.
  rewrite H. reflexivity.
Qed.

Lemma generate_full_pipeline_busy env prompt dir steps w :
  generation_lock (mgr w) = true ->
  generate_full_pipeline env prompt dir steps w
  = (Ret busy_pipeline_result,
     log (EvAcquire false false) (log (EvCall GENERATE_FULL_PIPELINE) w)).
Proof.
  intros H. unfold generate_full_pipeline, bind, emit, acquire_generation. cbn.
  rewrite H. reflexivity.
Qed.

(** C2, the failing run.  The lock is free when the pipeline is called.
    Another caller takes it right after the pipeline released it for stage 1
    (first run) or for stage 2 (second run): the stage gets its busy result,
    and the pipeline's reacquisition, a blocking acquire, parks the caller.
    The pipeline gives no busy outcome, it waits. *)
Lemma gate_acquisition_counterexample :
  let r1 := generate_full_pipeline (contended_env 2) "a chair" "out" 25 fresh_world in
  let r2 := generate_full_pipeline (contended_env 16) "a chair" "out" 25 fresh_world in
  generation_lock (mgr fresh_world) = false /\
  fst r1 = Blocked /\
  (exists tr, trace (snd r1)
              = EvAcquire true false :: EvAcquire false false
                :: EvCall GENERATE_IMAGE :: EvIntruder :: tr) /\
  fst r2 = Blocked /\
  (exists tr, trace (snd r2)
              = EvAcquire true false :: EvAcquire false false
                :: EvCall GENERATE_MESH :: EvIntruder :: tr).
Proof. vm_compute. repeat split; eexists; reflexivity. Qed.

(** C2, what the code does.  The entry acquisition of the three operations
    is a non-blocking try-acquire: called while the lock is held, each
    returns its busy result at once.  [generate_mesh] and [generate_image]
    make no blocking acquisition, and from a world as the operations leave
    it (no load in progress) they always return a result, whatever other
    callers do with the generation lock: they never wait for it.  The
    pipeline's two reacquisitions are blocking: if another caller holds the
    lock when stage 1 has returned, or when stage 2 has returned, the
    pipeline caller is parked there and gets no result, busy or other.  From
    a world as the operations leave it the pipeline parks in exactly these
    two cases, and it returns a result whenever no other caller takes the
    lock during the run. *)
Theorem gate_acquisition (env : Env) :
  (forall image_data path w,
     exists new,
       trace (snd (generate_mesh env image_data path w)) = new ++ trace w /\
       forall got, ~ In (EvAcquire true got) new) /\
  (forall prompt path wd ht steps w,
     exists new,
       trace (snd (generate_image env prompt path wd ht steps w)) = new ++ trace w /\
       forall got, ~ In (EvAcquire true got) new) /\
  (forall w, Good w ->
     (forall image_data path,
        exists res, fst (generate_mesh env image_data path w) = Ret res) /\
     (forall prompt path wd ht steps,
        exists res, fst (generate_image env prompt path wd ht steps w) = Ret res)) /\
  (forall w, generation_lock (mgr w) = true ->
     (forall image_data path,
        fst (generate_mesh env image_data path w) = Ret (failure busy)) /\
     (forall prompt path wd ht steps,
        fst (generate_image env prompt path wd ht steps w) = Ret (failure busy)) /\
     (forall prompt dir steps,
        fst (generate_full_pipeline env prompt dir steps w) = Ret busy_pipeline_result)) /\
  (forall prompt dir steps w r1,
     generation_lock (mgr w) = false -> io env (tick w) = None ->
     let a := stage_a env prompt dir steps w in
     fst a = Ret r1 -> generation_lock (mgr (snd a)) = true ->
     generate_full_pipeline env prompt dir steps w
     = (Blocked, log (EvAcquire true false) (snd a))) /\
  (forall prompt dir steps w r1 r2,
     generation_lock (mgr w) = false -> io env (tick w) = None ->
     let a := stage_a env prompt dir steps w in
     let b := stage_b env prompt dir steps w in
     fst a = Ret r1 -> generation_lock (mgr (snd a)) = false -> success r1 = true ->
     fst b = Ret r2 -> generation_lock (mgr (snd b)) = true ->
     generate_full_pipeline env prompt dir steps w
     = (Blocked, log (EvAcquire true false) (snd b))) /\
  (forall prompt dir steps w,
     Good w -> generation_lock (mgr w) = false -> io env (tick w) = None ->
     let a := stage_a env prompt dir steps w in
     let b := stage_b env prompt dir steps w in
     exists r1,
       fst a = Ret r1 /\
       (fst (generate_full_pipeline env prompt dir steps w) = Blocked <->
        generation_lock (mgr (snd a)) = true \/
        (success r1 = true /\ generation_lock (mgr (snd b)) = true))) /\
  (forall prompt dir steps w,
     Good w -> quiet env ->
     exists res w', generate_full_pipeline env prompt dir steps w = (Ret res, w')).
Proof.
  repeat match goal with |- _ /\ _ => split end.
  - intros image_data path w.
    destruct (generate_mesh_log env image_data path w) as (new & Hn & Hf).
    exists new. split; auto. intros got Hin.
    rewrite Forall_forall in Hf. exact (Hf _ Hin).
  - intros prompt path wd ht steps w.
    destruct (generate_image_log env prompt path wd ht steps w) as (new & Hn & Hf).
    exists new. split; auto. intros got Hin.
    rewrite Forall_forall in Hf. exact (Hf _ Hin).
  - intros w HG. split.
    + intros image_data path.
      destruct (generate_mesh_spec env image_data path w HG) as (_ & _ & (r & Hr & _) & _).
      eauto.
    + intros prompt path wd ht steps.
      destruct (generate_image_spec env prompt path wd ht steps w HG)
        as (_ & _ & (r & Hr & _) & _).
      eauto.
  - intros w Hl. repeat split; intros.
    + now rewrite generate_mesh_busy.
    + now rewrite generate_image_busy.
    + now rewrite generate_full_pipeline_busy.
  - intros prompt dir steps w r1 Hfree Hmkdir a Ha Hl.
    eapply pipeline_parks_after_stage_a; eassumption.
  - intros prompt dir steps w r1 r2 Hfree Hmkdir a b Ha Hl Hs Hb Hlb.
    eapply pipeline_parks_after_stage_b; eassumption.
  - intros prompt dir steps w HG Hfree Hmkdir a b.
    destruct (stage_a_returns env prompt dir steps w Hfree Hmkdir HG) as (r1 & Ha & HGa).
    exists r1. split; [exact Ha|].
    destruct (generation_lock (mgr (snd a))) eqn:Hl.
    { rewrite (pipeline_parks_after_stage_a env prompt dir steps w Hfree Hmkdir r1 Ha Hl).
      cbn. tauto. }
    destruct (success r1) eqn:Hs.
    2:{ rewrite (pipeline_fails_after_stage_a env prompt dir steps w Hfree Hmkdir r1 Ha Hl Hs).
        cbn. split; [discriminate|]. intros [H|[H _]]; discriminate H. }
    destruct (stage_b_returns env prompt dir steps w HGa Hl) as (r2 & Hb).
    destruct (generation_lock (mgr (snd b))) eqn:Hlb.
    { rewrite (pipeline_parks_after_stage_b env prompt dir steps w Hfree Hmkdir
                 r1 r2 Ha Hl Hs Hb Hlb).
      cbn. tauto. }
    destruct (pipeline_returns_after_stage_b env prompt dir steps w Hfree Hmkdir
                r1 r2 Ha Hl Hs Hb Hlb) as (res & Hres).
    rewrite Hres. split; [discriminate|]. intros [H|[_ H]]; discriminate H.
  - intros prompt dir steps w HG Hq.
    pose proof (generate_full_pipeline_returns env prompt dir steps w HG Hq) as H.
    unfold wp in H.
    destruct (generate_full_pipeline env prompt dir steps w) as [o w'].
    cbn in H. destruct H as (res & ->). eauto.
Qed.

Lemma gate_acquisition_witness :
  let a := stage_a (contended_env 2) "a chair" "out" 25 fresh_world in
  fst (generate_full_pipeline happy_env "a chair" "out" 25 busy_world)
  = Ret busy_pipeline_result /\
  fst a = Ret (failure busy) /\
  generate_full_pipeline (contended_env 2) "a chair" "out" 25 fresh_world
  = (Blocked, log (EvAcquire true false) (snd a)).
Proof.
  intros a.
  pose proof (gate_acquisition happy_env) as (_ & _ & _ & Hbusy & _).
  pose proof (gate_acquisition (contended_env 2)) as (_ & _ & _ & _ & Hpark & _).
  assert (Ha : fst a = Ret (failure busy)) by (vm_compute; reflexivity).
  assert (Hl : generation_lock (mgr (snd a)) = true) by (vm_compute; reflexivity).
  exact (conj (proj2 (proj2 (Hbusy busy_world eq_refl)) "a chair"%string "out"%string 25)
              (conj Ha (Hpark "a chair"%string "out"%string 25 fresh_world (failure busy)
                              eq_refl eq_refl Ha Hl))).
Defined.

(** Called with the lock free from a world as the operations leave it,
    [generate_image] never returns with the SDXL slot in GENERATING, and the
    only return of [generate_mesh] that leaves the InstantMesh slot in
    GENERATING is the one for an unrecognised output. *)
Lemma generating_only_after_odd_output (env : Env) (w : World) :
  Good w -> generation_lock (mgr w) = false ->
  (forall image_data path,
     let r := generate_mesh env image_data path w in
     state (lookup (models (mgr (snd r))) INSTANTMESH) = GENERATING ->
     fst r = Ret (failure "Model output format not recognized")) /\
  (forall prompt path wd ht steps,
     let r := generate_image env prompt path wd ht steps w in
     state (lookup (models (mgr (snd r))) SDXL) <> GENERATING).
Proof.
  intros HG Hl. split.
  - intros image_data path r Hs.
    destruct (generate_mesh_spec env image_data path w HG) as (_ & H & _).
    apply (H Hl Hs).
  - intros prompt path wd ht steps r Hs.
    destruct (generate_image_spec env prompt path wd ht steps w HG) as (_ & H & _).
    destruct (H Hl Hs) as [E _]. discriminate E.
Qed.

Lemma generating_only_after_odd_output_witness :
  let r := generate_mesh odd_output_env (ImagePath "in.png") "out.glb" fresh_world in
  state (lookup (models (mgr (snd r))) INSTANTMESH) = GENERATING /\
  fst r = Ret (failure "Model output format not recognized").
Proof.
  intros r.
  assert (H : state (lookup (models (mgr (snd r))) INSTANTMESH) = GENERATING)
    by (vm_compute; reflexivity).
  exact (conj H (proj1 (generating_only_after_odd_output odd_output_env fresh_world
                          (init_good 2 20) eq_refl)
                       (ImagePath "in.png") "out.glb"%string H)).
Defined.

(** * Further properties of the model manager *)

(** ** The result dicts of the generation operations *)

Ltac shape_leaf :=
  cbn [result_shape];
  first [ exact I
        | right; eexists; reflexivity
        | left; unfold success_result; cbn;
          conj; try reflexivity; eexists; reflexivity ].

Section Shape.
Variable env : Env.

Lemma generate_image_shape prompt path wd ht steps w :
  wp (generate_image env prompt path wd ht steps)
     (fun o _ => result_shape path (Some wd) (Some ht) o) w.
Proof.
  unfold generate_image, generation_failed, load_sdxl.
  repeat wp_step.
  all: try solve [shape_leaf].
  eapply wp_mono; [apply wp_any|].
  intros o w1 _. destruct o as [[]|e|]; cbv beta iota.
  all: repeat wp_step.
  all: solve [shape_leaf].
Qed.

Lemma generate_mesh_shape image_data path w :
  wp (generate_mesh env image_data path)
     (fun o _ => result_shape path None None o) w.
Proof.
  unfold generate_mesh, generation_failed, load_instantmesh.
  repeat wp_step.
  all: try solve [shape_leaf].
  eapply wp_mono; [apply wp_any|].
  intros o w1 _. destruct o as [[]|e|]; cbv beta iota.
  all: repeat wp_step.
  all: solve [shape_leaf].
Qed.

End Shape.

(** X1.  Called from a world as the operations leave it, [generate_mesh] and
    [generate_image] return a result dict: no exception escapes and the
    caller is not parked.  The dict is a success with the keys output_path
    (the requested path), generation_time, vram_after and file_size_bytes
    (and width and height for an image), or a failure that carries only an
    error message.  The model lock is free afterwards, and so is the
    generation lock when it was free before and no other caller took it. *)
Theorem generation_returns_result (env : Env) (w : World) :
  Good w ->
  (forall image_data path,
     exists r w',
       generate_mesh env image_data path w = (Ret r, w') /\
       (success_result path None None r \/ exists e, r = failure e) /\
       model_lock (mgr w') = false /\
       (generation_lock (mgr w) = false -> quiet env ->
        generation_lock (mgr w') = false)) /\
  (forall prompt path wd ht steps,
     exists r w',
       generate_image env prompt path wd ht steps w = (Ret r, w') /\
       (success_result path (Some wd) (Some ht) r \/ exists e, r = failure e) /\
       model_lock (mgr w') = false /\
       (generation_lock (mgr w) = false -> quiet env ->
        generation_lock (mgr w') = false)).
Proof.
  intros HG. split.
  - intros image_data path.
    pose proof (generate_mesh_spec env image_data path w HG) as Hs.
    pose proof (generate_mesh_shape env image_data path w) as Hp.
    unfold wp in Hs, Hp.
    destruct (generate_mesh env image_data path w) as [o w'] eqn:E. cbn in Hs, Hp.
    destruct Hs as ((_ & _ & Hl) & _ & (r & -> & _) & _ & _ & _ & Hg).
    exists r, w'. cbn in Hp. auto.
  - intros prompt path wd ht steps.
    pose proof (generate_image_spec env prompt path wd ht steps w HG) as Hs.
    pose proof (generate_image_shape env prompt path wd ht steps w) as Hp.
    unfold wp in Hs, Hp.
    destruct (generate_image env prompt path wd ht steps w) as [o w'] eqn:E.
    cbn in Hs, Hp.
    destruct Hs as ((_ & _ & Hl) & _ & (r & -> & _) & _ & _ & _ & Hg).
    exists r, w'. cbn in Hp. auto.
Qed.

Lemma generation_returns_result_witness :
  exists r w',
    generate_image happy_env "a chair" "image.png" 1024 1024 25 fresh_world = (Ret r, w') /\
    (success_result "image.png" (Some 1024) (Some 1024) r \/ exists e, r = failure e).
Proof.
  destruct (proj2 (generation_returns_result happy_env fresh_world (init_good 2 20))
                  "a chair"%string "image.png"%string 1024 1024 25)
    as (r & w' & H & Hs & _).
  exists r, w'. split; assumption.
Defined.

(** ** Statistics *)

Ltac frame_leaf :=
  frame_hyps; unfold same_frame; wsimpl; conj; congruence.

Ltac quiet_log :=
  wsimpl;
  repeat (apply since_cons; [ exact I | ]);
  first [ apply since_refl
        | match goal with
          | H : since ?tr0 _ ?tr |- since ?tr00 _ ?tr =>
              apply (since_trans tr00 _ tr0);
              [ repeat (apply since_cons; [ exact I | ]); apply since_refl
              | eapply since_weaken; [|exact H]; cbv beta;
                let e := fresh "e" in
                intros e; destruct e; cbn; tauto ]
          end ].

Ltac rewrite_totals :=
  repeat match goal with
         | H : total_generation_time _ = _ |- _ => rewrite H
         end.

Ltac stats_leaf :=
  wsimpl_in_all; frame_hyps; unfold stats_post; wsimpl;
  first
    [ solve [ left; conj;
              [ quiet_log | congruence | congruence
              | let r := fresh "r" in
                let Hr := fresh "Hr" in
                intros r Hr;
                first [ discriminate Hr | injection Hr as <-; reflexivity ] ] ]
    | solve [ right; do 3 eexists; conj;
              [ rewrite_totals; reflexivity
              | lia
              | repeat (apply since_cons; [ exact I | ]); apply since_refl
              | quiet_log
              | congruence ] ] ].

Section Stats.
Variable env : Env.

Lemma load_model_frame m w :
  wp (load_model env m) (fun _ w' => same_frame w w') w.
Proof.
  unfold load_model.
  apply wp_with_model_lock; [intros _; apply same_frame_refl|intros Hl].
  wp_step. wp_step. wp_step.
  { wp_step. frame_leaf. }
  wp_step.
  eapply wp_mono; [apply unload_all_spec|].
  intros o w1 (_ & Hb & Hf1 & _).
  destruct o as [[]|e|]; cbv beta iota; [| |congruence].
  all: repeat wp_step.
  all: frame_leaf.
Qed.

Lemma load_model_quiet m w :
  wp (load_model env m)
     (fun _ w' => same_frame w w' /\ since (trace w) table_event (trace w')) w.
Proof. apply wp_conj; [apply load_model_frame|apply load_model_log]. Qed.

Lemma generate_image_stats prompt path wd ht steps w :
  wp (generate_image env prompt path wd ht steps) (stats_post env path w) w.
Proof.
  unfold generate_image, generation_failed, load_sdxl.
  repeat wp_step.
  all: try solve [stats_leaf].
  eapply wp_mono; [apply load_model_quiet|].
  intros o w1 (Hf & Hs).
  destruct o as [[]|e|]; cbv beta iota.
  all: repeat wp_step.
  all: solve [stats_leaf].
Qed.

Lemma generate_mesh_stats image_data path w :
  wp (generate_mesh env image_data path) (stats_post env path w) w.
Proof.
  unfold generate_mesh, generation_failed, load_instantmesh.
  repeat wp_step.
  all: try solve [stats_leaf].
  eapply wp_mono; [apply load_model_quiet|].
  intros o w1 (Hf & Hs).
  destruct o as [[]|e|]; cbv beta iota.
  all: repeat wp_step.
  all: solve [stats_leaf].
Qed.

End Stats.

Lemma stats_post_artifact env path w o w' :
  stats_post env path w o w' ->
  exists new,
    trace w' = new ++ trace w /\
    (In (EvArtifact path) new <->
     generation_count (mgr w') = generation_count (mgr w) + 1) /\
    (~ In (EvArtifact path) new <->
     generation_count (mgr w') = generation_count (mgr w)) /\
    (forall r, o = Ret r -> success r = true -> In (EvArtifact path) new).
Proof.
  intros [((new & Hn & Hf) & Hc & _ & Hr)|(a & b & tr & _ & _ & (n2 & Hn2 & _) & (n1 & Hn1 & _) & Hc)].
  - exists new. rewrite Forall_forall in Hf.
    assert (Hno : ~ In (EvArtifact path) new) by (intros Hin; exact (Hf _ Hin)).
    conj; auto.
    + split; [tauto|lia].
    + tauto.
    + intros r Ho Hs. rewrite (Hr r Ho) in Hs. discriminate.
  - exists (n2 ++ EvArtifact path :: n1).
    assert (Hin : In (EvArtifact path) (n2 ++ EvArtifact path :: n1))
      by (apply in_or_app; right; left; reflexivity).
    conj.
    + rewrite Hn2, Hn1, <- app_assoc. reflexivity.
    + tauto.
    + split; [tauto|lia].
    + auto.
Qed.

(** X2.  The statistics count a generation from the moment its output file is
    written.  In every call of [generate_mesh] and [generate_image], from any
    world, generation_count rises by one exactly when the call wrote its
    output file and is unchanged exactly when it did not; a call that reports
    success has written the file.  (A call can write the file, be counted, and
    still report a failure: [_clear_vram] or the [stat] of the file, which
    come after the counters, may raise.) *)
Theorem generation_count_tracks_output (env : Env) (w : World) :
  (forall image_data path,
     exists new,
       trace (snd (generate_mesh env image_data path w)) = new ++ trace w /\
       (In (EvArtifact path) new <->
        generation_count (mgr (snd (generate_mesh env image_data path w)))
        = generation_count (mgr w) + 1) /\
       (~ In (EvArtifact path) new <->
        generation_count (mgr (snd (generate_mesh env image_data path w)))
        = generation_count (mgr w)) /\
       (forall r, fst (generate_mesh env image_data path w) = Ret r ->
                  success r = true -> In (EvArtifact path) new)) /\
  (forall prompt path wd ht steps,
     exists new,
       trace (snd (generate_image env prompt path wd ht steps w)) = new ++ trace w /\
       (In (EvArtifact path) new <->
        generation_count (mgr (snd (generate_image env prompt path wd ht steps w)))
        = generation_count (mgr w) + 1) /\
       (~ In (EvArtifact path) new <->
        generation_count (mgr (snd (generate_image env prompt path wd ht steps w)))
        = generation_count (mgr w)) /\
       (forall r, fst (generate_image env prompt path wd ht steps w) = Ret r ->
                  success r = true -> In (EvArtifact path) new)).
Proof.
  split.
  - intros image_data path.
    exact (stats_post_artifact _ _ _ _ _ (generate_mesh_stats env image_data path w)).
  - intros prompt path wd ht steps.
    exact (stats_post_artifact _ _ _ _ _ (generate_image_stats env prompt path wd ht steps w)).
Qed.

(** *** The counters never go down *)

Lemma stats_grow_refl w : stats_grow w w.
Proof. split; [lia|apply Qle_refl]. Qed.

Lemma stats_grow_trans w1 w2 w3 :
  stats_grow w1 w2 -> stats_grow w2 w3 -> stats_grow w1 w3.
Proof. intros [H1 H2] [H3 H4]. split; [lia|eapply Qle_trans; eassumption]. Qed.

Lemma same_frame_grow w w' : same_frame w w' -> stats_grow w w'.
Proof.
  intros (_ & _ & Hc & Ht & _). split; [lia|rewrite Ht; apply Qle_refl].
Qed.

Lemma stats_post_grow env path w o w' :
  clock_monotone env -> stats_post env path w o w' -> stats_grow w w'.
Proof.
  intros Hm [(_ & Hc & Ht & _)|(a & b & tr & Ht & Hab & _ & _ & Hc)].
  - split; [lia|rewrite Ht; apply Qle_refl].
  - split; [lia|]. rewrite Ht.
    assert (H : (clock env a <= clock env b)%Q) by (apply Hm; lia).
    lra.
Qed.

Ltac grow_leaf :=
  unfold stats_grow in *; wsimpl_in_all;
  repeat match goal with H : _ /\ _ |- _ => destruct H end;
  split; [ lia | first [ apply Qle_refl | assumption | eapply Qle_trans; eassumption ] ].

Section Grow.
Variable env : Env.
Hypothesis Hclock : clock_monotone env.

Lemma generate_full_pipeline_grow prompt dir steps w :
  wp (generate_full_pipeline env prompt dir steps) (fun _ w' => stats_grow w w') w.
Proof.
  unfold generate_full_pipeline.
  repeat wp_step.
  all: try solve [grow_leaf].
  all: (eapply wp_mono; [apply generate_image_stats|]);
    intros o w1 Hs1; apply stats_post_grow in Hs1; [|exact Hclock];
    destruct o as [r1| |]; cbv beta iota;
    repeat wp_step.
  all: try solve [grow_leaf].
  all: (eapply wp_mono; [apply generate_mesh_stats|]);
    intros o w2 Hs2; apply stats_post_grow in Hs2; [|exact Hclock];
    destruct o as [r2| |]; cbv beta iota;
    repeat wp_step.
  all: solve [grow_leaf].
Qed.

Lemma shutdown_frame w : wp (shutdown env) (fun _ w' => same_frame w w') w.
Proof.
  unfold shutdown.
  apply wp_with_model_lock; [intros _; apply same_frame_refl|intros Hl].
  eapply wp_mono; [apply unload_all_spec|].
  intros o w1 (_ & Hb & Hf1 & _).
  destruct o as [[]|e|]; [| |congruence].
  all: frame_leaf.
Qed.

Lemma run_op_grow op w : stats_grow w (run_op env op w).
Proof.
  destruct op as [ | | m | | | image_data path | prompt path wd ht steps
                 | prompt dir steps | ]; cbn [run_op].
  - apply same_frame_grow, (load_model_frame env INSTANTMESH w).
  - apply same_frame_grow, (load_model_frame env SDXL w).
  - apply same_frame_grow. apply (unload_model_spec env m w).
  - apply same_frame_grow. apply (unload_all_spec env w).
  - apply same_frame_grow, (shutdown_frame w).
  - eapply stats_post_grow; [exact Hclock|apply generate_mesh_stats].
  - eapply stats_post_grow; [exact Hclock|apply generate_image_stats].
  - apply (generate_full_pipeline_grow prompt dir steps w).
  - unfold stats_grow. cbn. split; [lia|apply Qle_refl].
Qed.

Lemma run_ops_grow ops : forall w, stats_grow w (run_ops env ops w).
Proof.
  induction ops as [|op ops IH]; intros w; cbn.
  - apply stats_grow_refl.
  - eapply stats_grow_trans; [apply run_op_grow|apply IH].
Qed.

End Grow.

Lemma Qdiv_nonneg (a b : Q) : (0 <= a)%Q -> (0 < b)%Q -> (0 <= a / b)%Q.
Proof.
  intros Ha Hb. apply Qle_shift_div_l; auto. lra.
Qed.

(** X3.  With a clock that never goes backwards, no operation lowers
    generation_count or total_generation_time: after any run from any world
    both are at least what they were.  So from a fresh manager both stay
    non-negative, and the average that [get_status] reports is non-negative;
    it is 0 as long as no generation has been counted (no division by
    zero). *)
Theorem statistics_never_decrease (env : Env) :
  clock_monotone env ->
  (forall ops w, stats_grow w (run_ops env ops w)) /\
  (forall buffer_gb threshold ops,
     let w := run_ops env ops (init_world buffer_gb threshold) in
     0 <= generation_count (mgr w) /\
     (0 <= total_generation_time (mgr w))%Q /\
     exists s,
       get_status env w = (Ret s, bump w) /\
       (0 <= avg_generation_time s)%Q /\
       (generation_count (mgr w) = 0 -> avg_generation_time s = 0%Q)).
Proof.
  intros Hm. split; [intros ops w; apply run_ops_grow; exact Hm|].
  intros buffer_gb threshold ops w.
  destruct (run_ops_grow env Hm ops (init_world buffer_gb threshold)) as [Hc Ht].
  fold w in Hc, Ht. cbn in Hc, Ht.
  conj; auto.
  eexists. split; [reflexivity|]. cbn.
  destruct (0 <? generation_count (mgr w)) eqn:E.
  - apply Z.ltb_lt in E. split; [|lia].
    apply Qdiv_nonneg; auto.
    rewrite Zlt_Qlt in E. exact E.
  - split; [apply Qle_refl|reflexivity].
Qed.

Lemma happy_env_monotone : clock_monotone happy_env.
Proof.
  intros a b H. cbn. rewrite <- Zle_Qle. lia.
Qed.

Lemma statistics_never_decrease_witness :
  0 <= generation_count (mgr (run_ops happy_env three_images fresh_world)).
Proof.
  exact (proj1 (proj2 (statistics_never_decrease happy_env happy_env_monotone)
                      2%Q 20 three_images)).
Defined.

(** ** One caller at a time *)

Ltac chain_log :=
  wsimpl;
  repeat (apply since_cons; [ exact I | ]);
  first [ apply since_refl
        | match goal with
          | H : since ?tr0 ?P ?tr |- since _ ?P ?tr =>
              eapply since_trans; [|exact H]; chain_log
          end ].

Ltac granted_leaf :=
  wsimpl_in_all;
  first [ congruence | happy_clash | chain_log ].

Lemma table_event_granted e : table_event e -> granted e.
Proof. destruct e; cbn; tauto. Qed.

Lemma evict_event_granted t0 e : evict_event t0 e -> granted e.
Proof. intros (t & -> & _). exact I. Qed.

Section Granted.
Variable env : Env.
Hypothesis Hquiet : quiet env.

Lemma generate_image_granted prompt path wd ht steps w :
  generation_lock (mgr w) = false ->
  wp (generate_image env prompt path wd ht steps)
     (fun _ w' => since (trace w) granted (trace w')) w.
Proof.
  intros Hg.
  unfold generate_image, generation_failed, load_sdxl.
  repeat wp_step.
  all: try solve [granted_leaf].
  eapply wp_mono; [apply load_model_quiet|].
  intros o w1 (Hf & Hs).
  apply (since_weaken _ _ granted) in Hs; [|apply table_event_granted].
  destruct o as [[]|e|]; cbv beta iota.
  all: repeat wp_step.
  all: frame_hyps.
  all: solve [granted_leaf].
Qed.

Lemma generate_mesh_granted image_data path w :
  generation_lock (mgr w) = false ->
  wp (generate_mesh env image_data path)
     (fun _ w' => since (trace w) granted (trace w')) w.
Proof.
  intros Hg.
  unfold generate_mesh, generation_failed, load_instantmesh.
  repeat wp_step.
  all: try solve [granted_leaf].
  eapply wp_mono; [apply load_model_quiet|].
  intros o w1 (Hf & Hs).
  apply (since_weaken _ _ granted) in Hs; [|apply table_event_granted].
  destruct o as [[]|e|]; cbv beta iota.
  all: repeat wp_step.
  all: frame_hyps.
  all: solve [granted_leaf].
Qed.

Ltac calm_gen spec granted_lemma :=
  eapply wp_mono;
  [ apply wp_conj; [ apply spec; good_tac | apply granted_lemma; reflexivity ] | ];
  intros ? ? (((? & ? & ?) & _ & (? & -> & ?) & _ & _ & _ & ?) & ?);
  cbv beta iota; wsimpl_in_all; quiet_lock;
  repeat wp_step; wsimpl_in_all.

Ltac calm_leaf :=
  first [ congruence | happy_clash
        | conj; [ good_tac | wsimpl; reflexivity | chain_log | eexists; reflexivity ] ].

Lemma generate_full_pipeline_calm prompt dir steps w :
  Good w -> generation_lock (mgr w) = false ->
  wp (generate_full_pipeline env prompt dir steps)
     (fun o w' =>
        Good w' /\ generation_lock (mgr w') = false /\
        since (trace w) granted (trace w') /\
        exists res, o = Ret res) w.
Proof.
  intros (Ht & Hk & Hl) Hg.
  unfold generate_full_pipeline.
  repeat wp_step.
  all: wsimpl_in_all.
  all: try solve [calm_leaf].
  all: calm_gen generate_image_spec generate_image_granted.
  all: try solve [calm_leaf].
  all: calm_gen generate_mesh_spec generate_mesh_granted.
  all: solve [calm_leaf].
Qed.

Lemma shutdown_log w :
  wp (shutdown env) (fun _ w' => since (trace w) granted (trace w')) w.
Proof.
  unfold shutdown.
  apply wp_with_model_lock; [intros _; apply since_refl|intros Hl].
  eapply wp_mono; [apply unload_all_spec|].
  intros o w1 (Hs & _). wsimpl_in_all.
  apply (since_weaken _ _ granted) in Hs; [|apply evict_event_granted].
  destruct o as [[]|e|]; wsimpl; exact Hs.
Qed.

Lemma calm_since w w' :
  Forall granted (trace w) -> since (trace w) granted (trace w') ->
  Forall granted (trace w').
Proof. intros H Hs. eapply since_Forall; eauto. Qed.

Lemma run_op_calm op w : Calm w -> Calm (run_op env op w).
Proof.
  intros (HG & Hg & Hf).
  destruct op as [ | | m | | | image_data path | prompt path wd ht steps
                 | prompt dir steps | ]; cbn [run_op]; unfold Calm.
  - pose proof (load_model_good env INSTANTMESH w HG) as (_ & Hfr & HG' & _).
    pose proof (load_model_log env INSTANTMESH w) as Hs.
    apply (since_weaken _ _ granted) in Hs; [|apply table_event_granted].
    destruct Hfr as (Hgl & _).
    unfold load_instantmesh. conj; [auto|congruence|eapply calm_since; eauto].
  - pose proof (load_model_good env SDXL w HG) as (_ & Hfr & HG' & _).
    pose proof (load_model_log env SDXL w) as Hs.
    apply (since_weaken _ _ granted) in Hs; [|apply table_event_granted].
    destruct Hfr as (Hgl & _).
    unfold load_sdxl. conj; [auto|congruence|eapply calm_since; eauto].
  - pose proof (unload_model_good env m w HG) as (_ & Hfr & HG').
    pose proof (unload_model_spec env m w) as (Hs & _).
    apply (since_weaken _ _ granted) in Hs; [|apply evict_event_granted].
    destruct Hfr as (Hgl & _).
    conj; [auto|congruence|eapply calm_since; eauto].
  - destruct HG as (Ht & Hk & Hl).
    pose proof (unload_all_good env w Ht Hk) as (_ & Hfr & Ht' & Hk').
    pose proof (unload_all_spec env w) as (Hs & _).
    apply (since_weaken _ _ granted) in Hs; [|apply evict_event_granted].
    destruct Hfr as (Hgl & Hl' & _).
    conj; [unfold Good; intuition congruence|congruence|eapply calm_since; eauto].
  - pose proof (shutdown_good env w HG) as (_ & Hfr & HG').
    pose proof (shutdown_log w) as Hs.
    destruct Hfr as (Hgl & _).
    conj; [auto|congruence|eapply calm_since; eauto].
  - pose proof (generate_mesh_spec env image_data path w HG)
      as (HG' & _ & _ & _ & _ & _ & Hgl).
    pose proof (generate_mesh_granted image_data path w Hg) as Hs.
    conj; [auto|auto|eapply calm_since; eauto].
  - pose proof (generate_image_spec env prompt path wd ht steps w HG)
      as (HG' & _ & _ & _ & _ & _ & Hgl).
    pose proof (generate_image_granted prompt path wd ht steps w Hg) as Hs.
    conj; [auto|auto|eapply calm_since; eauto].
  - pose proof (generate_full_pipeline_calm prompt dir steps w HG Hg)
      as (HG' & Hgl & Hs & _).
    conj; [auto|auto|eapply calm_since; eauto].
  - unfold get_status, bind, get_vram_info, ext, ret. cbn.
    destruct HG as (Ht & Hk & Hl). unfold Calm, Good. auto.
Qed.

Lemma run_ops_calm ops : forall w, Calm w -> Calm (run_ops env ops w).
Proof.
  induction ops as [|op ops IH]; intros w HC; cbn; auto.
  apply IH, run_op_calm, HC.
Qed.

End Granted.

Lemma init_calm buffer_gb threshold : Calm (init_world buffer_gb threshold).
Proof.
  split; [apply init_good|]. split; [reflexivity|].
  cbn. repeat constructor.
Qed.

(** X4.  One caller alone is never refused and never waits.  When no other
    caller takes the generation lock, then after any sequence of operations
    on a fresh manager both locks are free again and every acquisition of the
    generation lock made so far succeeded, the pipeline's reacquisitions
    after its two stages included; and a pipeline started from there returns
    a result (it is not parked) and leaves the generation lock free. *)
Theorem single_caller_never_refused (env : Env) (buffer_gb : Q) (threshold : Z)
    (ops : list Op) :
  quiet env ->
  let w := run_ops env ops (init_world buffer_gb threshold) in
  generation_lock (mgr w) = false /\
  model_lock (mgr w) = false /\
  (forall blocking, ~ In (EvAcquire blocking false) (trace w)) /\
  (forall prompt dir steps,
     exists res w',
       generate_full_pipeline env prompt dir steps w = (Ret res, w') /\
       generation_lock (mgr w') = false).
Proof.
  intros Hq w.
  destruct (run_ops_calm env Hq ops _ (init_calm buffer_gb threshold))
    as (HG & Hg & Hf).
  fold w in HG, Hg, Hf.
  conj; auto.
  - apply HG.
  - intros blocking Hin. rewrite Forall_forall in Hf. exact (Hf _ Hin).
  - intros prompt dir steps.
    pose proof (generate_full_pipeline_calm env Hq prompt dir steps w HG Hg) as H.
    unfold wp in H.
    destruct (generate_full_pipeline env prompt dir steps w) as [o w'].
    cbn in H. destruct H as (_ & Hl & _ & res & ->). eauto.
Qed.

Lemma single_caller_never_refused_witness :
  generation_lock
    (mgr (run_ops happy_env
            [OpGenerateFullPipeline "a chair" "out" 25; OpLoadSdxl]
            fresh_world)) = false.
Proof.
  exact (proj1 (single_caller_never_refused happy_env 2 20
                  [OpGenerateFullPipeline "a chair" "out" 25; OpLoadSdxl]
                  happy_env_quiet)).
Defined.

(** ** Generation on a slot that is READY *)

Ltac warm_norm :=
  wsimpl_in_all;
  cbn [warm_event other lookup update instantmesh_info sdxl_info
       state pipeline load_count] in *;
  use_handles;
  cbn [is_resident state pipeline load_count].

Ltac warm_log :=
  repeat (apply since_cons;
          [ warm_norm; first [ exact I | conj; reflexivity ] | ]);
  apply since_refl.

Ltac warm_leaf :=
  warm_norm;
  first [ congruence
        | match goal with
          | Hr : state ?i = READY, H : negb (ModelState_eqb (state ?i) READY) = true |- _ =>
              rewrite Hr in H; discriminate H
          end
        | handle_clash
        | conj; [ warm_log | reflexivity | reflexivity | reflexivity | reflexivity ] ].

Section Warm.
Variable env : Env.

Lemma generate_image_warm prompt path wd ht steps w :
  Good w -> generation_lock (mgr w) = false ->
  state (lookup (models (mgr w)) SDXL) = READY ->
  wp (generate_image env prompt path wd ht steps)
     (fun _ w' =>
        since (trace w) (warm_event SDXL (models (mgr w))) (trace w') /\
        lookup (models (mgr w')) INSTANTMESH = lookup (models (mgr w)) INSTANTMESH /\
        pipeline (lookup (models (mgr w')) SDXL) = pipeline (lookup (models (mgr w)) SDXL) /\
        load_count (lookup (models (mgr w')) SDXL) = load_count (lookup (models (mgr w)) SDXL) /\
        is_resident (state (lookup (models (mgr w')) SDXL)) = true) w.
Proof.
  intros (Ht & Hk & Hl) Hg Hr.
  destruct (table_ok_ready_handle _ SDXL Hk) as [h Hh]; [rewrite Hr; reflexivity|].
  unfold generate_image, generation_failed, load_sdxl.
  repeat wp_step.
  all: try solve [warm_leaf].
Qed.

Lemma generate_mesh_warm image_data path w :
  Good w -> generation_lock (mgr w) = false ->
  state (lookup (models (mgr w)) INSTANTMESH) = READY ->
  wp (generate_mesh env image_data path)
     (fun _ w' =>
        since (trace w) (warm_event INSTANTMESH (models (mgr w))) (trace w') /\
        lookup (models (mgr w')) SDXL = lookup (models (mgr w)) SDXL /\
        pipeline (lookup (models (mgr w')) INSTANTMESH)
        = pipeline (lookup (models (mgr w)) INSTANTMESH) /\
        load_count (lookup (models (mgr w')) INSTANTMESH)
        = load_count (lookup (models (mgr w)) INSTANTMESH) /\
        is_resident (state (lookup (models (mgr w')) INSTANTMESH)) = true) w.
Proof.
  intros (Ht & Hk & Hl) Hg Hr.
  destruct (table_ok_ready_handle _ INSTANTMESH Hk) as [h Hh]; [rewrite Hr; reflexivity|].
  unfold generate_mesh, generation_failed, load_instantmesh.
  repeat wp_step.
  all: try solve [warm_leaf].
Qed.

End Warm.

Lemma warm_since m t0 tr0 tr :
  since tr0 (warm_event m t0) tr ->
  exists new,
    tr = new ++ tr0 /\
    (forall ok, ~ In (EvBudget ok) new) /\
    (forall t, In (EvModels t) new ->
       lookup t (other m) = lookup t0 (other m) /\
       pipeline (lookup t m) = pipeline (lookup t0 m) /\
       load_count (lookup t m) = load_count (lookup t0 m) /\
       is_resident (state (lookup t m)) = true).
Proof.
  intros (new & -> & Hf). exists new. rewrite Forall_forall in Hf.
  conj; auto.
  - intros ok Hin. exact (Hf _ Hin).
  - intros t Hin. exact (Hf _ Hin).
Qed.

(** X5.  A generation on a slot that is READY reuses the loaded pipeline object.
    From a world as the operations leave it, with the generation lock free
    and the slot of the operation READY, [generate_image] resp.
    [generate_mesh] makes no admission check, and in every snapshot it logs
    and in the table it leaves the other slot is untouched and its own slot
    is still resident (READY or GENERATING) with the same pipeline object and
    the same load_count: nothing is evicted and nothing is loaded. *)
Theorem ready_slot_is_reused (env : Env) (w : World) :
  Good w -> generation_lock (mgr w) = false ->
  (state (lookup (models (mgr w)) SDXL) = READY ->
   forall prompt path wd ht steps,
     let w' := snd (generate_image env prompt path wd ht steps w) in
     (exists new,
        trace w' = new ++ trace w /\
        (forall ok, ~ In (EvBudget ok) new) /\
        (forall t, In (EvModels t) new ->
           lookup t INSTANTMESH = lookup (models (mgr w)) INSTANTMESH /\
           pipeline (lookup t SDXL) = pipeline (lookup (models (mgr w)) SDXL) /\
           load_count (lookup t SDXL) = load_count (lookup (models (mgr w)) SDXL) /\
           is_resident (state (lookup t SDXL)) = true)) /\
     lookup (models (mgr w')) INSTANTMESH = lookup (models (mgr w)) INSTANTMESH /\
     pipeline (lookup (models (mgr w')) SDXL) = pipeline (lookup (models (mgr w)) SDXL) /\
     load_count (lookup (models (mgr w')) SDXL) = load_count (lookup (models (mgr w)) SDXL) /\
     is_resident (state (lookup (models (mgr w')) SDXL)) = true) /\
  (state (lookup (models (mgr w)) INSTANTMESH) = READY ->
   forall image_data path,
     let w' := snd (generate_mesh env image_data path w) in
     (exists new,
        trace w' = new ++ trace w /\
        (forall ok, ~ In (EvBudget ok) new) /\
        (forall t, In (EvModels t) new ->
           lookup t SDXL = lookup (models (mgr w)) SDXL /\
           pipeline (lookup t INSTANTMESH) = pipeline (lookup (models (mgr w)) INSTANTMESH) /\
           load_count (lookup t INSTANTMESH)
           = load_count (lookup (models (mgr w)) INSTANTMESH) /\
           is_resident (state (lookup t INSTANTMESH)) = true)) /\
     lookup (models (mgr w')) SDXL = lookup (models (mgr w)) SDXL /\
     pipeline (lookup (models (mgr w')) INSTANTMESH)
     = pipeline (lookup (models (mgr w)) INSTANTMESH) /\
     load_count (lookup (models (mgr w')) INSTANTMESH)
     = load_count (lookup (models (mgr w)) INSTANTMESH) /\
     is_resident (state (lookup (models (mgr w')) INSTANTMESH)) = true).
Proof.
  intros HG Hg. split.
  - intros Hr prompt path wd ht steps w'.
    destruct (generate_image_warm env prompt path wd ht steps w HG Hg Hr)
      as (Hs & H). fold w' in Hs, H.
    split; [|exact H]. exact (warm_since SDXL _ _ _ Hs).
  - intros Hr image_data path w'.
    destruct (generate_mesh_warm env image_data path w HG Hg Hr)
      as (Hs & H). fold w' in Hs, H.
    split; [|exact H]. exact (warm_since INSTANTMESH _ _ _ Hs).
Qed.

Lemma sdxl_ready_good : Good sdxl_ready_world.
Proof. apply (run_ops_good happy_env [OpLoadSdxl] _ (init_good 2 20)). Qed.

Lemma ready_slot_is_reused_witness :
  load_count
    (lookup (models (mgr (snd (generate_image happy_env "a chair" "image.png"
                                 1024 1024 25 sdxl_ready_world)))) SDXL)
  = load_count (lookup (models (mgr sdxl_ready_world)) SDXL).
Proof.
  exact (proj1 (proj2 (proj2 (proj2
           (proj1 (ready_slot_is_reused happy_env sdxl_ready_world
                     sdxl_ready_good eq_refl)
                  eq_refl "a chair"%string "image.png"%string 1024 1024 25))))).
Defined.

(** ** load_count *)

Lemma settling_load_count t0 t x :
  settling t0 t -> load_count (lookup t x) = load_count (lookup t0 x).
Proof. intros H. apply evicting_load_count, settling_evicting, H. Qed.

Section Counts.
Variable env : Env.

Lemma load_model_counts m w :
  Good w ->
  wp (load_model env m)
     (fun o w' =>
        load_count (lookup (models (mgr w')) (other m))
        = load_count (lookup (models (mgr w)) (other m)) /\
        (o = Ret true -> state (lookup (models (mgr w)) m) <> READY ->
         load_count (lookup (models (mgr w')) m)
         = load_count (lookup (models (mgr w)) m) + 1) /\
        (o <> Ret true \/ state (lookup (models (mgr w)) m) = READY ->
         load_count (lookup (models (mgr w')) m)
         = load_count (lookup (models (mgr w)) m))) w.
Proof.
  intros (Ht & Hk & Hl).
  destruct (ModelState_eqb (state (lookup (models (mgr w)) m)) READY) eqn:E.
  - apply state_eqb_true in E.
    unfold wp. rewrite load_model_ready; auto. cbn.
    conj; auto. intros _ Hn. contradiction.
  - apply state_eqb_false in E.
    eapply wp_mono;
      [apply (load_model_spec env m w Hl (fun x => table_ok_fits _ x Hk) E)|].
    intros o w' (_ & _ & _ & Hok & Hno & _). cbv beta.
    destruct o as [[]|e|].
    + destruct (Hok eq_refl) as (_ & _ & H1 & H2).
      conj; auto. intros [H|H]; congruence.
    + assert (Hs : settling (models (mgr w)) (models (mgr w'))) by (apply Hno; discriminate).
      conj; intros; try discriminate; apply settling_load_count; auto.
    + assert (Hs : settling (models (mgr w)) (models (mgr w'))) by (apply Hno; discriminate).
      conj; intros; try discriminate; apply settling_load_count; auto.
    + assert (Hs : settling (models (mgr w)) (models (mgr w'))) by (apply Hno; discriminate).
      conj; intros; try discriminate; apply settling_load_count; auto.
Qed.

Lemma load_model_grow m w :
  Good w -> wp (load_model env m) (fun _ w' => counts_grow w w') w.
Proof.
  intros HG. eapply wp_mono; [apply load_model_counts; exact HG|].
  intros o w' (Ho & Hy & Hn) x.
  destruct (lookup_update_cases (models (mgr w)) m (lookup (models (mgr w)) m) x)
    as [[-> _]|[-> _]].
  - destruct o as [[]|e|].
    2-4: rewrite Hn; [lia|left; discriminate].
    destruct (ModelState_eqb (state (lookup (models (mgr w)) m)) READY) eqn:E.
    + apply state_eqb_true in E. rewrite Hn; [lia|auto].
    + apply state_eqb_false in E. rewrite Hy; auto. lia.
  - rewrite Ho. lia.
Qed.

End Counts.

Ltac counts_leaf :=
  unfold counts_grow in *;
  repeat match goal with
         | H : forall x : ModelType, _ <= _ |- _ =>
             pose proof (H INSTANTMESH); pose proof (H SDXL); clear H
         end;
  let x := fresh "x" in
  intros x; destruct x;
  wsimpl_in_all;
  cbn [other lookup update instantmesh_info sdxl_info state pipeline load_count] in *;
  lia.

Lemma counts_grow_refl w : counts_grow w w.
Proof. intros x. lia. Qed.

Lemma counts_grow_trans w1 w2 w3 :
  counts_grow w1 w2 -> counts_grow w2 w3 -> counts_grow w1 w3.
Proof. intros H1 H2 x. specialize (H1 x). specialize (H2 x). lia. Qed.

Lemma evicting_grow w w' :
  evicting (models (mgr w)) (models (mgr w')) -> counts_grow w w'.
Proof. intros H x. rewrite (evicting_load_count _ _ x H). lia. Qed.

Section CountsGrow.
Variable env : Env.

Lemma generate_image_counts prompt path wd ht steps w :
  Good w ->
  wp (generate_image env prompt path wd ht steps) (fun _ w' => counts_grow w w') w.
Proof.
  intros (Ht & Hk & Hl).
  unfold generate_image, generation_failed, load_sdxl.
  repeat wp_step.
  all: try solve [counts_leaf].
  eapply wp_mono; [apply load_model_grow; good_tac|].
  intros o w1 Hc.
  destruct o as [[]|e|]; cbv beta iota.
  all: repeat wp_step.
  all: solve [counts_leaf].
Qed.

Lemma generate_mesh_counts image_data path w :
  Good w ->
  wp (generate_mesh env image_data path) (fun _ w' => counts_grow w w') w.
Proof.
  intros (Ht & Hk & Hl).
  unfold generate_mesh, generation_failed, load_instantmesh.
  repeat wp_step.
  all: try solve [counts_leaf].
  eapply wp_mono; [apply load_model_grow; good_tac|].
  intros o w1 Hc.
  destruct o as [[]|e|]; cbv beta iota.
  all: repeat wp_step.
  all: solve [counts_leaf].
Qed.

Ltac counts_gen spec counts :=
  eapply wp_mono;
  [ apply wp_conj; [ apply spec; good_tac | apply counts; good_tac ] | ];
  intros ? ? (((? & ? & ?) & _ & (? & -> & _) & _) & ?);
  cbv beta iota; repeat wp_step.

Lemma generate_full_pipeline_counts prompt dir steps w :
  Good w ->
  wp (generate_full_pipeline env prompt dir steps) (fun _ w' => counts_grow w w') w.
Proof.
  intros (Ht & Hk & Hl).
  unfold generate_full_pipeline.
  repeat wp_step.
  all: try solve [counts_leaf].
  all: counts_gen generate_image_spec generate_image_counts.
  all: try solve [counts_leaf].
  all: counts_gen generate_mesh_spec generate_mesh_counts.
  all: solve [counts_leaf].
Qed.

Lemma shutdown_counts w : wp (shutdown env) (fun _ w' => counts_grow w w') w.
Proof.
  unfold shutdown.
  apply wp_with_model_lock; [intros _; apply counts_grow_refl|intros Hl].
  eapply wp_mono; [apply unload_all_spec|].
  intros o w1 (_ & _ & _ & He & _).
  apply evicting_grow in He.
  destruct o as [[]|e|]; counts_leaf.
Qed.

Lemma run_op_counts op w : Good w -> counts_grow w (run_op env op w).
Proof.
  intros HG.
  destruct op as [ | | m | | | image_data path | prompt path wd ht steps
                 | prompt dir steps | ]; cbn [run_op].
  - apply (load_model_grow env INSTANTMESH w HG).
  - apply (load_model_grow env SDXL w HG).
  - apply evicting_grow. apply (unload_model_spec env m w).
  - apply evicting_grow. apply (unload_all_spec env w).
  - apply shutdown_counts.
  - apply generate_mesh_counts, HG.
  - apply generate_image_counts, HG.
  - apply generate_full_pipeline_counts, HG.
  - intros x. cbn. lia.
Qed.

Lemma run_ops_counts ops : forall w, Good w -> counts_grow w (run_ops env ops w).
Proof.
  induction ops as [|op ops IH]; intros w HG; cbn.
  - apply counts_grow_refl.
  - eapply counts_grow_trans; [apply run_op_counts, HG|].
    apply IH. apply (run_op_good env op w HG).
Qed.

End CountsGrow.

(** X6.  load_count counts the loads that succeeded.  From a world as the
    operations leave it, a load that returns True for a slot that was not
    READY raises that slot's load_count by exactly one; a load of a READY
    slot, a load that returns False and a load that raises leave it as it
    was; no load changes the load_count of the other slot, and unloading
    changes no load_count. *)
Theorem load_count_counts_loads (env : Env) (w : World) (m : ModelType) :
  Good w ->
  let o := fst (load_model env m w) in
  let w' := snd (load_model env m w) in
  (o = Ret true -> state (lookup (models (mgr w)) m) <> READY ->
   load_count (lookup (models (mgr w')) m) = load_count (lookup (models (mgr w)) m) + 1) /\
  (o <> Ret true \/ state (lookup (models (mgr w)) m) = READY ->
   load_count (lookup (models (mgr w')) m) = load_count (lookup (models (mgr w)) m)) /\
  load_count (lookup (models (mgr w')) (other m))
  = load_count (lookup (models (mgr w)) (other m)) /\
  (forall x y,
     load_count (lookup (models (mgr (snd (_unload_model env x w)))) y)
     = load_count (lookup (models (mgr w)) y)) /\
  (forall y,
     load_count (lookup (models (mgr (snd (_unload_all env w)))) y)
     = load_count (lookup (models (mgr w)) y)).
Proof.
  intros HG o w'.
  destruct (load_model_counts env m w HG) as (Ho & Hy & Hn).
  conj; auto.
  - intros x y. apply evicting_load_count. apply (unload_model_spec env x w).
  - intros y. apply evicting_load_count. apply (unload_all_spec env w).
Qed.

Lemma load_count_counts_loads_witness :
  load_count (lookup (models (mgr (snd (load_model happy_env SDXL fresh_world)))) SDXL)
  = load_count (lookup (models (mgr fresh_world)) SDXL) + 1.
Proof.
  refine (proj1 (load_count_counts_loads happy_env fresh_world SDXL (init_good 2 20)) _ _).
  - vm_compute. reflexivity.
  - vm_compute. discriminate.
Defined.

(** X7.  No operation lowers a load_count.  Over any run from a fresh manager,
    and over any continuation of it, the load_count of each slot is
    non-negative and never decreases. *)
Theorem load_count_never_decreases (env : Env) (buffer_gb : Q) (threshold : Z)
    (ops more : list Op) (m : ModelType) :
  let w := run_ops env ops (init_world buffer_gb threshold) in
  0 <= load_count (lookup (models (mgr w)) m) /\
  load_count (lookup (models (mgr w)) m)
  <= load_count (lookup (models (mgr (run_ops env more w))) m).
Proof.
  intros w. split.
  - pose proof (run_ops_counts env ops _ (init_good buffer_gb threshold) m) as H.
    fold w in H. destruct m; cbn in H; exact H.
  - apply run_ops_counts.
    apply (run_ops_good env ops _ (init_good buffer_gb threshold)).
Qed.

(** ** The results of the pipeline *)

Ltac outcome_leaf :=
  success_hyps; frame_hyps; unfold pipeline_outcome;
  first
    [ congruence
    | exact I
    | left; conj; [ reflexivity | assumption | reflexivity ]
    | right; left; eexists; conj;
      [ reflexivity | eassumption | assumption | reflexivity | reflexivity ]
    | right; right; left; eexists; split; [ reflexivity | assumption ]
    | right; right; right; left; do 2 eexists; conj;
      [ reflexivity | assumption | assumption | wsimpl; lia ]
    | right; right; right; right; do 4 eexists; conj;
      [ reflexivity | assumption | assumption | wsimpl; lia
      | intros _; wsimpl; lia ] ].

Section Outcome.
Variable env : Env.

Lemma generate_full_pipeline_outcome prompt dir steps w :
  Good w ->
  wp (generate_full_pipeline env prompt dir steps) (pipeline_outcome env dir w) w.
Proof.
  intros (Ht & Hk & Hl).
  unfold generate_full_pipeline.
  repeat wp_step.
  all: wsimpl_in_all.
  all: try solve [outcome_leaf].
  all: after_gen generate_image_spec; repeat wp_step; wsimpl_in_all.
  all: try solve [outcome_leaf].
  all: after_gen generate_mesh_spec; repeat wp_step; wsimpl_in_all.
  all: try solve [outcome_leaf].
Qed.

End Outcome.

(** X8.  Stage 2 fails.  From a world as the operations leave it, whenever
    [generate_full_pipeline] returns a result whose mesh stage failed, the
    result is a failure with stage 'mesh' and the error 'Mesh generation
    failed: ' followed by the mesh stage's error; it carries the successful
    image stage, has no image_path, mesh_path or total_time key, and the image
    generation has been counted in generation_count. *)
Theorem pipeline_stage_b_failure (env : Env) (prompt dir : string) (steps : Z)
    (w : World) :
  Good w ->
  forall res w' r2,
    generate_full_pipeline env prompt dir steps w = (Ret res, w') ->
    stages_mesh res = Some r2 -> success r2 = false ->
    pipeline_success res = false /\
    pipeline_stage res = Some "mesh"%string /\
    pipeline_error res = Some ("Mesh generation failed: " ++ error_text r2)%string /\
    (exists r1, stages_image res = Some r1 /\ success r1 = true) /\
    image_path res = None /\ mesh_path res = None /\ total_time res = None /\
    generation_count (mgr w) + 1 <= generation_count (mgr w').
Proof.
  intros HG res w' r2 Hrun Hst Hs.
  pose proof (generate_full_pipeline_outcome env prompt dir steps w HG) as H.
  unfold wp in H. rewrite Hrun in H. cbn in H.
  destruct H as [(-> & _)|[(e & -> & _)|[(r1 & -> & _)
                |[(r1 & r2' & -> & H1 & H2 & Hc)|(r1 & r2' & t & v & -> & H1 & H2 & _)]]]];
    cbn in Hst; try discriminate Hst; injection Hst as ->.
  - cbn. conj; auto. eauto.
  - congruence.
Qed.

Lemma pipeline_stage_b_failure_witness :
  let r := generate_full_pipeline odd_output_env "a chair" "out" 25 fresh_world in
  exists res,
    fst r = Ret res /\
    pipeline_stage res = Some "mesh"%string /\
    pipeline_error res
    = Some "Mesh generation failed: Model output format not recognized"%string /\
    generation_count (mgr fresh_world) + 1 <= generation_count (mgr (snd r)).
Proof.
  eexists. split; [vm_compute; reflexivity|].
  refine ((fun H => conj (proj1 (proj2 H))
                         (conj (proj1 (proj2 (proj2 H)))
                               (proj2 (proj2 (proj2 (proj2 (proj2 (proj2 (proj2 H)))))))))
            (pipeline_stage_b_failure odd_output_env "a chair" "out" 25 fresh_world
               (init_good 2 20) _
               (snd (generate_full_pipeline odd_output_env "a chair" "out" 25 fresh_world))
               (failure "Model output format not recognized") _ _ _));
    vm_compute; reflexivity.
Defined.

(** X9.  The results of the pipeline, classified.  From a world as the
    operations leave it no exception escapes [generate_full_pipeline], and a
    result it returns is of one of five kinds.  It is a success exactly when
    it has no stage key; then it has no error, both paths (generated_image.png
    and generated_mesh.glb under the output directory), a total_time, two
    successful stage results, and generation_count has grown by at least
    two: by the two generations of this run, and by exactly two when no other
    caller takes the lock during the run.  A
    failure has an error and one of the stages 'blocked', 'unknown', 'image',
    'mesh', and no paths.  The stage is 'blocked' exactly when the generation
    lock was held at entry.  The stage is 'unknown' only when making the
    output directory raised: the error is that exception's message, no stage
    was run, and the slot table and generation_count are unchanged. *)
Theorem pipeline_result_classified (env : Env) (prompt dir : string) (steps : Z)
    (w : World) :
  Good w ->
  (forall e, fst (generate_full_pipeline env prompt dir steps w) <> Raise e) /\
  (forall res w',
     generate_full_pipeline env prompt dir steps w = (Ret res, w') ->
     (pipeline_success res = true <-> pipeline_stage res = None) /\
     (pipeline_success res = true ->
      pipeline_error res = None /\
      image_path res = Some (path_join dir "generated_image.png") /\
      mesh_path res = Some (path_join dir "generated_mesh.glb") /\
      (exists t, total_time res = Some t) /\
      (exists r1 r2,
         stages_image res = Some r1 /\ stages_mesh res = Some r2 /\
         success r1 = true /\ success r2 = true) /\
      generation_count (mgr w) + 2 <= generation_count (mgr w') /\
      (quiet env -> generation_count (mgr w') = generation_count (mgr w) + 2)) /\
     (pipeline_success res = false ->
      (exists e, pipeline_error res = Some e) /\
      (pipeline_stage res = Some "blocked"%string \/
       pipeline_stage res = Some "unknown"%string \/
       pipeline_stage res = Some "image"%string \/
       pipeline_stage res = Some "mesh"%string) /\
      image_path res = None /\ mesh_path res = None) /\
     (pipeline_stage res = Some "blocked"%string <-> generation_lock (mgr w) = true) /\
     (pipeline_stage res = Some "unknown"%string ->
      pipeline_error res = io env (tick w) /\
      stages_image res = None /\ stages_mesh res = None /\
      models (mgr w') = models (mgr w) /\
      generation_count (mgr w') = generation_count (mgr w))).
Proof.
  intros HG.
  pose proof (generate_full_pipeline_outcome env prompt dir steps w HG) as H.
  unfold wp in H. split.
  - intros e He. rewrite He in H. exact H.
  - intros res w' Hrun. rewrite Hrun in H. cbn in H.
    assert (Hbusy : generation_lock (mgr w) = true -> res = busy_pipeline_result).
    { intros Hl. rewrite generate_full_pipeline_busy in Hrun by exact Hl.
      injection Hrun as <- _. reflexivity. }
    destruct H as [(-> & Hl & _)|[(e & -> & Hio & Hl & Hm & Hc)|[(r1 & -> & H1)
                  |[(r1 & r2 & -> & H1 & H2 & Hc)|(r1 & r2 & t & v & -> & H1 & H2 & Hc & Hq)]]]];
      cbn [pipeline_success pipeline_error pipeline_stage stages_image stages_mesh
           total_time image_path mesh_path pipeline_vram_after busy_pipeline_result].
    all: repeat match goal with
                | |- _ /\ _ => split
                | |- _ <-> _ => split
                | |- _ -> _ => intro
                end.
    all: try discriminate; try congruence; eauto 7.
    all: try match goal with
         | Hl : generation_lock _ = true |- _ =>
             specialize (Hbusy Hl); unfold busy_pipeline_result in Hbusy;
             discriminate Hbusy
         end.
Qed.

Lemma pipeline_result_classified_witness :
  exists res w',
    generate_full_pipeline happy_env "a chair" "out" 25 fresh_world = (Ret res, w') /\
    generation_count (mgr w') = generation_count (mgr fresh_world) + 2.
Proof.
  eexists. eexists. split; [vm_compute; reflexivity|].
  refine (proj2 (proj2 (proj2 (proj2 (proj2 (proj2
            (proj1 (proj2 (proj2 (pipeline_result_classified happy_env "a chair" "out" 25
                                    fresh_world (init_good 2 20)) _ _ _)) _))))))
            happy_env_quiet).
  - vm_compute; reflexivity.
  - vm_compute; reflexivity.
Defined.

(** ** Unload, shutdown and load: failures and recovery *)

(** X10.  [_unload_model] and a failing cache clear.  Unloading a slot that is
    UNLOADED does nothing at all.  Otherwise the other slot is untouched, the
    slot's pipeline object is dropped and its load_count kept, and the
    outcome follows the two calls of [_clear_vram]: if the first succeeds the
    slot ends UNLOADED; if the first raises, the slot ends in ERROR and the
    clear is tried again, and only when this second call raises too does the
    exception (the second one) escape to the caller. *)
Theorem unload_model_outcomes (env : Env) (x : ModelType) (w : World) :
  (state (lookup (models (mgr w)) x) = UNLOADED ->
   _unload_model env x w = (Ret tt, w)) /\
  (state (lookup (models (mgr w)) x) <> UNLOADED ->
   let r := _unload_model env x w in
   let i := lookup (models (mgr (snd r))) x in
   lookup (models (mgr (snd r))) (other x) = lookup (models (mgr w)) (other x) /\
   pipeline i = None /\
   load_count i = load_count (lookup (models (mgr w)) x) /\
   match cuda_clear env (tick w) with
   | None => fst r = Ret tt /\ state i = UNLOADED /\ tick (snd r) = S (tick w)
   | Some _ =>
       state i = ERROR /\ tick (snd r) = S (S (tick w)) /\
       match cuda_clear env (S (tick w)) with
       | None => fst r = Ret tt
       | Some e => fst r = Raise e
       end
   end).
Proof.
  split.
  - intros H. unfold _unload_model, bind, get_info, ret. cbn. rewrite H. reflexivity.
  - intros H r i. subst r i.
    unfold _unload_model, bind, get_info, try_except, set_state, set_pipeline,
           _clear_vram, ext_unit, ret.
    cbn [fst snd].
    destruct (ModelState_eqb (state (lookup (models (mgr w)) x)) UNLOADED) eqn:E.
    { apply state_eqb_true in E. contradiction. }
    wsimpl. rewrite ?lookup_update_same. cbn [state pipeline load_count].
    destruct (pipeline (lookup (models (mgr w)) x)) eqn:Ep; wsimpl;
      destruct (cuda_clear env (tick w)) eqn:E1; wsimpl;
      try (destruct (cuda_clear env (S (tick w))) eqn:E2; wsimpl);
      rewrite ?E1, ?E2; wsimpl; conj; reflexivity.
Qed.

Section Clear.
Variable env : Env.
Hypothesis Hclear : clear_succeeds env.

Lemma unload_model_clear x w :
  wp (_unload_model env x)
     (fun o w' =>
        o = Ret tt /\
        lookup (models (mgr w')) (other x) = lookup (models (mgr w)) (other x) /\
        state (lookup (models (mgr w')) x) = UNLOADED) w.
Proof.
  unfold _unload_model.
  repeat wp_step.
  all: try match goal with
           | H : cuda_clear env ?n = Some _ |- _ => rewrite Hclear in H; discriminate H
           end.
  all: wsimpl; conj; try reflexivity.
  apply state_eqb_true; assumption.
Qed.

Lemma unload_all_clear w :
  wp (_unload_all env)
     (fun o w' => o = Ret tt /\ forall x, state (lookup (models (mgr w')) x) = UNLOADED) w.
Proof.
  unfold _unload_all. wp_step.
  eapply wp_mono; [apply unload_model_clear|].
  intros o w1 (-> & Ho1 & Hs1). cbv beta iota.
  eapply wp_mono; [apply unload_model_clear|].
  intros o w2 (-> & Ho2 & Hs2). cbn in Ho1, Ho2.
  split; auto.
  intros []; cbn; auto. rewrite Ho2. exact Hs1.
Qed.

End Clear.

Lemma shutdown_unloaded env w :
  model_lock (mgr w) = false ->
  (forall x, state (lookup (models (mgr w)) x) = UNLOADED) ->
  shutdown env w = (Ret tt, w).
Proof.
  intros Hl Hu.
  destruct w as [[t gl ml gc gt vb rt] tk tr]. cbn in Hl, Hu. subst ml.
  pose proof (Hu INSTANTMESH) as H1. pose proof (Hu SDXL) as H2. cbn in H1, H2.
  unfold shutdown, with_model_lock, finally, _unload_all, _unload_model, bind,
         get_info, ret.
  cbn. rewrite H1. cbn. rewrite H2. reflexivity.
Qed.

(** X11.  Shutdown.  From a world as the operations leave it [shutdown] does not
    wait and gives the model lock back; when it returns, no slot holds a
    pipeline object any more (each is UNLOADED or ERROR), with the counters
    and load_counts as before.  When [_clear_vram] never raises it returns
    with both slots UNLOADED.  Shutting down a manager whose slots are all
    UNLOADED changes nothing and makes no external call, so a second shutdown
    after a clean one is a no-op. *)
Theorem shutdown_evicts (env : Env) (w : World) :
  Good w ->
  let r := shutdown env w in
  fst r <> Blocked /\
  model_lock (mgr (snd r)) = false /\
  generation_count (mgr (snd r)) = generation_count (mgr w) /\
  (forall x, load_count (lookup (models (mgr (snd r))) x)
             = load_count (lookup (models (mgr w)) x)) /\
  (fst r = Ret tt ->
   forall x, evicted (lookup (models (mgr (snd r))) x) = true) /\
  (clear_succeeds env ->
   fst r = Ret tt /\
   (forall x, state (lookup (models (mgr (snd r))) x) = UNLOADED) /\
   shutdown env (snd r) = (Ret tt, snd r)).
Proof.
  intros HG r.
  pose proof (shutdown_good env w HG) as (Hb & Hf & HG').
  fold r in Hb, Hf, HG'.
  destruct HG as (Ht & Hk & Hl).
  assert (Hspec : wp (shutdown env)
            (fun o w' =>
               evicting (models (mgr w)) (models (mgr w')) /\
               (o = Ret tt -> forall x, evicted (lookup (models (mgr w')) x) = true) /\
               (clear_succeeds env ->
                o = Ret tt /\ forall x, state (lookup (models (mgr w')) x) = UNLOADED)) w).
  { unfold shutdown. apply wp_with_model_lock; [congruence|intros _].
    eapply wp_mono;
      [apply wp_conj; [apply unload_all_spec|apply wp_conj; [apply wp_any|]]|].
    - instantiate (1 := fun o w' =>
        clear_succeeds env ->
        o = Ret tt /\ forall x, state (lookup (models (mgr w')) x) = UNLOADED).
      unfold wp. intros Hc. apply (unload_all_clear env Hc).
    - intros o w1 ((_ & Hb1 & _ & He & Hv & _) & _ & Hc).
      wsimpl_in_all.
      destruct (Hv (fun x => table_ok_fits _ x Hk)) as [_ Hev].
      destruct o as [[]|e|]; [| |congruence]; wsimpl; conj; auto.
      all: try (intros H; discriminate H).
      all: try (intros H; destruct (Hc H); discriminate).
      }
  fold r in Hspec. unfold wp in Hspec. destruct Hspec as (He & Hev & Hc).
  destruct Hf as (_ & _ & Hgc & _).
  conj; auto.
  - apply HG'.
  - intros x. apply evicting_load_count, He.
  - intros Hclear. destruct (Hc Hclear) as [Hr Hu].
    conj; auto. apply shutdown_unloaded; [apply HG'|exact Hu].
Qed.

Lemma shutdown_evicts_witness :
  let r := shutdown happy_env sdxl_ready_world in
  fst r <> Blocked /\ model_lock (mgr (snd r)) = false.
Proof.
  pose proof (shutdown_evicts happy_env sdxl_ready_world
                (proj1 (run_ops_good happy_env [OpLoadSdxl] _ (init_good 2 20)))) as H.
  exact (conj (proj1 H) (proj1 (proj2 H))).
Defined.

(** X12.  A load succeeds whenever the collaborators do, whatever the slot went
    through before.  From a world as the operations leave it (the slot may be
    UNLOADED, in ERROR after a failed load or unload, or stuck in
    GENERATING), when no collaborator fails and the admission check passes,
    [load_instantmesh] resp. [load_sdxl] returns True with the slot READY and
    holding a pipeline object and the other slot evicted; when the slot was
    not READY already, its load_count is one more and the other slot is
    UNLOADED. *)
Theorem load_recovers (env : Env) (w : World) (m : ModelType) :
  Good w -> backends_succeed env (vram_buffer_gb (mgr w)) ->
  exists w',
    load_model env m w = (Ret true, w') /\
    Good w' /\
    state (lookup (models (mgr w')) m) = READY /\
    (exists h, pipeline (lookup (models (mgr w')) m) = Some h) /\
    evicted (lookup (models (mgr w')) (other m)) = true /\
    (state (lookup (models (mgr w)) m) <> READY ->
     state (lookup (models (mgr w')) (other m)) = UNLOADED /\
     load_count (lookup (models (mgr w')) m)
     = load_count (lookup (models (mgr w)) m) + 1).
Proof.
  intros HG Hback.
  pose proof (load_model_good env m w HG) as H1.
  pose proof (load_model_happy env _ Hback m w (proj2 (proj2 HG)) eq_refl) as H2.
  pose proof (load_model_counts env m w HG) as H3.
  unfold wp in H1, H2, H3.
  destruct (load_model env m w) as [o w'] eqn:E. cbn in H1, H2, H3.
  destruct H2 as (-> & _ & Hr & Hu).
  destruct H1 as (_ & _ & HG' & Hev & _).
  destruct H3 as (_ & Hc & _).
  exists w'. conj; auto.
  - apply (table_ok_ready_handle _ m (proj1 (proj2 HG'))). rewrite Hr. reflexivity.
  - apply Hev. reflexivity.
Qed.

Lemma sdxl_error_good : Good sdxl_error_world.
Proof. apply (run_ops_good no_weights_env [OpLoadSdxl] _ (init_good 2 20)). Qed.

Lemma load_recovers_witness :
  state (lookup (models (mgr sdxl_error_world)) SDXL) = ERROR /\
  exists w',
    load_model happy_env SDXL sdxl_error_world = (Ret true, w') /\
    state (lookup (models (mgr w')) SDXL) = READY.
Proof.
  split; [vm_compute; reflexivity|].
  destruct (load_recovers happy_env sdxl_error_world SDXL sdxl_error_good
              happy_env_backends) as (w' & H & _ & Hr & _).
  exists w'. split; assumption.
Defined.

(** ** When the backend is called *)

Lemma invoke_ok_since tr0 tr :
  invoke_ok tr0 -> since tr0 table_event tr -> invoke_ok tr.
Proof.
  intros H0 (new & -> & Hf).
  induction Hf as [|e new He Hf IH]; cbn [app]; auto.
  destruct e; cbn in He; try contradiction; cbn [invoke_ok]; exact IH.
Qed.

Lemma evict_event_since tr0 t0 tr :
  invoke_ok tr0 -> since tr0 (evict_event t0) tr -> invoke_ok tr.
Proof.
  intros H0 Hs. apply (invoke_ok_since tr0); auto.
  eapply since_weaken; [|exact Hs]. apply evict_event_table.
Qed.

Ltac invoke_table_tac :=
  unfold invoke_table; wsimpl; use_handles; conj;
  [ reflexivity
  | discriminate
  | first [ assumption
          | rewrite lookup_update_other; assumption
          | cbn [other lookup update instantmesh_info sdxl_info] in *; assumption ] ].

Ltac invoke_leaf :=
  try ready_handle;
  first [ handle_clash
        | congruence
        | frame_hyps; wsimpl; cbn [invoke_ok];
          repeat match goal with
                 | |- _ /\ _ => split
                 end;
          first [ assumption | invoke_table_tac ] ].

Section Invoke.
Variable env : Env.

Lemma load_model_invoke m w :
  invoke_ok (trace w) ->
  wp (load_model env m) (fun _ w' => invoke_ok (trace w')) w.
Proof.
  intros H. eapply wp_mono; [apply load_model_log|].
  intros o w' Hs. eapply invoke_ok_since; eauto.
Qed.

Lemma generate_image_invoke prompt path wd ht steps w :
  Good w -> invoke_ok (trace w) ->
  wp (generate_image env prompt path wd ht steps)
     (fun _ w' => invoke_ok (trace w')) w.
Proof.
  intros (Ht & Hk & Hl) Hi.
  unfold generate_image, generation_failed, load_sdxl.
  repeat wp_step.
  all: wsimpl_in_all.
  all: try match goal with
           | Heq : negb (ModelState_eqb (state (lookup ?t ?m)) READY) = false |- _ =>
               let Hev := fresh "Hev" in
               assert (Hev : evicted (lookup t (other m)) = true)
                 by (apply table_ok_other_evicted; [assumption|];
                     apply negb_false_iff, state_eqb_true in Heq;
                     rewrite Heq; reflexivity)
           end.
  all: try solve [invoke_leaf].
  eapply wp_mono;
    [apply wp_conj; [apply load_model_good; good_tac|apply load_model_invoke; exact Hi]|].
  intros o w1 ((Hb & Hf & (Ht1 & Hk1 & Hl1) & Hr & Hrf) & Hi1).
  destruct o as [[]|e|]; cbv beta iota; [| | |congruence].
  - destruct (Hr eq_refl) as [Hr1 Hev].
    destruct (table_ok_ready_handle _ SDXL Hk1) as [h Hh]; [now rewrite Hr1|].
    repeat wp_step.
    all: wsimpl_in_all.
    all: solve [invoke_leaf].
  - repeat wp_step.
    all: wsimpl_in_all.
    all: solve [invoke_leaf].
  - repeat wp_step.
    all: wsimpl_in_all.
    all: solve [invoke_leaf].
Qed.

Lemma generate_mesh_invoke image_data path w :
  Good w -> invoke_ok (trace w) ->
  wp (generate_mesh env image_data path)
     (fun _ w' => invoke_ok (trace w')) w.
Proof.
  intros (Ht & Hk & Hl) Hi.
  unfold generate_mesh, generation_failed, load_instantmesh.
  repeat wp_step.
  all: wsimpl_in_all.
  all: try match goal with
           | Heq : negb (ModelState_eqb (state (lookup ?t ?m)) READY) = false |- _ =>
               let Hev := fresh "Hev" in
               assert (Hev : evicted (lookup t (other m)) = true)
                 by (apply table_ok_other_evicted; [assumption|];
                     apply negb_false_iff, state_eqb_true in Heq;
                     rewrite Heq; reflexivity)
           end.
  all: try solve [invoke_leaf].
  eapply wp_mono;
    [apply wp_conj; [apply load_model_good; good_tac|apply load_model_invoke; exact Hi]|].
  intros o w1 ((Hb & Hf & (Ht1 & Hk1 & Hl1) & Hr & Hrf) & Hi1).
  destruct o as [[]|e|]; cbv beta iota; [| | |congruence].
  - destruct (Hr eq_refl) as [Hr1 Hev].
    destruct (table_ok_ready_handle _ INSTANTMESH Hk1) as [h Hh]; [now rewrite Hr1|].
    repeat wp_step.
    all: wsimpl_in_all.
    all: solve [invoke_leaf].
  - repeat wp_step.
    all: wsimpl_in_all.
    all: solve [invoke_leaf].
  - repeat wp_step.
    all: wsimpl_in_all.
    all: solve [invoke_leaf].
Qed.

End Invoke.

Ltac invoke_gen spec invoke :=
  eapply wp_mono;
  [ apply wp_conj; [ apply spec; good_tac | apply invoke; [good_tac|wsimpl; assumption] ] | ];
  intros ? ? (((? & ? & ?) & _ & (? & -> & _) & _) & ?);
  cbv beta iota; repeat wp_step; wsimpl_in_all.

Ltac invoke_pipe_leaf :=
  first [ congruence | wsimpl; cbn [invoke_ok]; assumption ].

Section InvokeRuns.
Variable env : Env.

Lemma generate_full_pipeline_invoke prompt dir steps w :
  Good w -> invoke_ok (trace w) ->
  wp (generate_full_pipeline env prompt dir steps)
     (fun _ w' => invoke_ok (trace w')) w.
Proof.
  intros (Ht & Hk & Hl) Hi.
  unfold generate_full_pipeline.
  repeat wp_step.
  all: wsimpl_in_all.
  all: try solve [invoke_pipe_leaf].
  all: invoke_gen generate_image_spec generate_image_invoke.
  all: try solve [invoke_pipe_leaf].
  all: invoke_gen generate_mesh_spec generate_mesh_invoke.
  all: solve [invoke_pipe_leaf].
Qed.

Lemma shutdown_invoke w :
  invoke_ok (trace w) -> wp (shutdown env) (fun _ w' => invoke_ok (trace w')) w.
Proof.
  intros Hi. unfold shutdown.
  apply wp_with_model_lock; [intros _; exact Hi|intros Hl].
  eapply wp_mono; [apply unload_all_spec|].
  intros o w1 (Hs & _). wsimpl_in_all.
  apply (evict_event_since _ _ _ Hi) in Hs.
  destruct o as [[]|e|]; wsimpl; exact Hs.
Qed.

Lemma run_op_invoke op w :
  Good w -> invoke_ok (trace w) -> invoke_ok (trace (run_op env op w)).
Proof.
  intros HG Hi.
  destruct op as [ | | m | | | image_data path | prompt path wd ht steps
                 | prompt dir steps | ]; cbn [run_op].
  - apply (load_model_invoke env INSTANTMESH w Hi).
  - apply (load_model_invoke env SDXL w Hi).
  - eapply evict_event_since; [exact Hi|]. apply (unload_model_spec env m w).
  - eapply evict_event_since; [exact Hi|]. apply (unload_all_spec env w).
  - apply (shutdown_invoke w Hi).
  - apply (generate_mesh_invoke env image_data path w HG Hi).
  - apply (generate_image_invoke env prompt path wd ht steps w HG Hi).
  - apply (generate_full_pipeline_invoke prompt dir steps w HG Hi).
  - exact Hi.
Qed.

Lemma run_ops_invoke ops : forall w,
  Good w -> invoke_ok (trace w) -> invoke_ok (trace (run_ops env ops w)).
Proof.
  induction ops as [|op ops IH]; intros w HG Hi; cbn; auto.
  apply IH.
  - apply (run_op_good env op w HG).
  - apply run_op_invoke; auto.
Qed.

End InvokeRuns.

Lemma invoke_ok_split pre : forall m post,
  invoke_ok (pre ++ EvInvoke m :: post) ->
  exists t rest, post = EvModels t :: rest /\ invoke_table m t.
Proof.
  induction pre as [|e pre IH]; intros m post H.
  - cbn in H. destruct H as [H _].
    destruct post as [|[] rest]; try contradiction. eauto.
  - apply IH. destruct e; cbn in H; try exact H. apply H.
Qed.

(** X13.  The backend runs only when its model is alone on the GPU.  In the log of
    any run from a fresh manager, every call of a pipeline object comes right
    after a write that left its slot GENERATING with a pipeline object in it
    and the other slot holding none (UNLOADED or ERROR, handle None). *)
Theorem backend_called_when_alone (env : Env) (buffer_gb : Q) (threshold : Z)
    (ops : list Op) (m : ModelType) (pre post : list Event) :
  trace (run_ops env ops (init_world buffer_gb threshold)) = pre ++ EvInvoke m :: post ->
  exists t rest,
    post = EvModels t :: rest /\
    state (lookup t m) = GENERATING /\
    pipeline (lookup t m) <> None /\
    evicted (lookup t (other m)) = true.
Proof.
  intros Htr.
  pose proof (run_ops_invoke env ops _ (init_good buffer_gb threshold) I) as Hi.
  rewrite Htr in Hi. apply invoke_ok_split in Hi.
  destruct Hi as (t & rest & -> & H). exists t, rest. split; [reflexivity|exact H].
Qed.

Lemma backend_called_when_alone_witness :
  let tr := trace (run_ops happy_env
                     [OpGenerateImage "a chair" "image.png" 1024 1024 25] fresh_world) in
  exists t rest,
    skipn 4 tr = EvModels t :: rest /\
    state (lookup t SDXL) = GENERATING /\
    pipeline (lookup t SDXL) <> None /\
    evicted (lookup t (other SDXL)) = true.
Proof.
  intros tr.
  refine (backend_called_when_alone happy_env 2 20
            [OpGenerateImage "a chair" "image.png" 1024 1024 25] SDXL
            (firstn 3 tr) (skipn 4 tr) _).
  vm_compute. reflexivity.
Defined.

(** ** Why a load failed *)

Ltac not_denied_log :=
  wsimpl;
  repeat (apply since_cons; [ unfold not_denied; first [ discriminate | congruence ] | ]);
  first [ apply since_refl | assumption ].

Ltac modes_leaf :=
  wsimpl_in_all; bool_hyps; unfold load_modes; wsimpl;
  split;
  [ first [ assumption | reflexivity ]
  | first
      [ solve [ left; conj; [ reflexivity | reflexivity | not_denied_log ] ]
      | solve [ right; left; conj;
                [ reflexivity | first [ assumption | reflexivity ]
                | eexists; split; [ reflexivity | not_denied_log ] ] ]
      | solve [ right; right; conj;
                [ reflexivity | reflexivity | not_denied_log
                | do 2 eexists; eassumption ] ] ] ].

Section Modes.
Variable env : Env.
Hypothesis Hclear : clear_succeeds env.

Lemma load_model_modes m w :
  model_lock (mgr w) = false ->
  state (lookup (models (mgr w)) m) <> READY ->
  wp (load_model env m) (load_modes env m w) w.
Proof.
  intros Hl Hnr. unfold load_model.
  apply wp_with_model_lock; [congruence|intros _].
  wp_step. wp_step. wp_step.
  { exfalso. destruct (state (lookup (models (mgr w)) m)); cbn in *; congruence. }
  wp_step.
  eapply wp_mono; [apply wp_conj; [apply unload_all_spec|apply (unload_all_clear env Hclear)]|].
  intros o w1 ((Hs & _) & (-> & Hu)). cbv beta iota. wsimpl_in_all.
  assert (Hs' : since (trace w) not_denied (trace w1)).
  { eapply since_weaken; [|exact Hs]. intros e (t & -> & _). discriminate. }
  pose proof (Hu m) as Hum. pose proof (Hu (other m)) as Huo.
  repeat wp_step.
  all: try match goal with
           | H : cuda_clear env ?n = Some _ |- _ => rewrite Hclear in H; discriminate H
           end.
  all: try solve [modes_leaf].
Qed.

End Modes.

Lemma since_not_denied tr0 tr :
  since tr0 not_denied tr ->
  exists new, tr = new ++ tr0 /\ ~ In (EvBudget false) new.
Proof.
  intros (new & -> & Hf). exists new. split; auto.
  rewrite Forall_forall in Hf. intros Hin. exact (Hf _ Hin eq_refl).
Qed.

(** X14.  The state a failed load leaves tells why it failed.  When [_clear_vram]
    never raises, a load of a slot that is not READY (with the model lock
    free) returns True or False, no exception escapes, and the other slot is
    UNLOADED afterwards.  It returns True exactly when it leaves the slot
    READY.  It leaves the slot UNLOADED exactly when the admission check
    denied the load, and then the denial is the last thing it logged; it
    leaves the slot in ERROR exactly when admission passed and building the
    pipeline object raised. *)
Theorem load_failure_tells_cause (env : Env) (m : ModelType) (w : World) :
  clear_succeeds env ->
  model_lock (mgr w) = false ->
  state (lookup (models (mgr w)) m) <> READY ->
  let o := fst (load_model env m w) in
  let w' := snd (load_model env m w) in
  exists new,
    trace w' = new ++ trace w /\
    (o = Ret true \/ o = Ret false) /\
    state (lookup (models (mgr w')) (other m)) = UNLOADED /\
    (o = Ret true <-> state (lookup (models (mgr w')) m) = READY) /\
    (state (lookup (models (mgr w')) m) = UNLOADED <-> In (EvBudget false) new) /\
    (In (EvBudget false) new -> exists rest, new = EvBudget false :: rest) /\
    (state (lookup (models (mgr w')) m) = ERROR <->
     o = Ret false /\ ~ In (EvBudget false) new) /\
    (state (lookup (models (mgr w')) m) = ERROR ->
     exists n e, from_pretrained env m n = inl e).
Proof.
  intros Hclear Hl Hnr o w'.
  pose proof (load_model_modes env Hclear m w Hl Hnr) as H.
  unfold wp in H. fold o w' in H.
  destruct H as (Hother & [(Ho & Hs & Hlog)|[(Ho & Hs & tr & Htr & Hlog)|(Ho & Hs & Hlog & Hfp)]]).
  - apply since_not_denied in Hlog. destruct Hlog as (new & Hnew & Hno).
    exists new. rewrite Ho, Hs. conj; auto; try tauto.
    all: try (split; intros; (discriminate || tauto || (intuition discriminate))).
    all: try (intros; discriminate).
  - apply since_not_denied in Hlog. destruct Hlog as (new & Hnew & Hno).
    exists (EvBudget false :: new). rewrite Ho, Hs, Htr, Hnew. conj; auto.
    all: try (split; intros; (discriminate || tauto || (intuition discriminate))).
    all: try (intros; discriminate).
    + split; auto. intros _. left. reflexivity.
    + intros _. eauto.
    + split; [discriminate|]. intros [_ Hn]. exfalso. apply Hn. left. reflexivity.
  - apply since_not_denied in Hlog. destruct Hlog as (new & Hnew & Hno).
    exists new. rewrite Ho, Hs. conj; auto; try tauto.
    all: try (split; intros; (discriminate || tauto || (intuition discriminate))).
    all: try (intros; discriminate).
Qed.

Lemma load_failure_tells_cause_witness :
  state (lookup (models (mgr (snd (load_model no_weights_env SDXL fresh_world)))) SDXL)
  = ERROR /\
  exists n e, from_pretrained no_weights_env SDXL n = inl e.
Proof.
  split; [vm_compute; reflexivity|].
  destruct (load_failure_tells_cause no_weights_env SDXL fresh_world)
    as (new & _ & _ & _ & _ & _ & _ & _ & H).
  - intros n. reflexivity.
  - reflexivity.
  - vm_compute. discriminate.
  - apply H. vm_compute. reflexivity.
Defined.

(** ** The resource probe and the admission check *)

Lemma GiB_pos : (0 < GiB)%Q.
Proof. reflexivity. Qed.

Lemma MiB_pos : (0 < MiB)%Q.
Proof. reflexivity. Qed.

Lemma budget_ok_true buffer required v :
  budget_ok buffer required v = true <->
  match v with
  | VramUnavailable _ => True
  | VramAvailable s => (required + buffer <= free_gb s)%Q
  end.
Proof.
  unfold budget_ok. destruct v as [e|s]; [tauto|].
  destruct (Qltb (free_gb s) (required + buffer)) eqn:E.
  - apply Qltb_lt in E. split; [discriminate|]. intros H. lra.
  - split; auto. intros _. apply Qnot_lt_le. intros H. apply Qltb_lt in H. congruence.
Qed.

Lemma div_GiB_le a b : a <= b -> (inject_Z a / GiB <= inject_Z b / GiB)%Q.
Proof.
  intros H. unfold Qdiv. apply Qmult_le_compat_r.
  - rewrite <- Zle_Qle. exact H.
  - apply Qlt_le_weak, Qinv_lt_0_compat, GiB_pos.
Qed.

(** X15.  More free memory, a smaller buffer or a smaller requirement never turn
    an admission into a denial: if [_check_vram_budget] admits a load with
    [total - reserved] bytes free, it admits any load that needs no more, with
    a buffer that is no larger, on a device with at least as many bytes
    free. *)
Theorem admission_monotone (buffer buffer' required required' : Q)
    (total total' allocated allocated' reserved reserved' : Z) (name name' : string) :
  budget_ok buffer required (vram_of_query (Cuda total allocated reserved name)) = true ->
  total - reserved <= total' - reserved' ->
  (buffer' <= buffer)%Q -> (required' <= required)%Q ->
  budget_ok buffer' required'
    (vram_of_query (Cuda total' allocated' reserved' name')) = true.
Proof.
  intros H Hf Hb Hr. apply budget_ok_true in H. apply budget_ok_true.
  cbn [vram_of_query free_gb] in *.
  pose proof (div_GiB_le _ _ Hf). lra.
Qed.

Lemma admission_monotone_witness :
  budget_ok 1 6 (vram_of_query (Cuda (16 * 1024 ^ 3) 0 (1024 ^ 3) "gpu")) = true.
Proof.
  refine (admission_monotone 2 1 8 6 (16 * 1024 ^ 3) (16 * 1024 ^ 3) 0 0
            (2 * 1024 ^ 3) (1024 ^ 3) "gpu" "gpu" _ _ _ _).
  - vm_compute. reflexivity.
  - vm_compute. discriminate.
  - vm_compute. discriminate.
  - vm_compute. discriminate.
Defined.

(** X16.  The figures of [get_vram_info] fit together.  For a device with [total]
    bytes of which [reserved] are reserved, free_mb + reserved_mb = total_mb,
    a figure in MB is 1024 times the one in GB, and usage_pct is
    reserved / total * 100: between 0 and 100 when 0 <= reserved <= total,
    and 0, without a division, when total is not positive. *)
Theorem vram_info_consistent (total allocated reserved : Z) (name : string) :
  exists s,
    vram_of_query (Cuda total allocated reserved name) = VramAvailable s /\
    (free_mb s + reserved_mb s == total_mb s)%Q /\
    (total_mb s == total_gb s * inject_Z 1024)%Q /\
    (free_mb s == free_gb s * inject_Z 1024)%Q /\
    device_name s = name /\
    (total <= 0 -> usage_pct s = 0%Q) /\
    (0 < total -> 0 <= reserved <= total ->
     (0 <= usage_pct s)%Q /\ (usage_pct s <= inject_Z 100)%Q).
Proof.
  eexists. split; [reflexivity|].
  cbn [free_mb reserved_mb total_mb total_gb free_gb device_name usage_pct].
  conj.
  - unfold Z.sub. rewrite inject_Z_plus, inject_Z_opp. unfold MiB. field. discriminate.
  - unfold MiB, GiB. change (inject_Z (1024 ^ 3)) with (inject_Z (1024 * 1024) * inject_Z 1024)%Q.
    field; repeat split; discriminate.
  - unfold MiB, GiB. change (inject_Z (1024 ^ 3)) with (inject_Z (1024 * 1024) * inject_Z 1024)%Q.
    field; repeat split; discriminate.
  - reflexivity.
  - intros H. destruct (0 <? total) eqn:E; auto. apply Z.ltb_lt in E. lia.
  - intros Ht [Hr1 Hr2]. apply Z.ltb_lt in Ht as E. rewrite E.
    assert (H0 : (0 < inject_Z total)%Q) by (rewrite Zlt_Qlt in Ht; exact Ht).
    assert (H1 : (0 <= inject_Z reserved)%Q) by (rewrite Zle_Qle in Hr1; exact Hr1).
    assert (H2 : (inject_Z reserved <= inject_Z total)%Q) by (rewrite Zle_Qle in Hr2; exact Hr2).
    split.
    + apply Qmult_le_0_compat; [|discriminate].
      apply Qle_shift_div_l; [exact H0|lra].
    + assert (H3 : (inject_Z reserved / inject_Z total <= 1)%Q).
      { apply Qle_shift_div_r; [exact H0|lra]. }
      change (inject_Z 100) with (100%Q).
      assert (H4 : (inject_Z reserved / inject_Z total * 100 <= 1 * 100)%Q).
      { apply Qmult_le_compat_r; [exact H3|discriminate]. }
      lra.
Qed.

(** * Properties of the inference server *)

(** ** [str.strip] *)








(** ** Request validation *)



Lemma run_job_id uuid4 job_id w :
  inference_server.job_id_or_new uuid4 job_id w
  = (Ret (the_job_id uuid4 job_id w), after_job_id job_id w) /\
  mgr (after_job_id job_id w) = mgr w /\
  trace (after_job_id job_id w) = trace w /\
  (Good w -> Good (after_job_id job_id w)).
Proof.
  destruct job_id; cbn; conj; auto.
Qed.



(** ** The answers of [/generate/image] *)

Lemma written_bump out w w1 : written out w w1 -> written out w (bump w1).
Proof. unfold written. cbn. auto. Qed.

(** The end of the manager part of an endpoint: the headers are read from a
    result that has them, and the [FileResponse] is built. *)
Lemma respond_served FileResponse_init out media name job w r w1 :
  Good w1 -> written out w w1 ->
  (exists t, generation_time r = Some t) -> (exists n, file_size_bytes r = Some n) ->
  wp (t <- inference_server.getitem "generation_time" (generation_time r) ;;
      n <- inference_server.getitem "file_size_bytes" (file_size_bytes r) ;;
      ext_unit FileResponse_init ;;;
      ret (inr (inference_server.mkFileResponse out media name job t n)))
     (served FileResponse_init out media name job w) w1.
Proof.
  intros HG Hw (t & Ht) (n & Hn). rewrite Ht, Hn.
  unfold wp, bind, inference_server.getitem, ret, ext_unit. cbn.
  destruct (FileResponse_init (tick w1)) eqn:E; cbn; unfold served.
  - split; [apply Good_bump, HG|]. split; [eauto|apply written_bump, Hw].
  - split; [apply Good_bump, HG|]. split; [eauto|apply written_bump, Hw].
Qed.

Section ImageEndpoint.
Variable env : Env.
Variable FileResponse_init : nat -> option string.


End ImageEndpoint.



(** ** The answers of [/generate/mesh] *)

Section MeshEndpoint.
Variable env : Env.
Variable FileResponse_init : nat -> option string.

Lemma mesh_serve image_data out media name job w :
  Good w ->
  wp (result <- generate_mesh env image_data out ;;
      if negb (success result)
      then ret (inl (inference_server.mkHTTPException 500
                       ("Generation failed: " ++ error_text result)%string))
      else
        t <- inference_server.getitem "generation_time" (generation_time result) ;;
        n <- inference_server.getitem "file_size_bytes" (file_size_bytes result) ;;
        ext_unit FileResponse_init ;;;
        ret (inr (inference_server.mkFileResponse out media name job t n)))
     (served FileResponse_init out media name job w) w.
Proof.
  intros HG.
  apply wp_bind.
  eapply wp_mono;
    [apply wp_conj;
     [apply generate_mesh_spec; exact HG
     |apply wp_conj; [apply generate_mesh_shape|apply generate_mesh_stats]]|].
  intros o w1 ((HG1 & _ & (r & -> & Hinc) & _) & Hshape & Hstats).
  apply stats_post_artifact in Hstats.
  destruct Hstats as (new & Hnew & _ & _ & Hart).
  cbn [result_shape] in Hshape.
  destruct Hshape as [(Hs1 & _ & _ & Het & _ & _ & _ & Hen)|(e & ->)].
  - rewrite Hs1. cbn [negb].
    apply respond_served; auto.
    split; [auto|]. exists new. split; [exact Hnew|]. exact (Hart r eq_refl Hs1).
  - unfold served, wp. cbn. split; [exact HG1|]. eauto.
Qed.

End MeshEndpoint.

Ltac untouched_tac := unfold untouched; wsimpl; split; reflexivity.

Ltac checked_tac :=
  unfold mesh_upload_checked; conj;
  [ assumption
  | match goal with H : (_ <? _) = false |- _ => apply Z.ltb_ge in H; exact H end
  | eexists; split;
    [ eassumption
    | match goal with H : (4096 <? _) = false |- _ => apply Z.ltb_ge in H; exact H end ] ].

Ltac mesh_leaf :=
  wsimpl_in_all; unfold mesh_endpoint_post; wsimpl;
  split;
  [ first [ left; untouched_tac | right; checked_tac ]
  | first
      [ exact I
      | left; split; [ reflexivity | untouched_tac ]
      | right; left; eexists; reflexivity
      | right; right; left; eexists; conj; [ reflexivity | eassumption | untouched_tac ] ] ].

Ltac mesh_step :=
  lazymatch goal with
  | |- wp (bind (generate_mesh _ _ _) _) _ _ => fail
  | _ => first [ wp_step | apply wp_ext; cbv beta iota ]
  end.

Section MeshAnswers.
Variable env : Env.
Variable truediv : string -> string -> string.
Variable PILImage_open : nat -> string + inference_server.PILImage.
Variable temp_exists : nat -> bool.
Variable FileResponse_init : nat -> option string.

Lemma mesh_endpoint_wp uuid4 OUTPUT_DIR image job_id w :
  Good w ->
  wp (inference_server.generate_mesh env uuid4 OUTPUT_DIR truediv PILImage_open
        temp_exists FileResponse_init image job_id)
     (mesh_endpoint_post PILImage_open FileResponse_init image
        (truediv OUTPUT_DIR (the_job_id uuid4 job_id w ++ ".glb")%string)
        (the_job_id uuid4 job_id w) (after_job_id job_id w)) w.
Proof.
  intros HG.
  destruct (run_job_id uuid4 job_id w) as (Hjob & Hm & Ht & HG0).
  specialize (HG0 HG).
  unfold inference_server.generate_mesh.
  apply wp_bind. unfold wp at 1. rewrite Hjob. cbn [fst snd].
  set (job := the_job_id uuid4 job_id w) in *.
  set (w0 := after_job_id job_id w) in *.
  clearbody job w0. clear Hjob Hm Ht HG w.
  destruct HG0 as (Ht & Hk & Hl).
  repeat mesh_step.
  all: try solve [mesh_leaf].
  all: eapply wp_mono; [apply mesh_serve; good_tac|].
  all: intros o w1 (HG1 & Hresp); destruct o as [[exc|file]|e|];
    cbv beta iota; try contradiction.
  all: repeat mesh_step.
  all: wsimpl_in_all; unfold mesh_endpoint_post; wsimpl.
  all: try solve [ split; [right; checked_tac|exact I] ].
  all: try solve [ split; [right; checked_tac|];
                   right; left; exact Hresp ].
  all: try solve [ split; [right; checked_tac|];
                   split; [checked_tac|]; exact Hresp ].
  all: solve [ split; [right; checked_tac|];
               right; right; right;
               destruct Hresp as [(n & Hn) Hw]; exists e, n;
               conj; [reflexivity|exact Hn|exact Hw] ].
Qed.

End MeshAnswers.

Lemma app_self_nil {A} (new l : list A) : l = new ++ l -> new = [].
Proof. intros H. apply (app_inv_tail l). rewrite <- H. reflexivity. Qed.

(** X20.  What [/generate/mesh] answers, in a world as the operations leave it.
    An upload whose content type is given, not empty and not one of
    image/png, image/jpeg and image/webp is answered with 400 before anything
    is read or written.  An upload of more than 20 MiB is answered with 400
    'Image too large. Maximum 20 MB.' once it has been read.  The manager is
    called only for an upload that passed both checks and that PIL opened as
    an image of at most 4096 pixels each way.  An error answer is a 400 with
    the manager untouched; a 500 'Generation failed: ...' from the manager's
    result; a 500 'Internal error: ...' that carries the exception of
    [PILImage.open], again with the manager untouched; or a 500 'Internal
    error: ...' that carries the exception of the [FileResponse]
    constructor, raised after the mesh file has been written and counted.  A
    file answer has the path [OUTPUT_DIR / '<job id>.glb'], the media type
    model/gltf-binary and the job id; the mesh file has been written and
    generation_count is one more. *)
Theorem mesh_endpoint_answers (env : Env) (uuid4 : nat -> string) (OUTPUT_DIR : string)
    (truediv : string -> string -> string)
    (PILImage_open : nat -> string + inference_server.PILImage)
    (temp_exists : nat -> bool) (FileResponse_init : nat -> option string)
    (image : inference_server.UploadFile) (job_id : option string) (w : World) :
  Good w ->
  let job := the_job_id uuid4 job_id w in
  let w0 := after_job_id job_id w in
  let out := truediv OUTPUT_DIR (job ++ ".glb")%string in
  let r := inference_server.generate_mesh env uuid4 OUTPUT_DIR truediv PILImage_open
             temp_exists FileResponse_init image job_id w in
  (inference_server.unsupported_type (inference_server.content_type image) = true ->
   exists d, r = (Ret (inl (inference_server.mkHTTPException 400 d)), w0)) /\
  (inference_server.unsupported_type (inference_server.content_type image) = false ->
   io env (tick w0) = None ->
   20 * 1024 * 1024 < Z.of_nat (List.length (inference_server.contents image)) ->
   r = (Ret (inl (inference_server.mkHTTPException 400 "Image too large. Maximum 20 MB.")),
        bump w0)) /\
  (forall new,
     trace (snd r) = new ++ trace w -> In (EvCall GENERATE_MESH) new ->
     mesh_upload_checked PILImage_open image (S (S (tick w0)))) /\
  (forall exc,
     fst r = Ret (inl exc) ->
     (inference_server.status_code exc = 400 /\ untouched w (snd r)) \/
     (exists e, exc = inference_server.mkHTTPException 500 ("Generation failed: " ++ e)) \/
     (exists e,
        exc = inference_server.mkHTTPException 500 ("Internal error: " ++ e) /\
        PILImage_open (S (S (tick w0))) = inl e /\ untouched w (snd r)) \/
     (exists e n,
        exc = inference_server.mkHTTPException 500 ("Internal error: " ++ e) /\
        FileResponse_init n = Some e /\ written out w (snd r))) /\
  (forall file,
     fst r = Ret (inr file) ->
     mesh_upload_checked PILImage_open image (S (S (tick w0))) /\
     (exists t n,
        file = inference_server.mkFileResponse out "model/gltf-binary"
                 (job ++ ".glb") job t n) /\
     written out w (snd r)).
Proof.
  intros HG job w0 out r.
  destruct (run_job_id uuid4 job_id w) as (Hjob & Hm & Ht & _).
  fold job w0 in Hjob, Hm, Ht.
  pose proof (mesh_endpoint_wp env truediv PILImage_open temp_exists FileResponse_init
                uuid4 OUTPUT_DIR image job_id w HG) as Hwp.
  unfold wp in Hwp. fold job w0 out r in Hwp.
  assert (Hr : r = inference_server.generate_mesh env uuid4 OUTPUT_DIR truediv
                     PILImage_open temp_exists FileResponse_init image job_id w)
    by reflexivity.
  unfold inference_server.generate_mesh, bind in Hr. rewrite Hjob in Hr.
  assert (Hun : forall w', untouched w0 w' -> untouched w w').
  { unfold untouched. intros w' [H1 H2]. rewrite H1, H2. auto. }
  assert (Hwr : forall w', written out w0 w' -> written out w w').
  { unfold written. rewrite Hm, Ht. auto. }
  destruct Hwp as (Hcheck & Hpost).
  conj.
  - intros Hu. rewrite Hu in Hr. rewrite Hr. eexists. reflexivity.
  - intros Hu Hio Hlong. rewrite Hu in Hr. unfold io_call, ext_unit in Hr.
    rewrite Hio in Hr. apply Z.ltb_lt in Hlong. rewrite Hlong in Hr.
    rewrite Hr. reflexivity.
  - intros new Hnew Hin. destruct Hcheck as [[_ Hu]|Hc]; auto.
    rewrite Ht in Hu. rewrite Hu in Hnew. apply app_self_nil in Hnew.
    subst new. destruct Hin.
  - intros exc He. rewrite He in Hpost. cbn in Hpost.
    destruct Hpost as [(Hs & Hu)|[H|[(e & H1 & H2 & Hu)|(e & n & H1 & H2 & Hw)]]].
    + left. split; [exact Hs|apply Hun, Hu].
    + right. left. exact H.
    + right. right. left. exists e. conj; auto.
    + right. right. right. exists e, n. conj; auto.
  - intros file He. rewrite He in Hpost. cbn in Hpost.
    destruct Hpost as (H1 & H2 & H3). conj; auto.
Qed.

Lemma mesh_endpoint_answers_witness :
  let r := inference_server.generate_mesh happy_env sample_uuid4 "out" posix_truediv
             sample_open (fun _ => true) no_error sample_upload None fresh_world in
  generation_count (mgr (snd r)) = generation_count (mgr fresh_world) + 1.
Proof.
  intros r.
  refine (proj1 (proj2 (proj2
    (proj2 (proj2 (proj2 (proj2
      (mesh_endpoint_answers happy_env sample_uuid4 "out" posix_truediv sample_open
         (fun _ => true) no_error sample_upload None fresh_world (init_good 2 20))))) _ _)))).
  vm_compute. reflexivity.
Defined.

(** ** The answers of [/generate/full] *)



(** ** [/health] and [/status] *)

Lemma round1_zero : (round1 0 == 0)%Q.
Proof. vm_compute. reflexivity. Qed.

(** X22.  What [/health] and [/status] report after any run from a fresh manager.
    Both answer without changing the manager or its log; [/health] probes the
    device twice (once itself, once through [get_status]), [/status] once.
    Both report for each model the state and load_count of its slot, and the
    generation_count; so they never show both models READY or GENERATING at
    once.  [/health] always says 'healthy'; gpu_available is true exactly when
    the first probe found a CUDA device, and without one the name is 'N/A'
    and both VRAM figures are 0. *)
Theorem health_reports_table (env : Env) (buffer_gb : Q) (threshold : Z) (ops : list Op) :
  let w := run_ops env ops (init_world buffer_gb threshold) in
  exists h s,
    inference_server.health env w = (Ret h, bump (bump w)) /\
    inference_server.status env w = (Ret s, bump w) /\
    inference_server.health_status h = "healthy"%string /\
    (forall m,
       inference_server.health_models h m
       = mkModelStatus (state (lookup (models (mgr w)) m))
                       (load_count (lookup (models (mgr w)) m)) /\
       status_models s m = inference_server.health_models h m) /\
    inference_server.health_generation_count h = generation_count (mgr w) /\
    status_generation_count s = generation_count (mgr w) /\
    is_resident (status_state (inference_server.health_models h INSTANTMESH))
    && is_resident (status_state (inference_server.health_models h SDXL)) = false /\
    (inference_server.gpu_available h = true <->
     exists total allocated reserved name,
       cuda_query env (tick w) = Cuda total allocated reserved name) /\
    (inference_server.gpu_available h = false ->
     inference_server.gpu_name h = "N/A"%string /\
     (inference_server.vram_total_gb h == 0)%Q /\
     (inference_server.vram_free_gb h == 0)%Q).
Proof.
  intros w.
  destruct (run_ops_good env ops _ (init_good buffer_gb threshold)) as ((_ & (_ & Hs) & _) & _).
  fold w in Hs.
  eexists. eexists. split; [reflexivity|]. split; [reflexivity|].
  cbn [inference_server.health_status inference_server.health_models
       inference_server.health_generation_count inference_server.gpu_available
       inference_server.gpu_name inference_server.vram_total_gb
       inference_server.vram_free_gb status_models status_generation_count
       status_state mgr bump].
  conj; auto.
  - unfold single_residency in Hs. apply negb_true_iff in Hs. exact Hs.
  - unfold vram_of_query. destruct (cuda_query env (tick w)); split.
    all: try discriminate.
    all: try (intros (total' & allocated' & reserved' & name' & He); discriminate He).
    + intros _. eauto.
    + reflexivity.
  - unfold vram_of_query.
    destruct (cuda_query env (tick w)); try discriminate;
      intros _; conj; try reflexivity; apply round1_zero.
Qed.

(** ** [cleanup_temp_files] *)

Lemma filter_partition_length {A} (p : A -> bool) (l : list A) :
  (length (filter p l) + length (filter (fun x => negb (p x)) l) = length l)%nat.
Proof.
  induction l as [|x l IH]; cbn; auto.
  destruct (p x); cbn; lia.
Qed.

Lemma stale_passes_kept cutoff cutoff' f :
  (cutoff' <= cutoff)%Q -> passes cutoff f -> stale cutoff f = false ->
  passes cutoff' f /\ stale cutoff' f = false.
Proof.
  unfold passes, stale. intros Hle (b & Hb & Hp) Hs. rewrite Hb in *.
  destruct b; [|split; [exists false; split; [auto|discriminate]|reflexivity]].
  destruct (Hp eq_refl) as (mtime & Hm & Hu). rewrite Hm in *.
  assert (Hn : Qltb mtime cutoff' = false).
  { destruct (Qltb mtime cutoff') eqn:E; auto.
    apply Qltb_lt in E. assert (Hlt : (mtime < cutoff)%Q) by lra.
    apply Qltb_lt in Hlt. congruence. }
  split; [|exact Hn].
  exists true. split; [auto|]. intros _. exists mtime. split; [reflexivity|].
  rewrite Hn. discriminate.
Qed.

(** The loop: it works through a first part [done] of the entries, on
    which no call raises, removes the stale ones among them and counts them;
    it ends at the end of the entries, or at the first entry on which a call
    raises, which it leaves in place with all that follow. *)
Lemma cleanup_loop_spec cutoff entries : forall count,
  exists done rest exc,
    entries = done ++ rest /\
    Forall (passes cutoff) done /\
    inference_server.cleanup_loop cutoff entries count
    = (exc, filter (fun f => negb (stale cutoff f)) done ++ rest,
       count + Z.of_nat (length (filter (stale cutoff) done))) /\
    match exc with
    | None => rest = []
    | Some e => exists f rest', rest = f :: rest' /\ stops cutoff f e
    end.
Proof.
  induction entries as [|f entries IH]; intros count.
  - exists [], [], None. cbn. repeat split; auto. f_equal. lia.
  - cbn [inference_server.cleanup_loop].
    destruct (inference_server.is_file f) as [e|[|]] eqn:Ef.
    + exists [], (f :: entries), (Some e). cbn. repeat split; auto.
      * f_equal. lia.
      * exists f, entries. split; [reflexivity|]. unfold stops. auto.
    + destruct (inference_server.st_mtime f) as [e|mtime] eqn:Em.
      * exists [], (f :: entries), (Some e). cbn. repeat split; auto.
        -- f_equal. lia.
        -- exists f, entries. split; [reflexivity|]. unfold stops. auto.
      * destruct (Qltb mtime cutoff) eqn:Eq.
        -- destruct (inference_server.unlink f) as [e|] eqn:Eu.
           ++ exists [], (f :: entries), (Some e). cbn. repeat split; auto.
              ** f_equal. lia.
              ** exists f, entries. split; [reflexivity|]. unfold stops, stale.
                 rewrite Ef, Em, Eq. auto.
           ++ destruct (IH (count + 1)) as (done & rest & exc & -> & Hp & Hrun & Hexc).
              exists (f :: done), rest, exc.
              assert (Hs : stale cutoff f = true) by (unfold stale; now rewrite Ef, Em, Eq).
              cbn [filter]. rewrite Hs. cbn [negb length]. repeat split; auto.
              ** constructor; auto. exists true. split; [auto|]. intros _.
                 exists mtime. auto.
              ** rewrite Hrun. f_equal. lia.
        -- destruct (IH count) as (done & rest & exc & -> & Hp & Hrun & Hexc).
           exists (f :: done), rest, exc.
           assert (Hs : stale cutoff f = false) by (unfold stale; now rewrite Ef, Em, Eq).
           cbn [filter]. rewrite Hs. cbn [negb]. repeat split; auto.
           ++ constructor; auto. exists true. split; [auto|]. intros _.
              exists mtime. split; [auto|]. congruence.
           ++ rewrite Hrun. reflexivity.
    + destruct (IH count) as (done & rest & exc & -> & Hp & Hrun & Hexc).
      exists (f :: done), rest, exc.
      assert (Hs : stale cutoff f = false) by (unfold stale; now rewrite Ef).
      cbn [filter]. rewrite Hs. cbn [negb]. repeat split; auto.
      * constructor; auto. exists false. split; [auto|discriminate].
      * rewrite Hrun. reflexivity.
Qed.

Lemma passes_not_stops cutoff f e : passes cutoff f -> ~ stops cutoff f e.
Proof.
  unfold passes, stops, stale. intros (b & Hb & Hp) [Hf|(Hf & [Hm|(Hs & Hu)])].
  - congruence.
  - rewrite Hf in Hb. injection Hb as <-.
    destruct (Hp eq_refl) as (mtime & Hm' & _). congruence.
  - rewrite Hf in Hb. injection Hb as <-.
    destruct (Hp eq_refl) as (mtime & Hm' & Hu'). rewrite Hf, Hm' in Hs.
    rewrite (Hu' Hs) in Hu. discriminate.
Qed.

Lemma cleanup_loop_kept cutoff kept :
  Forall (fun f => passes cutoff f /\ stale cutoff f = false) kept ->
  inference_server.cleanup_loop cutoff kept 0 = (None, kept, 0).
Proof.
  intros H.
  assert (G : forall count,
             inference_server.cleanup_loop cutoff kept count = (None, kept, count)).
  { induction H as [|f kept [Hp Hs] _ IH]; intros count; [reflexivity|].
    cbn [inference_server.cleanup_loop]. unfold passes, stale in Hp, Hs.
    destruct Hp as (b & Hb & Hp). rewrite Hb in *. destruct b.
    - destruct (Hp eq_refl) as (mtime & Hm & _). rewrite Hm in *. rewrite Hs.
      rewrite IH. reflexivity.
    - rewrite IH. reflexivity. }
  apply G.
Qed.

(** X23.  What [cleanup_temp_files] removes.  Without a TEMP_DIR it does nothing
    and does not even read the clock; if [exists()] raises, the exception
    leaves the function at once.  Otherwise it reads the clock once; if
    [iterdir()] raises, the exception leaves the function and the directory
    is as it was.  If not, with cutoff = now - max_age_hours * 3600, the
    loop works through the entries in order: of
    the entries it got through it has removed exactly the stale ones, the
    files with st_mtime < cutoff, and count is their number; directories and
    files that are not older than the cutoff are never removed and the
    entries left keep their order.  The loop stops early only at an entry on
    which [is_file()] raises, a file on which [stat()] raises, or a stale
    file on which [unlink()] raises: that exception leaves the function, and
    this entry and all that follow are still there.  If no such call raises,
    the function returns None having removed exactly the stale entries, and
    running the loop again on what is left with the same or an earlier cutoff
    removes nothing. *)
Theorem cleanup_removes_old_files (env : Env) (max_age_hours : Q)
    (temp_dir : inference_server.TempDir) (w : World) :
  let r := inference_server.cleanup_temp_files env max_age_hours temp_dir w in
  let cutoff := (clock env (tick w) - max_age_hours * inject_Z 3600)%Q in
  (inference_server.dir_exists temp_dir = inr false -> r = ((Ret tt, w), temp_dir)) /\
  (forall e, inference_server.dir_exists temp_dir = inl e ->
     r = ((Raise e, w), temp_dir)) /\
  (inference_server.dir_exists temp_dir = inr true ->
   (forall e, inference_server.iterdir temp_dir = inl e ->
      r = ((Raise e, bump w), temp_dir)) /\
   (forall entries, inference_server.iterdir temp_dir = inr entries ->
      exists done rest count,
        entries = done ++ rest /\
        Forall (passes cutoff) done /\
        let kept := filter (fun f => negb (stale cutoff f)) done ++ rest in
        snd r = inference_server.mkTempDir (inr true) (inr kept) /\
        snd (fst r) = bump w /\
        snd (inference_server.cleanup_loop cutoff entries 0) = count /\
        count = Z.of_nat (length entries) - Z.of_nat (length kept) /\
        (forall f, In f entries -> ~ In f kept -> stale cutoff f = true) /\
        ((fst (fst r) = Ret tt /\ rest = []) \/
         (exists e f rest',
            fst (fst r) = Raise e /\ rest = f :: rest' /\ stops cutoff f e)) /\
        (Forall (passes cutoff) entries ->
         fst (fst r) = Ret tt /\ rest = [] /\
         forall cutoff', (cutoff' <= cutoff)%Q ->
           inference_server.cleanup_loop cutoff' kept 0 = (None, kept, 0)))).
Proof.
  intros r cutoff.
  assert (Hr : r = inference_server.cleanup_temp_files env max_age_hours temp_dir w)
    by reflexivity.
  unfold inference_server.cleanup_temp_files, time_time, ext in Hr.
  cbn [fst snd] in Hr. fold cutoff in Hr.
  split; [|split].
  - intros He. rewrite He in Hr. exact Hr.
  - intros e He. rewrite He in Hr. exact Hr.
  - intros He. rewrite He in Hr. split.
    + intros e Hi. rewrite Hi in Hr. exact Hr.
    + intros entries Hi. rewrite Hi in Hr.
      destruct (cleanup_loop_spec cutoff entries 0)
        as (done & rest & exc & Hsplit & Hp & Hrun & Hexc).
      rewrite Hrun in Hr. cbn [fst snd] in Hr.
      exists done, rest, (Z.of_nat (length (filter (stale cutoff) done))).
      rewrite Hrun, Hr. cbn [fst snd]. cbv zeta.
      assert (Hlen : (length (filter (stale cutoff) done)
                      + length (filter (fun f => negb (stale cutoff f)) done)
                      = length done)%nat)
        by apply filter_partition_length.
      repeat match goal with |- _ /\ _ => split end; auto.
      * rewrite Hsplit. rewrite !length_app. lia.
      * intros f Hin Hout. rewrite Hsplit in Hin. apply in_app_or in Hin.
        destruct Hin as [Hin|Hin].
        -- destruct (stale cutoff f) eqn:Es; auto. exfalso. apply Hout.
           apply in_or_app. left. apply filter_In. rewrite Es. auto.
        -- exfalso. apply Hout. apply in_or_app. auto.
      * destruct exc as [e|].
        -- right. destruct Hexc as (f & rest' & -> & Hst). eauto 6.
        -- left. auto.
      * intros Hall.
        assert (Hrest : rest = [] /\ exc = None).
        { destruct exc as [e|]; [|auto].
          destruct Hexc as (f & rest' & -> & Hst). exfalso.
          rewrite Hsplit in Hall. apply Forall_app in Hall. destruct Hall as [_ Hall].
          inversion Hall as [|? ? Hf _]. subst. exact (passes_not_stops _ _ _ Hf Hst). }
        destruct Hrest as [-> ->]. repeat split; auto.
        intros cutoff' Hle. apply cleanup_loop_kept.
        rewrite app_nil_r. apply Forall_forall. intros f Hin.
        apply filter_In in Hin. destruct Hin as [Hin Hs].
        apply negb_true_iff in Hs.
        rewrite Forall_forall in Hp.
        exact (stale_passes_kept cutoff cutoff' f Hle (Hp f Hin) Hs).
Qed.

